(** * Traffic-analysis extension: cache, request coordinator, messenger, event bus

    A shallow embedding of the data-access layer of the extension
    ([DataManager], [Utils.events], the background worker's cache and the
    persisted visit lists) together with the properties the specification
    states about it, followed by the code around it: the formatting and
    storage helpers of [Utils], the content script, the mock generators of
    the manager and of the worker, the worker's settings, alarms and
    messages, and the pinned routes.

    Conventions of the embedding.
    - JavaScript values are the inductive [JS.value]; truthiness, property
      access and [||] are written out the way the engine evaluates them.
    - [Date.now()] is an explicit argument of the cache operations and the
      [clock] field of the [world] the coordinator runs in.
    - An [async] method is a computation in the monad [M] (state plus
      exception); the promise it returns is [Resolved] when the computation
      ends normally and [Rejected] when an exception escapes it.
    - [Math.random()] is a stream of rationals read through a counter.
    - Numbers are rationals ([None] being NaN where it can arise), and
      the arithmetic on them is exact, where the code computes in IEEE
      doubles and rounds every operation. Properties of integers
      ([Math.round], [Math.floor], time values) are stated where the two
      agree; bounds on other numbers are stated where the doubles keep
      them, or with the allowance [rounding], over ranges in which the
      rounding errors of the code stay far below it.
    - Where a loop reads [Date.now()] at every turn, the readings are a
      function of the number of the reading.
    - [JSON.stringify] and the string conversion of template literals are
      engine built-ins; they are the fields of the class [Builtins]. *)

From Stdlib Require Import ZArith QArith Qround String Lia Lqa.
From stdpp Require Import base gmap strings list pretty sorting.

Set Warnings "-register-all".
Open Scope Z_scope.

(** ** JavaScript values *)

Module JS.

Inductive value :=
| VUndefined
| VNull
| VBool (b : bool)
| VNum (q : Q)
| VStr (s : string)
| VDate (ms : Z)
| VArr (items : list value)
| VObj (fields : list (string * value)).

(** An object literal: its own properties, in order. *)
Definition object := list (string * value).

(** ToBoolean. *)
Definition truthy (v : value) : bool :=
  match v with
  | VUndefined | VNull => false
  | VBool b => b
  | VNum q => negb (Qeq_bool q 0)
  | VStr s => negb (String.eqb s "")
  | VDate _ | VArr _ | VObj _ => true
  end.

Fixpoint lookup_field (name : string) (fields : object) : value :=
  match fields with
  | [] => VUndefined
  | (k, v) :: rest => if String.eqb k name then v else lookup_field name rest
  end.

(** [v.name] for a [v] that is neither [null] nor [undefined]; the
    properties read here ([success], [data], [error], [from], [to],
    [departureTime], [lat], [lng]) exist on objects only: read on a
    number, a text, a date or an array they are [undefined]. *)
Definition get_prop (v : value) (name : string) : value :=
  match v with
  | VObj fields => lookup_field name fields
  | _ => VUndefined
  end.

(** [v?.name] *)
Definition opt_chain (v : value) (name : string) : value :=
  match v with
  | VUndefined | VNull => VUndefined
  | _ => get_prop v name
  end.

(** [a || b] with [b] already evaluated. *)
Definition or_else (a b : value) : value := if truthy a then a else b.

(** [params = {}]: a parameter with the default [{}], which replaces
    [undefined] only. *)
Definition or_empty (params : value) : value :=
  match params with
  | VUndefined => VObj []
  | _ => params
  end.

Definition nullish (v : value) : bool :=
  match v with
  | VUndefined | VNull => true
  | _ => false
  end.

(** The conversion of a value to a text or to a number goes, for an
    object, through its [toString]; no value here is a function, so an
    object that has a property [toString] of its own cannot be converted.
    [Array.prototype.toString] converts the items of the array. A
    conversion of such a value throws a TypeError. *)
Fixpoint convertible (v : value) : bool :=
  match v with
  | VObj fields => negb (existsb (λ kv, String.eqb kv.1 "toString") fields)
  | VArr items => forallb convertible items
  | _ => true
  end.

(** Thrown values: [new Error(x)] holds the text of [x] as its
    [message]; the two engine errors keep the name of what was
    accessed. *)
Inductive error :=
| Error (message : string)
| TypeError (what : string)
| ReferenceError (what : string).

(** A settled promise. *)
Inductive promise (A : Type) :=
| Resolved (a : A)
| Rejected (e : error).
Arguments Resolved {A} a.
Arguments Rejected {A} e.

(** How a synchronous call ends. *)
Inductive completion :=
| Normal
| Thrown (e : error).

(** *** Numbers that may be NaN *)
Definition number := option Q.

Definition num_add (a b : number) : number :=
  match a, b with Some x, Some y => Some (x + y)%Q | _, _ => None end.

Definition num_sub (a b : number) : number :=
  match a, b with Some x, Some y => Some (x - y)%Q | _, _ => None end.

Definition num_mul (a b : number) : number :=
  match a, b with Some x, Some y => Some (x * y)%Q | _, _ => None end.

(** The conversions of the engine: [JSON.stringify] and the conversion
    to text of template literals and of [new Error(x)], with which the
    cache keys and the error messages are built; the number a text stands
    for and the text of a number, which [+] and [-] use. [JSON.stringify]
    is total on the values above (which hold no symbol, no BigInt, no
    function and no cycle); [ToString] is the conversion of the values
    that are [convertible], the code that converts another one throwing
    before it has a text; the text of a text is the text itself. *)
Class Builtins := {
  JSON_stringify : value → string;
  ToString : value → string;
  StringToNumber : string → number;
  NumberToString : number → string;
  ToString_text : ∀ s, ToString (VStr s) = s
}.

(** [ToNumber], for a [convertible] value: an array or an object is
    converted through its text. *)
Definition ToNumber `{Builtins} (v : value) : number :=
  match v with
  | VUndefined => None
  | VNull => Some 0%Q
  | VBool b => Some (if b then 1 else 0)%Q
  | VNum q => Some q
  | VStr s => StringToNumber s
  | VDate ms => Some (inject_Z ms)
  | VArr _ | VObj _ => StringToNumber (ToString v)
  end.

(** *** Code that may throw, over a state [St]

    A computation takes the state and ends with a value or a thrown error;
    run as the body of an [async] function, that is the promise returned. *)
Definition M (St A : Type) : Type := St → promise A * St.

#[export] Instance M_ret {St} : MRet (M St) := λ A a w, (Resolved a, w).

#[export] Instance M_bind {St} : MBind (M St) := λ A B f m w,
  match m w with
  | (Resolved a, w') => f a w'
  | (Rejected e, w') => (Rejected e, w')
  end.

Definition throw {St A} (e : error) : M St A := λ w, (Rejected e, w).

(** [try { body } catch (error) { handler }] *)
Definition try_catch {St A} (body : M St A) (handler : error → M St A)
  : M St A := λ w,
  match body w with
  | (Resolved a, w') => (Resolved a, w')
  | (Rejected e, w') => handler e w'
  end.

Definition get_state {St} : M St St := λ w, (Resolved w, w).

Definition modify {St} (f : St → St) : M St unit := λ w, (Resolved tt, f w).

(** [for (let i = 0; i < n; i++) { items.push(body i) }] *)
Fixpoint for_push {St A} (body : nat → M St A) (i n : nat) : M St (list A) :=
  match n with
  | O => mret []
  | S n' => x ← body i; rest ← for_push body (S i) n'; mret (x :: rest)
  end.

(** *** [Math.round], the integer part, [Array.prototype.sort] *)

(** [Math.round]: nearest integer, halves upwards. *)
Definition Math_round (x : Q) : Z := Qfloor (x + 0.5)%Q.

(** The integer part of a number, towards zero: what [%] and the time
    value of [new Date(x)] keep. *)
Definition truncate (x : Q) : Z := Z.quot (Qnum x) (Zpos (Qden x)).

(** The time value of [new Date(x)]: the integer part of [x], or none
    (an invalid Date) beyond 8.64e15 ms on either side of the epoch. *)
Definition TimeClip (x : Q) : option Z :=
  if Qle_bool (-8640000000000000) x && Qle_bool x 8640000000000000
  then Some (truncate x)
  else None.

(** [arr.sort(cmp)] for a comparator returning a number: an element goes
    before the first one it does not compare greater than, so equal
    elements keep their order (the sort is stable). *)
Fixpoint sort_insert {A} (cmp : A → A → Z) (x : A) (sorted : list A) : list A :=
  match sorted with
  | [] => [x]
  | y :: rest =>
      if cmp x y <=? 0 then x :: y :: rest else y :: sort_insert cmp x rest
  end.

Definition sort {A} (cmp : A → A → Z) (arr : list A) : list A :=
  foldr (sort_insert cmp) [] arr.

(** The spec's CacheEntry; the key is the key of the map holding it. *)
Record entry := { data : value; timestamp : Z }.

End JS.
Import JS.

(** ** Utils (part_003) *)

Module Utils.

(** [Utils.getTrafficColor] with the thresholds 0.3 and 0.7. *)
Definition getTrafficColor (congestion : Q) : string :=
  if Qle_bool congestion 0.3%Q then "smooth"
  else if Qle_bool congestion 0.7%Q then "moderate"
  else "heavy".

(** [Utils.calculateETA]: the time value of the returned Date; [None]
    is an invalid Date, that of a division by zero or of a time out of
    range. [now] is [Date.now()]. *)
Definition calculateETA (now : Z) (distance speed : Q) : option Z :=
  if Qeq_bool speed 0 then None
  else
    let durationInHours := ((distance / 1000) / speed)%Q in
    let durationInMs := (durationInHours * 60 * 60 * 1000)%Q in
    TimeClip (inject_Z now + durationInMs).

(** *** The event emitter [Utils.events] *)
Module events.

(** What a callback does to the emitter while it runs: the calls to
    [on] and [off] it makes, in order, possibly ended by a throw. A
    callback that emits in turn, or that calls back into the page (the
    manager, the Transport), is not described: of such a callback only
    what it does to the emitter is. A callback is a function object: [id]
    is its identity (what [indexOf] compares), [body] its code applied to
    the emitted data. *)
Inductive action :=
| CallOn (event : string) (id : nat) (body : value → list action)
| CallOff (event : string) (id : nat)
| Throw (e : error).

Record handler := { hid : nat; body : value → list action }.

(** The [listeners] object: the arrays of callbacks it holds as its own
    properties, by event name. *)
Abbreviation registry := (gmap string (list handler)).

(** [listeners] is a plain object ([{}]): it inherits the properties
    of [Object.prototype], so for these names [this.listeners[event]] is a
    function (the prototype itself for [__proto__]) when the object has no
    property of its own under the name. *)
Definition prototypeNames : list string :=
  ["constructor"; "hasOwnProperty"; "isPrototypeOf"; "propertyIsEnumerable";
   "toLocaleString"; "toString"; "valueOf"; "__proto__";
   "__defineGetter__"; "__defineSetter__"; "__lookupGetter__";
   "__lookupSetter__"].

Definition inherited (event : string) : bool :=
  existsb (String.eqb event) prototypeNames.

(** [this.listeners[event]]: an array of the object's own, something
    inherited (truthy, and without [push], [indexOf] or [forEach]), or
    [undefined]. *)
Inductive slot :=
| Listeners (arr : list handler)
| Inherited
| Missing.

Definition read (event : string) (listeners : registry) : slot :=
  match listeners !! event with
  | Some arr => Listeners arr
  | None => if inherited event then Inherited else Missing
  end.

(** [on(event, callback)]: calling the [push] an inherited value does
    not have throws a TypeError. *)
Definition on (event : string) (callback : handler) (listeners : registry)
  : registry * completion :=
  match read event listeners with
  | Listeners arr => (<[event := arr ++ [callback]]> listeners, Normal)
  | Missing => (<[event := [callback]]> listeners, Normal)
  | Inherited => (listeners, Thrown (TypeError "push"))
  end.

(** [Array.prototype.indexOf] on function identities. *)
Definition indexOf (id : nat) (arr : list handler) : option nat :=
  fst <$> list_find (λ h, hid h = id) arr.

Definition off (event : string) (id : nat) (listeners : registry)
  : registry * completion :=
  match read event listeners with
  | Missing => (listeners, Normal)
  | Inherited => (listeners, Thrown (TypeError "indexOf"))
  | Listeners arr =>
      match indexOf id arr with
      | Some index => (<[event := delete index arr]> listeners, Normal)
      | None => (listeners, Normal)
      end
  end.

Fixpoint run_actions (acts : list action) (listeners : registry)
  : registry * completion :=
  match acts with
  | [] => (listeners, Normal)
  | CallOn event id b :: rest =>
      match on event {| hid := id; body := b |} listeners with
      | (listeners', Normal) => run_actions rest listeners'
      | (listeners', Thrown e) => (listeners', Thrown e)
      end
  | CallOff event id :: rest =>
      match off event id listeners with
      | (listeners', Normal) => run_actions rest listeners'
      | (listeners', Thrown e) => (listeners', Thrown e)
      end
  | Throw e :: _ => (listeners, Thrown e)
  end.

(** [Array.prototype.forEach]: the length is read once, before the first
    call; index [k] is visited when the array still has it, and the
    array is the live one, which [push] and [splice] change in place.
    [n] counts the indices left, [calls] the callbacks invoked so far. *)
Fixpoint forEach (n k : nat) (event : string) (data : value)
    (listeners : registry) (calls : list nat)
  : registry * list nat * completion :=
  match n with
  | O => (listeners, calls, Normal)
  | S n' =>
      match default [] (listeners !! event) !! k with
      | None => forEach n' (S k) event data listeners calls
      | Some callback =>
          match run_actions (body callback data) listeners with
          | (listeners', Normal) =>
              forEach n' (S k) event data listeners' (calls ++ [hid callback])
          | (listeners', Thrown e) =>
              (listeners', calls ++ [hid callback], Thrown e)
          end
      end
  end.

(** [emit(event, data)] *)
Definition emit (event : string) (data : value) (listeners : registry)
  : registry * list nat * completion :=
  match read event listeners with
  | Missing => (listeners, [], Normal)
  | Inherited => (listeners, [], Thrown (TypeError "forEach"))
  | Listeners arr => forEach (length arr) 0 event data listeners []
  end.

End events.

End Utils.

(** ** Route suggestions: the generated route objects *)

(** What [+] gives: a number, or a text when its left operand is one. *)
Inductive coord :=
| Number (n : number)
| Text (s : string).

Record point := { lat : coord; lng : coord }.

Record route := {
  id : string;
  name : string;
  distance : Z;
  duration : Z;
  congestion : Q;
  status : string;
  eta : option Z;
  polyline : list point;
  incidents : list string;
  tollCost : value
}.

(** The comparator [(a, b) => a.duration - b.duration]. *)
Definition byDuration (a b : route) : Z := duration a - duration b.

(** [Math.random()]: the stream of draws and how many were taken. *)
Record rng := { draws : nat → Q; taken : nat }.

Definition Math_random : M rng Q := λ r,
  (Resolved (draws r (taken r)), {| draws := draws r; taken := S (taken r) |}).

(** [x.toFixed(2)] *)
Definition toFixed2 (x : Q) : string :=
  let cents := Math_round (x * 100)%Q in
  let frac := cents `mod` 100 in
  pretty (cents `div` 100) +:+ "." +:+
  (if frac <? 10 then "0" else "") +:+ pretty frac.

(** ** DataManager (part_002) *)

Module DataManager.
Import Utils.events.

(** The fields the cache methods read and write: [this.cache] and
    [this.cacheTimeout]. *)
Record state := { cache : gmap string entry; cacheTimeout : Z }.

(** [constructor]: an empty [Map] and a timeout of 5 minutes. *)
Definition constructor : state :=
  {| cache := ∅; cacheTimeout := 5 * 60 * 1000 |}.

(** [getFromCache(key, ignoreTimeout = false)], with [now] the value of
    [Date.now()]. Returns the data ([null] when there is none) and the
    manager afterwards: an entry found expired is deleted from the map. *)
Definition getFromCache (now : Z) (key : string) (ignoreTimeout : bool)
    (this : state) : value * state :=
  match cache this !! key with
  | None => (VNull, this)
  | Some cached =>
      if negb ignoreTimeout && (cacheTimeout this <? now - timestamp cached)
      then (VNull, {| cache := delete key (cache this);
                      cacheTimeout := cacheTimeout this |})
      else (data cached, this)
  end.

(** [cleanupCache()]: deletes every entry older than twice the timeout. *)
Definition cleanupCache (now : Z) (this : state) : state :=
  {| cache := filter (λ kv, ¬ (cacheTimeout this * 2 < now - timestamp kv.2))
                     (cache this);
     cacheTimeout := cacheTimeout this |}.

(** [setCache(key, data)]: [now] is the [Date.now()] of the new entry,
    [now'] the one read by [cleanupCache]. *)
Definition setCache (now now' : Z) (key : string) (d : value) (this : state)
  : state :=
  cleanupCache now'
    {| cache := <[key := {| data := d; timestamp := now |}]> (cache this);
       cacheTimeout := cacheTimeout this |}.

(** The settings object of the [settingsChanged] event: the settings UI
    emits [{ refreshInterval: parseInt(option value) }], an integer;
    [None] is a settings object without the property. *)
Record settings := { refreshInterval : option Z }.

Definition handleSettingsChange (s : settings) (this : state) : state :=
  match refreshInterval s with
  | Some interval =>
      {| cache := cache this; cacheTimeout := Z.max interval 30000 |}
  | None => this
  end.

(** [sendMessageToBackground]: how the callback of
    [chrome.runtime.sendMessage] settles the promise, given what the
    runtime hands to it: [lastError] is the message of
    [chrome.runtime.lastError] when that is set, [response] the callback's
    argument. [None]: [new Error] throws in the callback, for a
    [response.error] that cannot be converted to a text, and the promise is
    never settled. *)
Definition sendMessageToBackground `{Builtins} (lastError : option string)
    (response : value) : option (promise value) :=
  match lastError with
  | Some message => Some (Rejected (Error message))
  | None =>
      if truthy response && truthy (get_prop response "success")
      then Some (Resolved (get_prop response "data"))
      else
        let message := or_else (opt_chain response "error")
                               (VStr "Unknown error") in
        if convertible message then Some (Rejected (Error (ToString message)))
        else None
  end.

(** *** Fallback payloads *)

Definition generateFallbackTrafficData (now : Z) : value :=
  VObj [("points", VArr []);
        ("summary", VObj [("averageCongestion", VNum 0.5);
                          ("averageSpeed", VNum 45);
                          ("totalPoints", VNum 0);
                          ("lastUpdated", VNum (inject_Z now));
                          ("error", VStr "Unable to fetch real-time data")])].

Definition generateFallbackRoutes (now : Z) : value :=
  VArr [VObj [("id", VStr "fallback_route");
              ("name", VStr "Default Route");
              ("distance", VNum 20000);
              ("duration", VNum 30);
              ("congestion", VNum 0.5);
              ("status", VStr "moderate");
              ("eta", VDate (now + 30 * 60000));
              ("polyline", VArr []);
              ("incidents", VArr []);
              ("error", VStr "Unable to calculate optimal routes")]].

Definition generateFallbackAnalytics : value :=
  VObj [("speedTrends", VArr []);
        ("delayPatterns", VArr []);
        ("congestionLevels", VArr []);
        ("summary", VObj [("averageSpeed", VNum 45);
                          ("averageDelay", VNum 5);
                          ("peakCongestion", VNum 0.7);
                          ("error", VStr "Unable to fetch analytics data")])].

(** *** The manager in its page *)

Inductive kind := Traffic | Routes | Analytics.

Record message := { type : string; params : value }.

(** A call of the Transport: a message to the background script or one
    of the [fetch...Direct] methods. *)
Inductive transport_call :=
| Message (m : message)
| Direct (k : kind) (p : value).

(** The page: the manager, the listeners of [Utils.events], the clock
    [Date.now()] reads and the Transport calls issued so far. *)
Record world := {
  this : state;
  listeners : registry;
  clock : Z;
  transport_calls : list transport_call
}.

Definition with_this (s : state) (w : world) : world :=
  {| this := s; listeners := listeners w; clock := clock w;
     transport_calls := transport_calls w |}.

Definition with_listeners (l : registry) (w : world) : world :=
  {| this := this w; listeners := l; clock := clock w;
     transport_calls := transport_calls w |}.

(** [clearCache()]: empties the map, then emits [cacheCleared]. *)
Definition clearCache : M world unit := λ w,
  let w' := with_this {| cache := ∅; cacheTimeout := cacheTimeout (this w) |} w in
  match emit "cacheCleared" VUndefined (listeners w') with
  | (l, _, Normal) => (Resolved tt, with_listeners l w')
  | (l, _, Thrown e) => (Rejected e, with_listeners l w')
  end.

(** What the rest of the page may do between two steps of an [async]
    method, that is while the method is suspended at its [await]: time
    passes, and other code calls the manager and the emitter. *)
Inductive task :=
| Elapse (ms : N)
| GetFromCache (key : string) (ignoreTimeout : bool)
| SetCache (key : string) (d : value)
| CleanupCache
| ClearCache
| SettingsChange (s : settings)
| On (event : string) (callback : handler)
| Off (event : string) (id : nat)
| Emit (event : string) (d : value).

Definition run_task (t : task) (w : world) : world :=
  match t with
  | Elapse ms =>
      {| this := this w; listeners := listeners w;
         clock := clock w + Z.of_N ms; transport_calls := transport_calls w |}
  | GetFromCache key ignoreTimeout =>
      with_this (getFromCache (clock w) key ignoreTimeout (this w)).2 w
  | SetCache key d => with_this (setCache (clock w) (clock w) key d (this w)) w
  | CleanupCache => with_this (cleanupCache (clock w) (this w)) w
  | ClearCache => (clearCache w).2
  | SettingsChange s => with_this (handleSettingsChange s (this w)) w
  | On event callback => with_listeners (on event callback (listeners w)).1 w
  | Off event id => with_listeners (off event id (listeners w)).1 w
  | Emit event d => with_listeners (emit event d (listeners w)).1.1 w
  end.

Definition run_tasks (ts : list task) (w : world) : world :=
  foldl (λ w t, run_task t w) w ts.

(** What the environment decides for one call of a coordinator method. *)
Inductive chrome_global :=
| Undeclared      (* reading [chrome] throws a ReferenceError *)
| NoRuntime       (* [chrome && chrome.runtime] is falsy *)
| Runtime.        (* [chrome.runtime] is there *)

Record env := {
  chrome : chrome_global;
  (** how the promise of [sendMessageToBackground(message)] settles
      ([sendMessageToBackground] above tells what the wrapper makes of
      the reply of the runtime; a promise that is never settled leaves
      the method suspended for ever and is not described) *)
  sendMessage : message → promise value;
  (** how the promise of [fetch...Direct(params)] settles: the mock
      generators build the payload, a real implementation would go to
      the network *)
  direct : kind → value → promise value;
  (** what runs while the method is suspended at its [await] *)
  meanwhile : list task
}.

(** [await p] *)
Definition await {A} (E : env) (p : promise A) : M world A :=
  λ w, (p, run_tasks (meanwhile E) w).

Definition Date_now : M world Z := λ w, (Resolved (clock w), w).

Definition call_getFromCache (key : string) (ignoreTimeout : bool)
  : M world value := λ w,
  let r := getFromCache (clock w) key ignoreTimeout (this w) in
  (Resolved r.1, with_this r.2 w).

Definition call_setCache (key : string) (d : value) : M world unit :=
  modify (λ w, with_this (setCache (clock w) (clock w) key d (this w)) w).

Definition call_emit (event : string) (d : value) : M world unit := λ w,
  match emit event d (listeners w) with
  | (l, _, Normal) => (Resolved tt, with_listeners l w)
  | (l, _, Thrown e) => (Rejected e, with_listeners l w)
  end.

(** [chrome && chrome.runtime] *)
Definition chrome_runtime (E : env) : M world bool :=
  match chrome E with
  | Undeclared => throw (ReferenceError "chrome")
  | NoRuntime => mret false
  | Runtime => mret true
  end.

Definition issue (c : transport_call) : M world unit :=
  modify (λ w, {| this := this w; listeners := listeners w; clock := clock w;
                  transport_calls := transport_calls w ++ [c] |}).

Definition fetchDirect (E : env) (k : kind) (p : value) : M world value :=
  issue (Direct k p);;
  await E (direct E k p).

Definition send (E : env) (m : message) : M world value :=
  issue (Message m);;
  await E (sendMessage E m).

Section Coordinator.
Context `{Builtins}.

(** The methods take whatever the caller passes as [params]:
    [getTrafficData] and [getAnalyticsData] have the default [{}] for a
    missing argument; [getRouteSuggestions] has none and destructures its
    argument before anything else, which throws a TypeError for
    [undefined] and [null], outside the [try] block; so does the template
    literal of its key for a [from], [to] or [departureTime] that cannot
    be converted to a text. *)
Definition trafficKey (params : value) : string :=
  "traffic_" +:+ JSON_stringify (or_empty params).

Definition getTrafficData (E : env) (params : value) : M world value :=
  let params := or_empty params in
  let cacheKey := "traffic_" +:+ JSON_stringify params in
  cachedData ← call_getFromCache cacheKey false;
  if truthy cachedData then mret cachedData
  else
    try_catch
      (d ← (rt ← chrome_runtime E;
            if rt : bool
            then send E {| type := "GET_TRAFFIC_DATA"; params := params |}
            else fetchDirect E Traffic params);
       call_setCache cacheKey d;;
       call_emit "dataUpdated" (VObj [("type", VStr "traffic"); ("data", d)]);;
       mret d)
      (λ error,
         stale ← call_getFromCache cacheKey true;
         if truthy stale then mret stale
         else now ← Date_now; mret (generateFallbackTrafficData now)).

Definition routesKey (params : value) : string :=
  "routes_" +:+ ToString (get_prop params "from") +:+ "_"
            +:+ ToString (get_prop params "to") +:+ "_"
            +:+ ToString (get_prop params "departureTime").

(** [from], [to] and [departureTime] can be converted to texts. *)
Definition keyed (params : value) : bool :=
  convertible (get_prop params "from")
  && convertible (get_prop params "to")
  && convertible (get_prop params "departureTime").

Definition getRouteSuggestions (E : env) (params : value) : M world value :=
  if nullish params then throw (TypeError "from")
  else if negb (keyed params) then throw (TypeError "primitive")
  else
    let cacheKey := routesKey params in
    cachedData ← call_getFromCache cacheKey false;
    if truthy cachedData then mret cachedData
    else
      try_catch
        (d ← (rt ← chrome_runtime E;
              if rt : bool
              then send E {| type := "GET_ROUTE_SUGGESTIONS"; params := params |}
              else fetchDirect E Routes params);
         call_setCache cacheKey d;;
         call_emit "dataUpdated" (VObj [("type", VStr "routes"); ("data", d)]);;
         mret d)
        (λ error,
           stale ← call_getFromCache cacheKey true;
           if truthy stale then mret stale
           else now ← Date_now; mret (generateFallbackRoutes now)).

Definition analyticsKey (params : value) : string :=
  "analytics_" +:+ JSON_stringify (or_empty params).

Definition getAnalyticsData (E : env) (params : value) : M world value :=
  let params := or_empty params in
  let cacheKey := "analytics_" +:+ JSON_stringify params in
  cachedData ← call_getFromCache cacheKey false;
  if truthy cachedData then mret cachedData
  else
    try_catch
      (d ← fetchDirect E Analytics params;
       call_setCache cacheKey d;;
       call_emit "dataUpdated" (VObj [("type", VStr "analytics"); ("data", d)]);;
       mret d)
      (λ error,
         stale ← call_getFromCache cacheKey true;
         if truthy stale then mret stale
         else mret generateFallbackAnalytics).

(** The spec's [fetch(kind, params)] and its cache key. *)
Definition fetch (E : env) (k : kind) (p : value) : M world value :=
  match k with
  | Traffic => getTrafficData E p
  | Routes => getRouteSuggestions E p
  | Analytics => getAnalyticsData E p
  end.

Definition keyOf (k : kind) (p : value) : string :=
  match k with
  | Traffic => trafficKey p
  | Routes => routesKey p
  | Analytics => analyticsKey p
  end.

(** A call that gets past the reading of its parameters and the
    making of its key: any call for traffic or analytics, a call for
    routes whose [params] is neither [undefined] nor [null] and holds a
    [from], a [to] and a [departureTime] that can be converted to
    texts. *)
Definition accepts (k : kind) (p : value) : bool :=
  match k with
  | Routes => negb (nullish p) && keyed p
  | Traffic | Analytics => true
  end.

(** The fixed fallback payload of a kind, built at time [now]. *)
Definition fallback (k : kind) (now : Z) : value :=
  match k with
  | Traffic => generateFallbackTrafficData now
  | Routes => generateFallbackRoutes now
  | Analytics => generateFallbackAnalytics
  end.

End Coordinator.

(** The page from the outside: tasks and coordinator calls, one after
    the other, starting from a freshly constructed manager. *)
Inductive operation :=
| Task (t : task)
| Fetch (E : env) (k : kind) (p : value).

Definition run_operation `{Builtins} (o : operation) (w : world) : world :=
  match o with
  | Task t => run_task t w
  | Fetch E k p => (fetch E k p w).2
  end.

(** [setupEventListeners()]: the manager subscribes an anonymous
    function to [settingsChanged]. What that function does to the manager
    is the task [SettingsChange]; to the emitter it does nothing. *)
Definition setupEventListeners (l : registry) : registry :=
  (on "settingsChanged" {| hid := 0; body := λ _, [] |} l).1.

Definition run_operations `{Builtins} (os : list operation) (w : world) : world :=
  foldl (λ w o, run_operation o w) w os.

Definition initial (now : Z) : world :=
  {| this := constructor; listeners := setupEventListeners ∅; clock := now;
     transport_calls := [] |}.

(** *** Mock route suggestions *)

(** The body of the loop of [generateMockPolyline]. *)
Definition polylinePoint : M rng point :=
  a ← Math_random;
  b ← Math_random;
  mret {| lat := Number (Some (40.7128 + (a - 0.5) * 0.1)%Q);
          lng := Number (Some (-74.0060 + (b - 0.5) * 0.1)%Q) |}.

(** [DataManager.generateMockPolyline()]: [steps + 1 = 21] points. *)
Definition generateMockPolyline : M rng (list point) :=
  for_push (λ _, polylinePoint) 0 21.

Definition routeNames : list string :=
  ["Via Highway"; "Scenic Route"; "Fastest Route"].

(** The body of the loop of [generateMockRoutes]: the route pushed at
    index [i], [now i] being the reading of [Date.now()] by its
    [calculateETA]. *)
Definition mockRoute (now : nat → Z) (i : nat) : M rng route :=
  r1 ← Math_random;
  r2 ← Math_random;
  r3 ← Math_random;
  let baseDistance := (15000 + r1 * 10000)%Q in
  let baseDuration := (20 + r2 * 20)%Q in
  let congestionFactor := (0.2 + r3 * 0.8)%Q in
  line ← generateMockPolyline;
  r4 ← Math_random;
  r5 ← Math_random;
  toll ← (if Qlt_le_dec r5 0.4
          then r6 ← Math_random; mret (VStr (toFixed2 (5 + r6 * 15)%Q))
          else mret VNull);
  mret {| id := "route_" +:+ pretty i;
          name := default "" (routeNames !! i);
          distance := Math_round baseDistance;
          duration := Math_round (baseDuration * (1 + congestionFactor * 0.5))%Q;
          congestion := congestionFactor;
          status := Utils.getTrafficColor congestionFactor;
          eta := Utils.calculateETA (now i) baseDistance
                   ((1 - congestionFactor) * 60 + 20)%Q;
          polyline := line;
          incidents := if Qlt_le_dec r4 0.3 then ["Construction ahead"] else [];
          tollCost := toll |}.

(** [DataManager.generateMockRoutes(params)] *)
Definition generateMockRoutes (now : nat → Z) : M rng (list route) :=
  routes ← for_push (mockRoute now) 0 3;
  mret (sort byDuration routes).

End DataManager.

(** ** TrafficAnalyzerBackground (script.js) *)

Module TrafficAnalyzerBackground.

(** The worker: [this.dataCache], the clock, and how many times
    [fetchTrafficData] was called. *)
Record world := {
  dataCache : gmap string entry;
  clock : Z;
  fetches : nat
}.

(** What else runs in the worker while [getTrafficData] is suspended. *)
Inductive task :=
| Elapse (ms : N)
| Store (key : string) (d : value)
| CleanupCache
| RefreshAllData.

(** [cleanupCache()]: entries older than 30 minutes go. *)
Definition cleanupCache (now : Z) (c : gmap string entry) : gmap string entry :=
  let maxAge := 30 * 60 * 1000 in
  filter (λ kv, ¬ (maxAge < now - timestamp kv.2)) c.

Definition run_task (t : task) (w : world) : world :=
  match t with
  | Elapse ms =>
      {| dataCache := dataCache w; clock := clock w + Z.of_N ms;
         fetches := fetches w |}
  | Store key d =>
      {| dataCache := <[key := {| data := d; timestamp := clock w |}]> (dataCache w);
         clock := clock w; fetches := fetches w |}
  | CleanupCache =>
      {| dataCache := cleanupCache (clock w) (dataCache w); clock := clock w;
         fetches := fetches w |}
  | RefreshAllData =>
      {| dataCache := ∅; clock := clock w; fetches := fetches w |}
  end.

Record env := {
  (** how the promise of [fetchTrafficData(params)] settles *)
  fetched : promise value;
  (** the payload [generateMockTrafficData(params)] builds *)
  mock : value;
  meanwhile : list task
}.

Definition fetchTrafficData (E : env) : M world value := λ w,
  (fetched E,
   foldl (λ w t, run_task t w)
     {| dataCache := dataCache w; clock := clock w; fetches := S (fetches w) |}
     (meanwhile E)).

Section Worker.
Context `{Builtins}.

(** [getTrafficData(params = {})]; [cached] is what [Map.get] returned
    before the first [await], and the [catch] still holds it. *)
Definition getTrafficData (E : env) (params : value) : M world value :=
  let params := or_empty params in
  let cacheKey := "traffic_" +:+ JSON_stringify params in
  w ← get_state;
  let cached := dataCache w !! cacheKey in
  let refetch : M world value :=
    try_catch
      (d ← fetchTrafficData E;
       modify (λ w, {| dataCache := <[cacheKey := {| data := d; timestamp := clock w |}]>
                                      (dataCache w);
                       clock := clock w; fetches := fetches w |});;
       mret d)
      (λ error,
         mret (match cached with Some c => data c | None => mock E end)) in
  match cached with
  | Some c => if clock w - timestamp c <? 300000 then mret (data c) else refetch
  | None => refetch
  end.

(** [from.lat], [to.lng], ...: reading a property of [undefined] or
    [null] throws. *)
Definition coordinate (v : value) (prop : string) : M rng value :=
  if nullish v then throw (TypeError prop) else mret (get_prop v prop).

(** [a - b]: both operands are converted to numbers, which throws
    for one that cannot be converted. *)
Definition minus (a b : value) : M rng number :=
  if convertible a && convertible b
  then mret (num_sub (ToNumber a) (ToNumber b))
  else throw (TypeError "primitive").

(** [a + n] for a number [n]: a text on the left, or a date, an
    array or an object, which convert to texts, gives the concatenation
    of the two texts; anything else is converted to a number. *)
Definition plus (a : value) (n : number) : M rng coord :=
  if convertible a
  then mret match a with
            | VStr _ | VDate _ | VArr _ | VObj _ =>
                Text (ToString a +:+ NumberToString n)
            | VUndefined | VNull | VBool _ | VNum _ =>
                Number (num_add (ToNumber a) n)
            end
  else throw (TypeError "primitive").

(** [c + n] for what a first [+] gave. *)
Definition plus_offset (c : coord) (n : number) : coord :=
  match c with
  | Number x => Number (num_add x n)
  | Text s => Text (s +:+ NumberToString n)
  end.

(** The body of the loop of [generateMockPolyline(from, to)] at step
    [i]; the operands are read from left to right. *)
Definition polylinePoint (from to : value) (i : nat) : M rng point :=
  let progress := Some (inject_Z (Z.of_nat i) / 20)%Q in
  flat ← coordinate from "lat";
  tlat ← coordinate to "lat";
  flat' ← coordinate from "lat";
  dlat ← minus tlat flat';
  la ← plus flat (num_mul dlat progress);
  flng ← coordinate from "lng";
  tlng ← coordinate to "lng";
  flng' ← coordinate from "lng";
  dlng ← minus tlng flng';
  ln ← plus flng (num_mul dlng progress);
  a ← Math_random;
  b ← Math_random;
  let offsetLat := Some ((a - 0.5) * 0.01)%Q in
  let offsetLng := Some ((b - 0.5) * 0.01)%Q in
  mret {| lat := plus_offset la offsetLat; lng := plus_offset ln offsetLng |}.

(** [generateMockPolyline(from, to)] *)
Definition generateMockPolyline (from to : value) : M rng (list point) :=
  for_push (polylinePoint from to) 0 21.

(** The body of the loop of [getRouteSuggestions]; [now i] is the
    reading of [Date.now()] for the route of index [i]. *)
Definition suggestedRoute (now : nat → Z) (from to : value) (i : nat)
  : M rng route :=
  r1 ← Math_random;
  r2 ← Math_random;
  r3 ← Math_random;
  let baseDistance := (15000 + r1 * 10000)%Q in
  let baseDuration := (20 + r2 * 20)%Q in
  let congestionFactor := (0.3 + r3 * 0.7)%Q in
  line ← generateMockPolyline from to;
  r4 ← Math_random;
  mret {| id := "route_" +:+ pretty i;
          name := "Route " +:+ pretty (i + 1)%nat;
          distance := Math_round baseDistance;
          duration := Math_round (baseDuration * (1 + congestionFactor * 0.5))%Q;
          congestion := congestionFactor;
          status := if Qle_bool congestionFactor 0.4 then "optimal"
                    else if Qle_bool congestionFactor 0.7 then "moderate"
                    else "congested";
          eta := TimeClip
                   (inject_Z (now i) +
                    baseDuration * (1 + congestionFactor * 0.5) * 60000);
          polyline := line;
          incidents := if Qlt_le_dec r4 0.3 then ["Minor traffic incident"] else [];
          tollCost := VUndefined |}.

(** [getRouteSuggestions(params)]: the destructuring of [params]
    throws for [undefined] and [null]; [from] and [to] are its two
    properties. *)
Definition getRouteSuggestions (now : nat → Z) (params : value)
  : M rng (list route) :=
  if nullish params then throw (TypeError "from")
  else
    let from := get_prop params "from" in
    let to := get_prop params "to" in
    routes ← for_push (suggestedRoute now from to) 0 3;
    mret (sort byDuration routes).

End Worker.

End TrafficAnalyzerBackground.

(** ** The persisted visit lists (src/content.js, src/background.js) *)

Module Storage.

(** [getCurrentPageData()] and the background's [tabData]. *)
Record pageData := {
  url : string; domain : string; title : string; timestamp : Z
}.

Record tabData := { tab_url : string; tab_title : string; tab_timestamp : Z }.

(** [chrome.storage.local]: the two keys written by this code; [None] is
    a key never stored. *)
Record local := {
  visitedSites : option (list pageData);
  recentTabs : option (list tabData)
}.

(** The callback of [storePageData]: [unshift], then [splice(10)] when
    more than 10 are left, then [set]. *)
Definition storePageData (page : pageData) (store : local) : local :=
  let sites := default [] (visitedSites store) in
  let sites := page :: sites in
  let sites := if (10 <? length sites)%nat then take 10 sites else sites in
  {| visitedSites := Some sites; recentTabs := recentTabs store |}.

(** The storage callback of the [chrome.tabs.onUpdated] listener:
    [unshift], then [splice(20)] when more than 20 are left, then [set]. *)
Definition storeTabData (tab : tabData) (store : local) : local :=
  let tabs := default [] (recentTabs store) in
  let tabs := tab :: tabs in
  let tabs := if (20 <? length tabs)%nat then take 20 tabs else tabs in
  {| visitedSites := visitedSites store; recentTabs := Some tabs |}.

(** The listener itself: [status] is [changeInfo.status], [tab_url_now]
    the url of the tab, both possibly missing. *)
Definition onUpdated (status : option string) (tab_url_now : option string)
    (tab_title_now : string) (now : Z) (store : local) : local :=
  match tab_url_now with
  | Some u =>
      if bool_decide (status = Some "complete") && negb (String.eqb u "")
      then storeTabData {| tab_url := u; tab_title := tab_title_now;
                           tab_timestamp := now |} store
      else store
  | None => store
  end.

End Storage.

(** ** Utils, further functions (part_003) *)

Module UtilsMore.

(** [a < b] on numbers; a comparison with [undefined] or NaN is false. *)
Definition num_lt (a b : number) : bool :=
  match a, b with
  | Some x, Some y => negb (Qle_bool y x)
  | _, _ => false
  end.

(** The table [trafficPatterns] of [getOptimalDepartureTime], indexed by
    the hour. *)
Definition trafficPatterns : list Q :=
  [0.1; 0.1; 0.1; 0.1; 0.1; 0.2; 0.4; 0.8; 0.9; 0.7; 0.5; 0.6;
   0.7; 0.6; 0.5; 0.6; 0.7; 0.9; 0.8; 0.6; 0.4; 0.3; 0.2; 0.1]%Q.

(** [trafficPatterns[hour]] *)
Definition pattern (hour : Z) : number :=
  if hour <? 0 then None else trafficPatterns !! Z.to_nat hour.

(** Dates are counted in milliseconds of local time, in a zone whose
    offset does not change: [getHours], [setHours(h, 0, 0, 0)] and
    [setDate(getDate() + 1)]. *)
Definition getHours (t : Z) : Z := (t `div` 3600000) `mod` 24.

Definition setHours (t hour : Z) : Z := t `div` 86400000 * 86400000 + hour * 3600000.

Definition nextDay (t : Z) : Z := t + 86400000.

(** The loop of [getOptimalDepartureTime]: the best of the current
    hour and the four that follow, the earliest one on a tie. *)
Definition optimalHour (currentHour : Z) : Z :=
  (foldl (λ best i,
            let hour := (currentHour + i) `mod` 24 in
            if num_lt (pattern hour) best.2 then (hour, pattern hour) else best)
         (currentHour, pattern currentHour) [1; 2; 3; 4]).1.

(** [Utils.getOptimalDepartureTime(routeData)]; [now] and [later] are
    the two readings of the clock, [const now = new Date()] and
    [const optimalTime = new Date()]. *)
Definition getOptimalDepartureTime (now later : Z) : Z :=
  let currentHour := getHours now in
  let optimalTime := setHours later (optimalHour currentHour) in
  if optimalTime <=? now then nextDay optimalTime else optimalTime.

(** [a % b] on numbers: the remainder has the sign of [a]. *)
Definition remainder (a b : Q) : Q := (a - b * inject_Z (truncate (a / b)))%Q.

(** [Utils.formatDuration(minutes)], for a number that is not NaN.
    The quotient and the remainder are the exact ones: the code's doubles
    give the same hours and minutes for durations up to 2^53 minutes;
    beyond, the quotient is rounded before [Math.floor] sees it. *)
Definition formatDuration (minutes : Q) : string :=
  if negb (Qle_bool 60 minutes) then pretty (Math_round minutes) +:+ " min"
  else
    let hours := Qfloor (minutes / 60) in
    let mins := Math_round (remainder minutes 60) in
    pretty hours +:+ "h " +:+ pretty mins +:+ "min".

(** *** [Utils.storage]: JSON values in [localStorage] *)

(** [JSON.parse] ([None] when it throws) and [JSON.stringify]. *)
Class JSON := {
  JSON_parse : string → option value;
  JSON_text : value → string
}.

Section Storage.
Context `{JSON}.

(** [storage.get(key, defaultValue = null)]; the [catch] returns the
    default as well. *)
Definition get (key : string) (defaultValue : value) (localStorage : gmap string string)
  : value :=
  match localStorage !! key with
  | None => defaultValue
  | Some item =>
      if String.eqb item "" then defaultValue
      else default defaultValue (JSON_parse item)
  end.

(** [storage.set(key, value)]; [full] tells whether [setItem] throws
    (the quota is exceeded). Returns what the method returns and the
    storage afterwards. *)
Definition set (full : bool) (key : string) (v : value)
    (localStorage : gmap string string) : bool * gmap string string :=
  if full then (false, localStorage)
  else (true, <[key := JSON_text v]> localStorage).

(** [storage.remove(key)] *)
Definition remove (key : string) (localStorage : gmap string string)
  : bool * gmap string string :=
  (true, delete key localStorage).

End Storage.

End UtilsMore.

(** ** The content script, continued (src/content.js) *)

Module ContentScript.
Import Storage.

(** The script's variable [currentUrl] and the local storage. *)
Record state := { currentUrl : string; store : local }.

(** The script at load: [currentUrl] is the location, and the visit is
    stored; [page] is [getCurrentPageData()]. *)
Definition load (page : pageData) (s : local) : state :=
  {| currentUrl := url page; store := storePageData page s |}.

(** [checkUrlChange()], run every second; [page] is what
    [getCurrentPageData()] would return now. *)
Definition checkUrlChange (page : pageData) (st : state) : state :=
  if String.eqb (currentUrl st) (url page) then st
  else {| currentUrl := url page; store := storePageData page (store st) |}.

(** The [popstate] listener is [storePageData] itself: it does not
    touch [currentUrl]. *)
Definition popstate (page : pageData) (st : state) : state :=
  {| currentUrl := currentUrl st; store := storePageData page (store st) |}.

(** [storePageData] in its two steps: the call asks the storage for
    [visitedSites] and the callback runs when the answer is there;
    [result] is the storage as it was read and [s] the storage at the time
    of the callback's [set]. *)
Definition callback (page : pageData) (result s : local) : local :=
  let sites := default [] (visitedSites result) in
  let sites := page :: sites in
  let sites := if (10 <? length sites)%nat then take 10 sites else sites in
  {| visitedSites := Some sites; recentTabs := recentTabs s |}.

End ContentScript.

(** ** Pinned routes of the background service (script.js) *)

Module PinnedRoutes.

(** A pinned route as stored: [id] and [addedAt], written by the
    service, and the properties spread from the route the popup sent. *)
Record pinned := { id : string; addedAt : Z; rest : object }.

(** [addPinnedRoute(route)]: [stored] is [data.pinnedRoutes]; [now] and
    [later] are the two readings of [Date.now()]. The route's own [id] and
    [addedAt] are overwritten. *)
Definition addPinnedRoute (now later : Z) (route : object)
    (stored : option (list pinned)) : list pinned :=
  default [] stored ++
  [{| id := pretty now; addedAt := later;
      rest := filter (λ kv, kv.1 ≠ "id" ∧ kv.1 ≠ "addedAt") route |}].

(** [route.id !== routeId] for a stored id, which is a string. *)
Definition differs (stored_id : string) (routeId : value) : bool :=
  match routeId with
  | VStr s => negb (String.eqb stored_id s)
  | _ => true
  end.

(** [removePinnedRoute(routeId)] *)
Definition removePinnedRoute (routeId : value) (stored : option (list pinned))
  : list pinned :=
  filter (λ route, differs (id route) routeId = true) (default [] stored).

End PinnedRoutes.

(** ** The mock payloads of the manager and of the worker *)

Module MockData.

(** [Math.max(a, b)] and [Math.min(a, b)] on numbers that are not NaN. *)
Definition max2 (a b : Q) : Q := if Qle_bool a b then b else a.

Definition min2 (a b : Q) : Q := if Qle_bool a b then a else b.

(** [Math.max(0, Math.min(1, x))] *)
Definition clamp01 (x : Q) : Q := max2 0 (min2 1 x).

(** The time-of-day table of both [generateMockTrafficData]: the four
    tests in the order of the source, the later one winning. *)
Definition baseCongestion (hour : Z) : Q :=
  let base := 0.3%Q in
  let base := if (7 <=? hour) && (hour <=? 9) then 0.8%Q else base in
  let base := if (17 <=? hour) && (hour <=? 19) then 0.9%Q else base in
  let base := if (12 <=? hour) && (hour <=? 14) then 0.6%Q else base in
  let base := if (22 <=? hour) || (hour <=? 5) then 0.1%Q else base in
  base.

(** A traffic point; [roadType] is missing from the worker's points and
    is [undefined] when the index computed for it is out of range. *)
Record trafficPoint := {
  id : string;
  lat : Q;
  lng : Q;
  congestion : Q;
  speed : Z;
  timestamp : Z;
  roadType : option string
}.

Record trafficSummary := {
  averageCongestion : Q;
  averageSpeed : Z;
  totalPoints : nat;
  lastUpdated : Z;
  region : option string
}.

Record trafficData := { points : list trafficPoint; summary : trafficSummary }.

(** [['highway', 'arterial', 'local'][Math.floor(r * 3)]] *)
Definition pickRoadType (r : Q) : option string :=
  let index := Qfloor (r * 3) in
  if index <? 0 then None
  else ["highway"; "arterial"; "local"] !! Z.to_nat index.

(** The body of the loop of [DataManager.generateMockTrafficData];
    [now i] is the reading of [Date.now()] for the point of index [i]. *)
Definition managerPoint (base : Q) (now : nat → Z) (i : nat) : M rng trafficPoint :=
  r1 ← Math_random;
  let c := clamp01 (base + (r1 - 0.5) * 0.4) in
  r2 ← Math_random;
  r3 ← Math_random;
  r4 ← Math_random;
  mret {| id := "point_" +:+ pretty i;
          lat := (40.7128 + (r2 - 0.5) * 0.2)%Q;
          lng := (-74.0060 + (r3 - 0.5) * 0.2)%Q;
          congestion := c;
          speed := Math_round ((1 - c) * 80 + 20);
          timestamp := now i;
          roadType := pickRoadType r4 |}.

(** [DataManager.generateMockTrafficData(params)]; [currentHour] is
    [new Date().getHours()], [now] gives the readings of [Date.now()], the
    last one for the summary. *)
Definition managerTrafficData (currentHour : Z) (now : nat → Z) : M rng trafficData :=
  let base := baseCongestion currentHour in
  pts ← for_push (managerPoint base now) 0 50;
  mret {| points := pts;
          summary := {| averageCongestion := base;
                        averageSpeed := Math_round ((1 - base) * 80 + 20);
                        totalPoints := length pts;
                        lastUpdated := now 50%nat;
                        region := Some "New York City" |} |}.

(** The body of the loop of
    [TrafficAnalyzerBackground.generateMockTrafficData]. *)
Definition workerPoint (base : Q) (now : nat → Z) (i : nat) : M rng trafficPoint :=
  r1 ← Math_random;
  let c := clamp01 (base + (r1 - 0.5) * 0.4) in
  r2 ← Math_random;
  r3 ← Math_random;
  mret {| id := "point_" +:+ pretty i;
          lat := (40.7128 + (r2 - 0.5) * 0.1)%Q;
          lng := (-74.0060 + (r3 - 0.5) * 0.1)%Q;
          congestion := c;
          speed := Math_round ((1 - c) * 80 + 20);
          timestamp := now i;
          roadType := None |}.

(** [TrafficAnalyzerBackground.generateMockTrafficData(params)] *)
Definition workerTrafficData (hour : Z) (now : nat → Z) : M rng trafficData :=
  let base := baseCongestion hour in
  pts ← for_push (workerPoint base now) 0 50;
  mret {| points := pts;
          summary := {| averageCongestion := base;
                        averageSpeed := Math_round ((1 - base) * 80 + 20);
                        totalPoints := length pts;
                        lastUpdated := now 50%nat;
                        region := None |} |}.

End MockData.

(** ** [DataManager.generateMockAnalytics] *)

Module MockAnalytics.
Import MockData.

(** A sample [{ timestamp, value }]. *)
Record sample := { timestamp : Z; sample_value : Q }.

Record analyticsSummary := {
  averageSpeed : Q;
  averageDelay : Q;
  peakCongestion : option Q;
  period : value
}.

Record analytics := {
  speedTrends : list sample;
  delayPatterns : list sample;
  congestionLevels : list sample;
  summary : analyticsSummary
}.

(** [params.period || '24h'] and the number of data points. *)
Definition periodOf (params : object) : value :=
  or_else (lookup_field "period" params) (VStr "24h").

Definition dataPointsOf (p : value) : nat :=
  match p with
  | VStr "1h" => 60
  | VStr "6h" => 72
  | _ => 144
  end.

(** The congestion base at a time of day given in hours. *)
Definition analyticsBase (timeOfDay : Q) : Q :=
  let base := 0.3%Q in
  let base := if Qle_bool 7 timeOfDay && Qle_bool timeOfDay 9 then 0.8%Q else base in
  let base := if Qle_bool 17 timeOfDay && Qle_bool timeOfDay 19 then 0.9%Q else base in
  base.

(** One turn of the loop: the three samples pushed at index [i]. The
    turn reads [Date.now()] four times, [now (4 * i)] to
    [now (4 * i + 3)]. *)
Definition analyticsStep (now : nat → Z) (dataPoints : nat) (i : nat)
  : M rng (sample * sample * sample) :=
  let stamp (reading : nat) :=
    now (4 * i + reading)%nat - (Z.of_nat dataPoints - Z.of_nat i) * 60000 in
  let hour := (inject_Z (stamp 0%nat) / 1000 / 3600)%Q in
  let timeOfDay := UtilsMore.remainder hour 24 in
  let base := analyticsBase timeOfDay in
  r1 ← Math_random;
  let c := (base + (r1 - 0.5) * 0.2)%Q in
  r2 ← Math_random;
  let s := ((1 - c) * 60 + 20 + (r2 - 0.5) * 10)%Q in
  r3 ← Math_random;
  let d := (c * 30 + (r3 - 0.5) * 10)%Q in
  mret ({| timestamp := stamp 1%nat;
           sample_value := inject_Z (Z.max 10 (Math_round s)) |},
        {| timestamp := stamp 2%nat;
           sample_value := inject_Z (Z.max 0 (Math_round d)) |},
        {| timestamp := stamp 3%nat; sample_value := clamp01 c |}).

(** [data.reduce((sum, d) => sum + d.value, 0) / data.length]; the
    quotient by an empty list's length is NaN. *)
Definition average (l : list sample) : Q :=
  (foldl (λ sum d, sum + sample_value d) 0 l / inject_Z (Z.of_nat (length l)))%Q.

(** [Math.max(...values)]; [None] is the [-Infinity] of no argument. *)
Definition Math_max (l : list Q) : option Q :=
  foldl (λ m x, match m with None => Some x | Some y => Some (max2 y x) end) None l.

(** [DataManager.generateMockAnalytics(params)] *)
Definition generateMockAnalytics (now : nat → Z) (params : object) : M rng analytics :=
  let p := periodOf params in
  let dataPoints := dataPointsOf p in
  rows ← for_push (analyticsStep now dataPoints) 0 dataPoints;
  let speedData := (λ r, r.1.1) <$> rows in
  let delayData := (λ r, r.1.2) <$> rows in
  let congestionData := (λ r, r.2) <$> rows in
  mret {| speedTrends := speedData;
          delayPatterns := delayData;
          congestionLevels := congestionData;
          summary :=
            {| averageSpeed := average speedData;
               averageDelay := average delayData;
               peakCongestion := Math_max (sample_value <$> congestionData);
               period := p |} |}.

End MockAnalytics.

(** ** TrafficAnalyzerBackground, the rest of the worker (script.js) *)

Module WorkerService.
Import TrafficAnalyzerBackground.

(** [getCachedData(key)] *)
Definition getCachedData (key : string) (w : world) : value :=
  match dataCache w !! key with
  | Some cached => data cached
  | None => VNull
  end.

(** A settings object: what [chrome.storage.sync] holds and what
    [updateSettings] is given, for the three keys the worker reads; [None]
    is a key that is not there. *)
Record settingsObject := {
  refreshInterval : option Z;
  notifications : option bool;
  theme : option string
}.

(** [chrome.storage.sync.set(items)]: the keys given replace the stored
    ones. *)
Definition sync_set (items stored : settingsObject) : settingsObject :=
  {| refreshInterval := match refreshInterval items with
                        | Some x => Some x
                        | None => refreshInterval stored
                        end;
     notifications := match notifications items with
                      | Some x => Some x
                      | None => notifications stored
                      end;
     theme := match theme items with
              | Some x => Some x
              | None => theme stored
              end |}.

Record alarm := { delayInMinutes : Q; periodInMinutes : Q }.

(** The worker: its cache and clock, [this.refreshInterval],
    [this.notificationsEnabled] ([None] until [loadSettings] has set it),
    the synced settings and the alarms of the extension. *)
Record service := {
  core : world;
  interval : Z;
  notificationsEnabled : option bool;
  sync : settingsObject;
  alarms : gmap string alarm
}.

Definition with_core (w : world) (s : service) : service :=
  {| core := w; interval := interval s;
     notificationsEnabled := notificationsEnabled s;
     sync := sync s; alarms := alarms s |}.

(** How the calls to [chrome.storage.sync] made by one method settle:
    [None] is a promise that resolves, [Some e] one that rejects with
    [e] (the quota or the rate of writes is exceeded, the storage is not
    available). *)
Record storage := { set_fails : option error; get_fails : option error }.

(** Both calls resolve. *)
Definition granted : storage := {| set_fails := None; get_fails := None |}.

(** [await chrome.storage.sync.set(items)] *)
Definition storage_sync_set (o : storage) (items : settingsObject) : M service unit :=
  match set_fails o with
  | Some e => throw e
  | None =>
      modify (λ s, {| core := core s; interval := interval s;
                      notificationsEnabled := notificationsEnabled s;
                      sync := sync_set items (sync s); alarms := alarms s |})
  end.

(** [loadSettings()]: the stored values, with the defaults 60000 and
    [true]. *)
Definition loadSettings (o : storage) : M service unit :=
  match get_fails o with
  | Some e => throw e
  | None =>
      modify (λ s, {| core := core s;
                      interval := default 60000 (refreshInterval (sync s));
                      notificationsEnabled :=
                        Some (default true (notifications (sync s)));
                      sync := sync s; alarms := alarms s |})
  end.

(** [scheduleDataRefresh()] *)
Definition scheduleDataRefresh (s : service) : service :=
  let cleared := delete "refresh-traffic-data" (alarms s) in
  {| core := core s; interval := interval s;
     notificationsEnabled := notificationsEnabled s; sync := sync s;
     alarms :=
       if 0 <? interval s
       then <["refresh-traffic-data" :=
               {| delayInMinutes := (inject_Z (interval s) / 60000)%Q;
                  periodInMinutes := (inject_Z (interval s) / 60000)%Q |}]> cleared
       else cleared |}.

(** [updateSettings(settings)]; [None] is a [settings] that is not an
    object ([undefined] when the message has none): the call of
    [chrome.storage.sync.set] is refused with a TypeError (and were it
    not, reading [settings.refreshInterval] would throw one). *)
Definition updateSettings (o : storage) (settings : option settingsObject)
  : M service unit :=
  match settings with
  | None => throw (TypeError "items")
  | Some items =>
      storage_sync_set o items;;
      loadSettings o;;
      match refreshInterval items with
      | Some _ => modify scheduleDataRefresh
      | None => mret tt
      end
  end.

(** [initializeDefaultSettings()], on first install. *)
Definition initializeDefaultSettings (o : storage) : M service unit :=
  storage_sync_set o {| refreshInterval := Some 60000;
                        notifications := Some true;
                        theme := Some "light" |}.

(** [handleStartup()] *)
Definition handleStartup (o : storage) : M service unit :=
  loadSettings o;;
  modify scheduleDataRefresh.

(** The constructor followed by [init()], run whenever the worker
    starts: [startPeriodicRefresh] schedules the alarm for the default
    interval; [stored] and [scheduled] are the settings and the alarms
    the browser holds at that time. *)
Definition constructor (now : Z) (stored : settingsObject)
    (scheduled : gmap string alarm) : service :=
  scheduleDataRefresh
    {| core := {| dataCache := ∅; clock := now; fetches := 0 |};
       interval := 60000; notificationsEnabled := None;
       sync := stored; alarms := scheduled |}.

(** [refreshAllData()] on the cache. *)
Definition refreshAllData (s : service) : service :=
  with_core (run_task RefreshAllData (core s)) s.

(** [handleAlarm(alarm)] *)
Definition handleAlarm (name : string) (s : service) : service :=
  if String.eqb name "refresh-traffic-data" then refreshAllData s
  else if String.eqb name "cleanup-cache"
       then with_core (run_task CleanupCache (core s)) s
       else s.

(** [handleInstalled(details)], [reason] being [details.reason]. *)
Definition handleInstalled (o : storage) (reason : string) : M service unit :=
  if String.eqb reason "install" then initializeDefaultSettings o
  else if String.eqb reason "update" then modify refreshAllData
  else mret tt.

(** The events the worker listens to, messages apart, each with the way
    the storage calls of its listener settle. The listeners are [async]
    functions: the state they leave is kept, a rejection is not handled. *)
Inductive event :=
| OnStartup (o : storage)
| OnInstalled (o : storage) (reason : string)
| OnAlarm (name : string)
| SettingsMessage (o : storage) (items : settingsObject)
| RefreshMessage.

Definition handle (e : event) (s : service) : service :=
  match e with
  | OnStartup o => (handleStartup o s).2
  | OnInstalled o reason => (handleInstalled o reason s).2
  | OnAlarm name => handleAlarm name s
  | SettingsMessage o items => (updateSettings o (Some items) s).2
  | RefreshMessage => refreshAllData s
  end.

(** *** [handleMessage] *)

(** A message: its [type] and the properties the cases read; [settings]
    is an object, with whichever of the three keys, or [None] when the
    message has no such object. *)
Record request := {
  type : string;
  params : value;
  settings : option settingsObject;
  key : string
}.

(** What is handed to [sendResponse]. *)
Inductive response :=
| Success
| SuccessData (d : value)
| SuccessRoutes (routes : list route)
| Failure (error : string).

(** The worker and the random source of its generators. *)
Record host := { svc : service; random : rng }.

Definition lift_core {A} (m : M world A) : M host A := λ h,
  let r := m (core (svc h)) in
  (r.1, {| svc := with_core r.2 (svc h); random := random h |}).

Definition lift_random {A} (m : M rng A) : M host A := λ h,
  let r := m (random h) in
  (r.1, {| svc := svc h; random := r.2 |}).

Definition lift_service {A} (m : M service A) : M host A := λ h,
  let r := m (svc h) in
  (r.1, {| svc := r.2; random := random h |}).

Section HandleMessage.
Context `{Builtins}.
(** [error.message] *)
Variable message_of : error → string.

(** [handleMessage(message, sender, sendResponse)]: [E] is how the fetch
    of [getTrafficData] goes, [o] how the storage calls of
    [updateSettings] settle; the clock of the worker gives every reading
    of [Date.now()]. *)
Definition handleMessage (E : env) (o : storage) (m : request) : M host response :=
  try_catch
    (if String.eqb (type m) "GET_TRAFFIC_DATA" then
       trafficData ← lift_core (getTrafficData E (params m));
       mret (SuccessData trafficData)
     else if String.eqb (type m) "GET_ROUTE_SUGGESTIONS" then
       h ← get_state;
       routes ← lift_random
                  (getRouteSuggestions (λ _, clock (core (svc h))) (params m));
       mret (SuccessRoutes routes)
     else if String.eqb (type m) "UPDATE_SETTINGS" then
       lift_service (updateSettings o (settings m));;
       mret Success
     else if String.eqb (type m) "REFRESH_DATA" then
       lift_service (modify refreshAllData);;
       mret Success
     else if String.eqb (type m) "GET_CACHED_DATA" then
       h ← get_state;
       mret (SuccessData (getCachedData (key m) (core (svc h))))
     else mret (Failure "Unknown message type"))
    (λ error, mret (Failure (message_of error))).

End HandleMessage.

End WorkerService.

(** * Predicates and sample inputs of the properties *)

(** ** The event emitter *)

Module EmitterSamples.
Import Utils.events.

(** An action that neither throws nor moves the callbacks already
    registered for [event]: a registration, or a removal for another
    event, under a name that is not inherited from [Object.prototype]
    (for which [on] and [off] throw). *)
Definition keeps (event : string) (a : action) : bool :=
  match a with
  | CallOn event' _ _ => negb (inherited event')
  | CallOff event' _ => negb (String.eqb event' event) && negb (inherited event')
  | Throw _ => false
  end.

(** A callback that, called with [d], neither throws nor removes a
    callback of [event]. *)
Definition well_behaved (event : string) (d : value) (h : handler) : bool :=
  forallb (keeps event) (body h d).

(** A callback that unsubscribes itself when called, one that does
    nothing, and one that subscribes a new callback to the same event. *)
Definition once : handler :=
  {| hid := 1; body := λ _, [CallOff "dataUpdated" 1%nat] |}.

Definition plain : handler := {| hid := 2; body := λ _, [] |}.

Definition recruiter : handler :=
  {| hid := 3; body := λ _, [CallOn "dataUpdated" 4%nat (λ _, [])] |}.

(** [on('dataUpdated', once); on('dataUpdated', plain)] *)
Definition once_then_plain : registry :=
  (on "dataUpdated" plain (on "dataUpdated" once ∅).1).1.

(** [on('dataUpdated', recruiter); on('dataUpdated', plain)] *)
Definition recruiter_then_plain : registry :=
  (on "dataUpdated" plain (on "dataUpdated" recruiter ∅).1).1.

End EmitterSamples.

(** ** The request coordinator *)

(** [post m w Q]: running [m] from [w] ends in an outcome and a state
    that satisfy [Q]. *)
Definition post {St A} (m : M St A) (w : St) (Q : promise A → St → Prop)
  : Prop := Q (m w).1 (m w).2.

Module CoordinatorSamples.
Import DataManager.

(** The invariant of C6. *)
Definition timeout_ok (w : world) : Prop := 30000 ≤ cacheTimeout (this w).

(** How the Transport settles in an environment. For traffic and
    routes: the message to the background script when [chrome.runtime]
    is there, else the direct fetch (reading an undeclared [chrome]
    throws inside the [try] block as well). *)
Definition via_runtime (E : env) (k : kind) (tag : string) (p : value)
  : promise value :=
  match chrome E with
  | Undeclared => Rejected (ReferenceError "chrome")
  | NoRuntime => direct E k p
  | Runtime => sendMessage E {| type := tag; params := p |}
  end.

Definition transport (E : env) (k : kind) (p : value) : promise value :=
  match k with
  | Traffic => via_runtime E Traffic "GET_TRAFFIC_DATA" (or_empty p)
  | Routes => via_runtime E Routes "GET_ROUTE_SUGGESTIONS" p
  | Analytics => direct E Analytics (or_empty p)
  end.

(** The freshness test of [getFromCache] succeeded and its result passed
    the [if (cachedData)] test of the coordinator. *)
Definition hit (key : string) (w : world) : bool :=
  truthy (getFromCache (clock w) key false (this w)).1.


(** *** Sample runs *)

(** Built-ins for the sample runs, which use the empty object [{}],
    properties that are texts and, in the messenger's, the number 1. *)
Definition sampleBuiltins : Builtins :=
  {| JSON_stringify := λ p, match p with VObj [] => "{}" | _ => "{...}" end;
     ToString := λ v, match v with
                      | VStr s => s
                      | VNum _ => "1"
                      | _ => "undefined"
                      end;
     StringToNumber := λ _, None;
     NumberToString := λ _, "NaN";
     ToString_text := λ _, eq_refl |}.

(** The promise of [sendMessageToBackground] in the sample runs, whose
    replies all settle it. *)
Definition settled (lastError : option string) (response : value)
  : promise value :=
  default (Rejected (Error "never settled"))
          (sendMessageToBackground (H := sampleBuiltins) lastError response).

(** A background script that answers every message with [response]. *)
Definition answering (response : value) : env :=
  {| chrome := Runtime;
     sendMessage := λ _, settled None response;
     direct := λ _ _, Rejected (Error "not used");
     meanwhile := [] |}.

(** No background script: the runtime reports a channel error. *)
Definition unreachable : env :=
  {| chrome := Runtime;
     sendMessage := λ _,
       settled (Some "Could not establish connection. Receiving end does not exist.")
               VUndefined;
     direct := λ _ _, Rejected (Error "not used");
     meanwhile := [] |}.

Definition P1 : value :=
  VObj [("points", VArr []);
        ("summary", VObj [("region", VStr "New York City")])].

(** The example scenario of the specification: timeout 30000 ms; at
    t = 0 a traffic request succeeds with [P1]; at t = 40000 the same
    request is made and the Transport fails. *)
Definition scenario_t0 : world :=
  run_task (SettingsChange {| refreshInterval := Some 30 |}) (initial 0).

Definition scenario_cached : world :=
  (fetch (H := sampleBuiltins)
     (answering (VObj [("success", VBool true); ("data", P1)]))
     Traffic (VObj []) scenario_t0).2.

Definition scenario_t40000 : world := run_task (Elapse 40000) scenario_cached.

(** A request answered with [{ success: true, data: null }]. *)
Definition null_answer : env :=
  answering (VObj [("success", VBool true); ("data", VNull)]).

Definition after_null_answer : world :=
  (fetch (H := sampleBuiltins) null_answer Traffic (VObj []) (initial 0)).2.

End CoordinatorSamples.

Module WorkerSamples.
Import TrafficAnalyzerBackground.

(** The worker holding [P1] for [{}] since t = 0, read at t = 400000
    (its freshness window is 300000 ms), with a failing fetch. *)
Definition stale_worker : world :=
  {| dataCache := {[ "traffic_{}" := {| data := CoordinatorSamples.P1; timestamp := 0 |} ]};
     clock := 400000; fetches := 0 |}.

Definition failing : env :=
  {| fetched := Rejected (Error "network down");
     mock := VObj [("points", VArr [])];
     meanwhile := [] |}.

End WorkerSamples.

(** ** The messenger *)

Module MessengerSamples.

(** A response whose [success] is the number 1, not [true]. *)
Definition counted : value :=
  VObj [("success", VNum 1); ("data", VStr "P1")].

Definition refused : value :=
  VObj [("success", VBool false); ("error", VStr "Unknown message type")].

(** A failure whose [error] is an object with a [toString] of its own. *)
Definition opaque : value :=
  VObj [("success", VBool false);
        ("error", VObj [("toString", VStr "failed")])].

End MessengerSamples.

(** ** Route lists *)

(** A computation that ends normally from every state. *)
Definition resolves {St A} (m : M St A) : Prop :=
  ∀ w, ∃ a, (m w).1 = Resolved a.

(** A computation that throws [e] from every state. *)
Definition throws {St A} (e : error) (m : M St A) : Prop :=
  ∀ w, (m w).1 = Rejected e.

(** Adjacent routes are in ascending order of duration. *)
Definition ascending : list route → Prop :=
  Sorted (λ a b, duration a ≤ duration b).

(** ** Further samples *)

Module MoreSamples.
Import DataManager CoordinatorSamples.

(** Two route requests whose locations differ, with the same text once
    joined by underscores. *)
Definition via_north : value :=
  VObj [("from", VStr "Oak_Park"); ("to", VStr "Elm");
        ("departureTime", VStr "now")].

Definition via_south : value :=
  VObj [("from", VStr "Oak"); ("to", VStr "Park_Elm");
        ("departureTime", VStr "now")].

Definition some_routes : value := VArr [VObj [("id", VStr "route_0")]].

(** The page after the first of the two requests was answered. *)
Definition north_cached : world :=
  (fetch (H := sampleBuiltins)
     (answering (VObj [("success", VBool true); ("data", some_routes)]))
     Routes via_north (initial 0)).2.

End MoreSamples.

Module EmitterMoreSamples.
Import Utils.events EmitterSamples.

(** A callback that throws when called. *)
Definition faulty : handler :=
  {| hid := 5; body := λ _, [Throw (Error "listener failed")] |}.

(** [on(plain); on(faulty); on(recruiter)] for [dataUpdated]. *)
Definition with_faulty : registry :=
  (on "dataUpdated" recruiter
     (on "dataUpdated" faulty (on "dataUpdated" plain ∅).1).1).1.

(** [plain] subscribed twice. *)
Definition twice : registry :=
  (on "dataUpdated" plain (on "dataUpdated" plain ∅).1).1.

End EmitterMoreSamples.

Module UtilsSamples.
Import UtilsMore.

(** A JSON that knows [true] and [null] only, for the sample runs. *)
Definition sampleJSON : JSON :=
  {| JSON_parse := λ s, if String.eqb s "true" then Some (VBool true)
                        else if String.eqb s "null" then Some VNull
                        else None;
     JSON_text := λ v, match v with VBool true => "true" | _ => "null" end |}.

End UtilsSamples.

(** ** Predicates of the generators *)

(** Every draw of [Math.random()] lies in [0, 1). *)
Definition unit_draws (r : rng) : Prop := ∀ n, (0 <= draws r n)%Q ∧ (draws r n < 1)%Q.

(** From every state satisfying [I], the computation ends normally with a
    value satisfying [P], in a state satisfying [I]. *)
Definition yields {St A} (I : St → Prop) (m : M St A) (P : A → Prop) : Prop :=
  ∀ w, I w → ∃ a, (m w).1 = Resolved a ∧ P a ∧ I (m w).2.

(** The random source [r] is [r0] after some draws. *)
Definition draws_of (r0 r : rng) : Prop := draws r = draws r0.

(** One of the road types of the points. *)
Definition roadTypes : list string := ["highway"; "arterial"; "local"].

(** A random source all of whose draws are [x]. *)
Definition constant_draws (x : Q) : rng := {| draws := λ _, x; taken := 0 |}.


(** ** Predicates of the route generators *)

(** A place given with numbers: an object whose [lat] and [lng] are the
    numbers [la] and [ln]. *)
Definition located (v : value) (la ln : Q) : Prop :=
  get_prop v "lat" = VNum la ∧ get_prop v "lng" = VNum ln.

(** A place given as a text, as the popup's inputs give it. *)
Definition is_text (v : value) : Prop := ∃ s, v = VStr s.

(** The [lat] and the [lng] of the two places can be converted to
    numbers. *)
Definition charted (from to : value) : bool :=
  convertible (get_prop from "lat") && convertible (get_prop to "lat")
  && convertible (get_prop from "lng") && convertible (get_prop to "lng").

(** The numbers of the embedding are rationals, where the code computes
    in IEEE doubles: the two differ by the rounding of each operation.
    [rounding] is the allowance made for this in the bounds stated on
    numbers that are not integers; it is far above the rounding errors of
    the expressions concerned, whose values stay below 100 in size. *)
Definition rounding : Q := 1 # 1000000000.

(** [x] lies between [lo] and [hi], rounding apart. *)
Definition between (lo hi x : Q) : Prop :=
  (lo - rounding <= x)%Q ∧ (x <= hi + rounding)%Q.

(** [x] is a number at most [d] away from [c], rounding apart. *)
Definition near (c d : Q) (x : coord) : Prop :=
  ∃ q, x = Number (Some q) ∧ between (c - d) (c + d) q.

(** [s] names the band of [x], rounding apart: [n1] up to [t1], [n2]
    from there up to [t2], [n3] above. *)
Definition banded (t1 t2 : Q) (n1 n2 n3 : string) (x : Q) (s : string)
  : Prop :=
  (s = n1 ∧ (x <= t1 + rounding)%Q)
  ∨ (s = n2 ∧ between t1 t2 x)
  ∨ (s = n3 ∧ (t2 - rounding <= x)%Q).

(** A latitude and a longitude in the ranges [Utils.isValidCoordinates]
    accepts. *)
Definition valid_place (la ln : Q) : Prop :=
  ((-90 <= la)%Q ∧ (la <= 90)%Q) ∧ ((-180 <= ln)%Q ∧ (ln <= 180)%Q).

(** Readings of [Date.now()]: from the epoch on and below 2^52 ms
    (the year 144683), where a sum with an hour or two is still a time
    value the doubles hold to the millisecond. *)
Definition clock_readings (now : nat → Z) : Prop :=
  ∀ i, 0 ≤ now i ≤ 4503599627370496.


(** ** Predicates of the worker's messages *)

(** The message types the worker knows. *)
Definition messageTypes : list string :=
  ["GET_TRAFFIC_DATA"; "GET_ROUTE_SUGGESTIONS"; "UPDATE_SETTINGS";
   "REFRESH_DATA"; "GET_CACHED_DATA"].

(** A message without [params] ([undefined] or [null]), or whose
    [params] has no [from] or no [to], or a place whose [lat] or [lng]
    cannot be converted to a number. *)
Definition lacks_place (m : WorkerService.request) : bool :=
  nullish (WorkerService.params m)
  || nullish (get_prop (WorkerService.params m) "from")
  || nullish (get_prop (WorkerService.params m) "to")
  || negb (charted (get_prop (WorkerService.params m) "from")
                   (get_prop (WorkerService.params m) "to")).

(** A message without a [settings] object, or one of the two storage
    calls of [updateSettings] rejecting. *)
Definition settings_refused (o : WorkerService.storage)
    (m : WorkerService.request) : bool :=
  match WorkerService.settings m, WorkerService.set_fails o,
        WorkerService.get_fails o with
  | Some _, None, None => false
  | _, _, _ => true
  end.

(** Only the refresh alarm is scheduled, if any, with a positive period
    that is also its delay. *)
Definition only_refresh_alarm (alarms : gmap string WorkerService.alarm) : Prop :=
  ∀ name a, alarms !! name = Some a →
    name = "refresh-traffic-data"
    ∧ WorkerService.delayInMinutes a = WorkerService.periodInMinutes a
    ∧ (0 < WorkerService.periodInMinutes a)%Q.


(** * Properties *)

(** ** The event emitter *)

Section Emitter.
Import Utils.events EmitterSamples.

Lemma read_own event (l : registry) arr :
  l !! event = Some arr → read event l = Listeners arr.
Proof. intros Hl. unfold read. by rewrite Hl. Qed.

Lemma read_plain event (l : registry) :
  inherited event = false →
  read event l = match l !! event with
                 | Some arr => Listeners arr
                 | None => Missing
                 end.
Proof. intros Hi. unfold read. by rewrite Hi. Qed.

Lemma on_plain event callback (l : registry) :
  inherited event = false →
  on event callback l
  = (<[event := default [] (l !! event) ++ [callback]]> l, Normal).
Proof.
  intros Hi. unfold on. rewrite read_plain by done.
  by destruct (l !! event).
Qed.

Lemma on_lookup event callback (l : registry) event' :
  inherited event = false →
  (on event callback l).1 !! event' =
  if decide (event = event')
  then Some (default [] (l !! event') ++ [callback])
  else l !! event'.
Proof.
  intros Hi. rewrite on_plain by done. simpl.
  rewrite lookup_insert. destruct (decide (event = event')); by subst.
Qed.

Lemma off_lookup_ne event id (l : registry) event' :
  event ≠ event' → (off event id l).1 !! event' = l !! event'.
Proof.
  intros Hne. unfold off. destruct (read event l) as [arr| |]; [|done..].
  destruct (indexOf id arr); [|done]. simpl. by rewrite lookup_insert_ne.
Qed.

Lemma off_plain event id (l : registry) :
  inherited event = false → (off event id l).2 = Normal.
Proof.
  intros Hi. unfold off. rewrite read_plain by done.
  destruct (l !! event) as [arr|]; [|done]. by destruct (indexOf id arr).
Qed.

Lemma run_actions_keeps event acts : ∀ (l : registry) arr,
  forallb (keeps event) acts = true →
  l !! event = Some arr →
  ∃ l' extra, run_actions acts l = (l', Normal) ∧ l' !! event = Some (arr ++ extra).
Proof.
  induction acts as [|a acts IH]; intros l arr Hall Hl; simpl.
  - exists l, []. by rewrite app_nil_r.
  - simpl in Hall. apply andb_prop in Hall as [Ha Hall].
    destruct a as [event' id b|event' id|e]; simpl in Ha; [| |done].
    + apply negb_true_iff in Ha.
      pose proof (on_lookup event' {| hid := id; body := b |} l event Ha) as Hon.
      rewrite (on_plain _ _ _ Ha) in Hon |- *. simpl in Hon.
      destruct (decide (event' = event)) as [->|Hne].
      * rewrite Hl in Hon.
        destruct (IH _ (arr ++ [{| hid := id; body := b |}]) Hall Hon)
          as (l' & extra & Hrun & Hl').
        exists l', ({| hid := id; body := b |} :: extra).
        rewrite Hl. split; [done|]. by rewrite Hl', <- app_assoc.
      * rewrite Hl in Hon.
        destruct (IH _ arr Hall Hon) as (l' & extra & Hrun & Hl').
        by exists l', extra.
    + apply andb_prop in Ha as [Ha Hi].
      apply negb_true_iff, String.eqb_neq in Ha. apply negb_true_iff in Hi.
      pose proof (off_lookup_ne event' id l event Ha) as Hoff.
      pose proof (off_plain event' id l Hi) as Hn.
      destruct (off event' id l) as [l1 c]. simpl in Hoff, Hn. subst c.
      destruct (IH l1 arr Hall) as (l' & extra & Hrun & Hl').
      { by rewrite Hoff. }
      by exists l', extra.
Qed.

Lemma forEach_keeps event d arr : ∀ n k (l : registry) extra calls,
  forallb (well_behaved event d) arr = true →
  l !! event = Some (arr ++ extra) →
  (k + n = length arr)%nat →
  ∃ l' extra',
    forEach n k event d l calls = (l', calls ++ (hid <$> drop k arr), Normal)
    ∧ l' !! event = Some (arr ++ extra').
Proof.
  induction n as [|n IH]; intros k l extra calls Hall Hl Hlen; simpl.
  - exists l, extra. rewrite drop_ge by lia. by rewrite app_nil_r.
  - rewrite Hl. simpl.
    destruct (lookup_lt_is_Some_2 arr k) as [h Hh]; [lia|].
    rewrite lookup_app_l, Hh by lia.
    assert (Hwb : forallb (keeps event) (body h d) = true).
    { rewrite forallb_forall in Hall. apply (Hall h).
      apply list_elem_of_In. by eapply list_elem_of_lookup_2. }
    destruct (run_actions_keeps event _ l _ Hwb Hl) as (l1 & extra1 & Hrun & Hl1).
    rewrite Hrun. rewrite <- app_assoc in Hl1.
    destruct (IH (S k) l1 (extra ++ extra1) (calls ++ [hid h]) Hall Hl1)
      as (l' & extra' & Hloop & Hl'); [lia|].
    exists l', extra'. split; [|done].
    rewrite Hloop, <- app_assoc. do 2 f_equal.
    by rewrite (drop_S _ _ _ Hh).
Qed.

(** C7 (amended). For an event whose name is not one inherited from
    [Object.prototype], or that has callbacks registered: when no
    callback registered for [event] throws, unsubscribes a callback of
    [event], or subscribes or unsubscribes under an inherited name while
    it is called, [emit] returns normally after calling exactly the
    callbacks that were registered when it began, once per registration
    and in registration order; callbacks subscribed meanwhile ([extra])
    are appended to the array and not called by this emission. *)
Theorem C7_emit_calls_registered event d (l : registry) :
  inherited event = false ∨ is_Some (l !! event) →
  forallb (well_behaved event d) (default [] (l !! event)) = true →
  ∃ l' extra,
    emit event d l = (l', hid <$> default [] (l !! event), Normal)
    ∧ default [] (l' !! event) = default [] (l !! event) ++ extra.
Proof.
  intros Hname Hall. unfold emit.
  destruct (l !! event) as [arr|] eqn:Hl; simpl in *.
  - rewrite (read_own _ _ _ Hl).
    destruct (forEach_keeps event d arr (length arr) 0 l [] [] Hall)
      as (l' & extra & Hrun & Hl'); [by rewrite app_nil_r|done|].
    exists l', extra. rewrite Hrun, Hl'. by rewrite drop_0.
  - destruct Hname as [Hi|[? ?]]; [|done].
    rewrite read_plain, Hl by done. exists l, []. by rewrite Hl.
Qed.

Lemma C7_emit_calls_registered_witness :
  (inherited "dataUpdated" = false
   ∨ is_Some (recruiter_then_plain !! "dataUpdated"))
  ∧ forallb (well_behaved "dataUpdated" VNull)
            (default [] (recruiter_then_plain !! "dataUpdated")) = true
  ∧ ∃ l' extra,
      emit "dataUpdated" VNull recruiter_then_plain
      = (l', hid <$> default [] (recruiter_then_plain !! "dataUpdated"), Normal)
      ∧ default [] (l' !! "dataUpdated")
        = default [] (recruiter_then_plain !! "dataUpdated") ++ extra.
Proof.
  split; [left; vm_compute; reflexivity|].
  split; [vm_compute; reflexivity|].
  apply (C7_emit_calls_registered "dataUpdated" VNull recruiter_then_plain).
  - left. vm_compute; reflexivity.
  - vm_compute; reflexivity.
Defined.

(** C7 as stated fails: [once] unsubscribes itself while it is called,
    the array shrinks under [forEach], and [plain], registered before the
    emission began, is never called. It also fails for an event named
    like a property of [Object.prototype]: with no callback registered,
    [emit("toString", d)] throws a TypeError. *)
Lemma C7_unsubscribe_skips_next :
  hid <$> default [] (once_then_plain !! "dataUpdated") = [1; 2]%nat
  ∧ (emit "dataUpdated" VNull once_then_plain).1.2 = [1]%nat
  ∧ (emit "dataUpdated" VNull once_then_plain).2 = Normal
  ∧ emit "toString" VNull ∅ = (∅, [], Thrown (TypeError "forEach")).
Proof. vm_compute. done. Qed.

End Emitter.

(** ** The TTL cache of the manager *)

Section Cache.
Import DataManager.

Lemma getFromCache_missing now key ignoreTimeout this :
  cache this !! key = None →
  getFromCache now key ignoreTimeout this = (VNull, this).
Proof. intros Hk. unfold getFromCache. by rewrite Hk. Qed.

Lemma getFromCache_fresh now key this c :
  cache this !! key = Some c →
  now - timestamp c ≤ cacheTimeout this →
  getFromCache now key false this = (data c, this).
Proof.
  intros Hk Hage. unfold getFromCache. rewrite Hk. simpl.
  destruct (Z.ltb_spec (cacheTimeout this) (now - timestamp c)); [lia|done].
Qed.

Lemma getFromCache_expired now key this c :
  cache this !! key = Some c →
  cacheTimeout this < now - timestamp c →
  getFromCache now key false this
  = (VNull, {| cache := delete key (cache this);
               cacheTimeout := cacheTimeout this |}).
Proof.
  intros Hk Hage. unfold getFromCache. rewrite Hk. simpl.
  destruct (Z.ltb_spec (cacheTimeout this) (now - timestamp c)); [done|lia].
Qed.

Lemma getFromCache_ignoring now key this c :
  cache this !! key = Some c →
  getFromCache now key true this = (data c, this).
Proof. intros Hk. unfold getFromCache. by rewrite Hk. Qed.

Lemma getFromCache_timeout now key ignoreTimeout this :
  cacheTimeout (getFromCache now key ignoreTimeout this).2 = cacheTimeout this.
Proof.
  unfold getFromCache. destruct (cache this !! key); [|done].
  by destruct (negb ignoreTimeout && _).
Qed.

Lemma cleanupCache_lookup now this key c :
  cache this !! key = Some c →
  now - timestamp c ≤ cacheTimeout this * 2 →
  cache (cleanupCache now this) !! key = Some c.
Proof.
  intros Hk Hage. unfold cleanupCache. simpl.
  apply map_lookup_filter_Some. split; [done|]. simpl. lia.
Qed.

(** C5. [setCache(k, v)] followed by [getFromCache(k)] returns [v] when
    less than the timeout has elapsed between the two; the sweep run by
    [setCache] keeps the entry just written. [t0] is the time stamped on
    the entry, [t1] the time the sweep reads, [t2] the time of the read. *)
Theorem C5_set_then_get this key v t0 t1 t2 :
  t0 ≤ t1 → t1 ≤ t2 →
  t2 - t0 < cacheTimeout this →
  cache (setCache t0 t1 key v this) !! key = Some {| data := v; timestamp := t0 |}
  ∧ getFromCache t2 key false (setCache t0 t1 key v this)
    = (v, setCache t0 t1 key v this).
Proof.
  intros H01 H12 Hage.
  assert (Hk : cache (setCache t0 t1 key v this) !! key
               = Some {| data := v; timestamp := t0 |}).
  { unfold setCache. apply cleanupCache_lookup; simpl.
    - apply lookup_insert_eq.
    - lia. }
  split; [done|].
  rewrite (getFromCache_fresh _ _ _ _ Hk); [done|].
  unfold setCache, cleanupCache. simpl. lia.
Qed.

Lemma C5_set_then_get_witness :
  0 ≤ 5 ∧ 5 ≤ 1000 ∧ 1000 - 0 < cacheTimeout constructor
  ∧ getFromCache 1000 "traffic_{}" false
      (setCache 0 5 "traffic_{}" (VStr "P1") constructor)
    = (VStr "P1", setCache 0 5 "traffic_{}" (VStr "P1") constructor).
Proof.
  split; [lia|]. split; [lia|]. split; [simpl; lia|].
  apply (C5_set_then_get constructor "traffic_{}" (VStr "P1") 0 5 1000);
    simpl; lia.
Defined.

(** C2, the part the code keeps: an entry older than the timeout is
    not returned by a plain read. *)
Lemma getFromCache_expired_absent now key this c :
  cache this !! key = Some c →
  cacheTimeout this < now - timestamp c →
  (getFromCache now key false this).1 = VNull.
Proof. intros Hk Hage. by rewrite (getFromCache_expired _ _ _ c). Qed.

(** C2, where the code departs from it: the plain read of an expired
    entry deletes it, so a later read with [ignoreTimeout] finds nothing,
    whatever the age of the entry was. *)
Theorem C2_expired_read_evicts now now' key this c :
  cache this !! key = Some c →
  cacheTimeout this < now - timestamp c →
  (getFromCache now key false this).1 = VNull
  ∧ (getFromCache now' key true (getFromCache now key false this).2).1 = VNull.
Proof.
  intros Hk Hage. rewrite (getFromCache_expired _ _ _ c) by done. simpl.
  split; [done|]. rewrite getFromCache_missing; [done|]. simpl.
  apply lookup_delete_eq.
Qed.

Lemma C2_expired_read_evicts_witness :
  cache (setCache 0 0 "traffic_{}" (VStr "P1") constructor) !! "traffic_{}"
  = Some {| data := VStr "P1"; timestamp := 0 |}
  ∧ cacheTimeout (setCache 0 0 "traffic_{}" (VStr "P1") constructor) < 300001 - 0
  ∧ (getFromCache 300001 "traffic_{}" false
       (setCache 0 0 "traffic_{}" (VStr "P1") constructor)).1 = VNull
  ∧ (getFromCache 300002 "traffic_{}" true
       (getFromCache 300001 "traffic_{}" false
          (setCache 0 0 "traffic_{}" (VStr "P1") constructor)).2).1 = VNull.
Proof.
  split; [vm_compute; reflexivity|]. split; [vm_compute; reflexivity|].
  apply (C2_expired_read_evicts 300001 300002 "traffic_{}"
           (setCache 0 0 "traffic_{}" (VStr "P1") constructor)
           {| data := VStr "P1"; timestamp := 0 |});
    vm_compute; reflexivity.
Defined.

End Cache.

(** ** Reasoning about computations *)

Section Post.
Context {St : Type}.

Lemma post_ret {A} (a : A) (w : St) Q :
  Q (Resolved a) w → post (mret a) w Q.
Proof. done. Qed.

Lemma post_throw {A} e (w : St) (Q : promise A → St → Prop) :
  Q (Rejected e) w → post (throw e) w Q.
Proof. done. Qed.

Lemma post_bind {A B} (m : M St A) (f : A → M St B) w Q :
  post m w (λ r w', match r with
                    | Resolved a => post (f a) w' Q
                    | Rejected e => Q (Rejected e) w'
                    end) →
  post (m ≫= f) w Q.
Proof.
  unfold post, mbind, M_bind. by destruct (m w) as [[a|e] w'].
Qed.

Lemma post_try_catch {A} (body : M St A) handler w Q :
  post body w (λ r w', match r with
                       | Resolved a => Q (Resolved a) w'
                       | Rejected e => post (handler e) w' Q
                       end) →
  post (try_catch body handler) w Q.
Proof.
  unfold post, try_catch. by destruct (body w) as [[a|e] w'].
Qed.

Lemma post_modify (f : St → St) w Q :
  Q (Resolved tt) (f w) → post (modify f) w Q.
Proof. done. Qed.

Lemma post_get_state (w : St) Q :
  Q (Resolved w) w → post get_state w Q.
Proof. done. Qed.

Lemma post_mono {A} (m : M St A) w (Q Q' : promise A → St → Prop) :
  post m w Q → (∀ r w', Q r w' → Q' r w') → post m w Q'.
Proof. unfold post. auto. Qed.

End Post.

(** ** The request coordinator *)

(** Takes a route request past the two tests on its parameters. *)
Ltac accepted H :=
  let Hkey := fresh "Hkey" in
  apply andb_prop in H as [H Hkey];
  apply negb_true_iff in H;
  rewrite H, Hkey; cbn [negb].

Section Coordinator.
Import Utils.events DataManager CoordinatorSamples.
Context `{Builtins}.

Lemma post_call_getFromCache key ignoreTimeout w Q :
  Q (Resolved (getFromCache (clock w) key ignoreTimeout (this w)).1)
    (with_this (getFromCache (clock w) key ignoreTimeout (this w)).2 w) →
  post (call_getFromCache key ignoreTimeout) w Q.
Proof. done. Qed.

Lemma post_call_setCache key d w Q :
  Q (Resolved tt) (with_this (setCache (clock w) (clock w) key d (this w)) w) →
  post (call_setCache key d) w Q.
Proof. done. Qed.

Lemma post_call_emit event d w (Q : promise unit → world → Prop) :
  (∀ l r, Q r (with_listeners l w)) →
  post (call_emit event d) w Q.
Proof.
  intros HQ. unfold post, call_emit.
  destruct (emit event d (listeners w)) as [[l calls] [|e]]; apply HQ.
Qed.

Lemma post_Date_now w Q : Q (Resolved (clock w)) w → post Date_now w Q.
Proof. done. Qed.

Lemma post_issue c w Q :
  Q (Resolved tt) {| this := this w; listeners := listeners w; clock := clock w;
                     transport_calls := transport_calls w ++ [c] |} →
  post (issue c) w Q.
Proof. done. Qed.

Lemma post_await {A} E (p : promise A) w Q :
  Q p (run_tasks (meanwhile E) w) → post (await E p) w Q.
Proof. done. Qed.

(** *** The timeout never drops below 30 seconds *)

Lemma handleSettingsChange_timeout s this :
  30000 ≤ cacheTimeout this → 30000 ≤ cacheTimeout (handleSettingsChange s this).
Proof.
  intros Hok. unfold handleSettingsChange.
  destruct (refreshInterval s); simpl; lia.
Qed.

Lemma clearCache_timeout w : timeout_ok w → timeout_ok (clearCache w).2.
Proof.
  unfold timeout_ok, clearCache. intros Hok.
  by destruct (emit _ _ _) as [[l calls] [|e]].
Qed.

Lemma run_task_timeout t w : timeout_ok w → timeout_ok (run_task t w).
Proof.
  unfold timeout_ok. intros Hok. destruct t; simpl; try done.
  - by rewrite getFromCache_timeout.
  - by apply clearCache_timeout.
  - by apply handleSettingsChange_timeout.
Qed.

Lemma run_tasks_timeout ts : ∀ w, timeout_ok w → timeout_ok (run_tasks ts w).
Proof.
  unfold run_tasks. induction ts as [|t ts IH]; intros w Hok; simpl; [done|].
  by apply IH, run_task_timeout.
Qed.

Lemma setCache_timeout now now' key d this :
  cacheTimeout (setCache now now' key d this) = cacheTimeout this.
Proof. done. Qed.

Ltac wp_step :=
  lazymatch goal with
  | |- post (mret _) _ _ => apply post_ret
  | |- post (_ ≫= _) _ _ => apply post_bind
  | |- post (try_catch _ _) _ _ => apply post_try_catch
  | |- post (call_getFromCache _ _) _ _ => apply post_call_getFromCache
  | |- post (call_setCache _ _) _ _ => apply post_call_setCache
  | |- post (call_emit _ _) _ _ => apply post_call_emit; intros ? ?
  | |- post Date_now _ _ => apply post_Date_now
  | |- post (issue _) _ _ => apply post_issue
  | |- post (await _ _) _ _ => apply post_await
  | |- post (throw _) _ _ => apply post_throw
  | |- post (send _ _) _ _ => unfold send
  | |- post (fetchDirect _ _ _) _ _ => unfold fetchDirect
  | |- post (chrome_runtime _) _ _ => unfold chrome_runtime
  | |- post (if ?b then _ else _) _ _ => destruct b eqn:?
  | |- post (match ?x with _ => _ end) _ _ => destruct x eqn:?
  | |- match ?r with Resolved _ => _ | Rejected _ => _ end => destruct r eqn:?
  end; lazy beta iota.

Ltac wp := repeat wp_step.

Lemma fetch_timeout E k p w :
  timeout_ok w → post (fetch E k p) w (λ _ w', timeout_ok w').
Proof.
  intros Hok.
  destruct k; unfold fetch, getTrafficData, getRouteSuggestions, getAnalyticsData;
    wp; unfold timeout_ok in *; simpl;
    rewrite ?getFromCache_timeout, ?setCache_timeout; simpl;
    rewrite ?getFromCache_timeout; try done.
  all: try (apply (run_tasks_timeout _ _); unfold timeout_ok; simpl;
            by rewrite ?getFromCache_timeout).
Qed.

(** C6. The timeout is at least 30000 ms in a freshly constructed
    manager and after any sequence of operations on the page (cache
    calls, emitter calls, settings changes, coordinator calls with
    whatever happens while they are suspended); a settings change with a
    [refreshInterval] sets it to that interval clamped from below at
    30000. *)
Theorem C6_cacheTimeout_at_least_30000 now (ops : list operation) interval s0 :
  30000 ≤ cacheTimeout (this (run_operations ops (initial now)))
  ∧ cacheTimeout (handleSettingsChange {| refreshInterval := Some interval |} s0)
    = Z.max interval 30000.
Proof.
  split; [|done].
  assert (Hinit : timeout_ok (initial now)) by (unfold timeout_ok; simpl; lia).
  revert Hinit. generalize (initial now). unfold run_operations.
  induction ops as [|o ops IH]; intros w Hok; simpl; [done|].
  apply IH. destruct o as [t|E k p]; simpl.
  - by apply run_task_timeout.
  - by apply (fetch_timeout E k p w).
Qed.

(** *** A coordinator call always resolves *)


Lemma with_this_same w : with_this (this w) w = w.
Proof. by destruct w. Qed.




(** *** Cache hits and Transport calls *)

Lemma clearCache_calls w : transport_calls (clearCache w).2 = transport_calls w.
Proof. unfold clearCache. by destruct (emit _ _ _) as [[l calls] [|e]]. Qed.

Lemma run_tasks_calls ts : ∀ w,
  transport_calls (run_tasks ts w) = transport_calls w.
Proof.
  unfold run_tasks. induction ts as [|t ts IH]; intros w; simpl; [done|].
  rewrite IH. destruct t; simpl; try done. apply clearCache_calls.
Qed.

(** A coordinator call issues at most one Transport call. *)
Lemma fetch_calls E k p w :
  (length (transport_calls (fetch E k p w).2) ≤ length (transport_calls w) + 1)%nat.
Proof.
  change (post (fetch E k p) w (λ _ w',
            (length (transport_calls w') ≤ length (transport_calls w) + 1)%nat)).
  destruct k; unfold fetch, getTrafficData, getRouteSuggestions, getAnalyticsData;
    wp; simpl; rewrite ?run_tasks_calls; simpl; rewrite ?length_app; simpl; lia.
Qed.

(** C4 (amended). When the cache holds, for the key of the request, an
    entry younger than the timeout whose data is truthy, the coordinator
    returns that data and leaves the page as it was: no Transport call, no
    cache write, no event. Hence, when [w] is the page a first call left
    behind, the two calls together issued at most one Transport call.
    (The parameters are any value with which the call gets as far as
    its cache key: any value for traffic and analytics; for routes, any
    but [undefined] and [null], with a [from], a [to] and a
    [departureTime] that can be converted to texts.) *)
Theorem C4_fresh_truthy_hit E k p w c :
  accepts k p = true →
  cache (this w) !! keyOf k p = Some c →
  clock w - timestamp c < cacheTimeout (this w) →
  truthy (data c) = true →
  fetch E k p w = (Resolved (data c), w)
  ∧ ∀ E0 w0, (fetch E0 k p w0).2 = w →
      (length (transport_calls (fetch E k p w).2)
       ≤ length (transport_calls w0) + 1)%nat.
Proof.
  intros Hacc Hk Hage Htruthy.
  assert (Hhit : fetch E k p w = (Resolved (data c), w)).
  { destruct k; simpl in Hacc;
      unfold fetch, getTrafficData, getRouteSuggestions, getAnalyticsData;
      [ | accepted Hacc | ];
      unfold mbind, M_bind, call_getFromCache; simpl in *;
      rewrite (getFromCache_fresh _ _ _ c Hk) by lia; simpl;
      rewrite Htruthy; by rewrite with_this_same. }
  split; [done|]. intros E0 w0 Hw0. rewrite Hhit. simpl. rewrite <- Hw0.
  apply fetch_calls.
Qed.

(** *** Stale entries *)

(** C1, where the manager departs from it. Run without interference,
    with an entry for the key older than the timeout and a Transport that
    rejects, a coordinator call resolves with the fallback payload of the
    kind and not with the stale data: its first read has deleted the
    entry by the time the [catch] block looks for it. (The parameters
    are any value with which the call gets as far as its cache key: any
    value for traffic and analytics; for routes, any but [undefined] and
    [null], with a [from], a [to] and a [departureTime] that can be
    converted to texts.) *)
Theorem C1_manager_drops_stale_entry E k p w c e :
  accepts k p = true →
  cache (this w) !! keyOf k p = Some c →
  cacheTimeout (this w) < clock w - timestamp c →
  transport E k p = Rejected e →
  meanwhile E = [] →
  (fetch E k p w).1 = Resolved (fallback k (clock w))
  ∧ cache (this (fetch E k p w).2) !! keyOf k p = None.
Proof.
  intros Hacc Hk Hage Hrej Hnone.
  change (post (fetch E k p) w (λ r w',
            r = Resolved (fallback k (clock w))
            ∧ cache (this w') !! keyOf k p = None)).
  unfold transport, via_runtime in Hrej.
  destruct k; simpl in Hacc;
    unfold fetch, getTrafficData, getRouteSuggestions, getAnalyticsData;
    [ | accepted Hacc | ];
    cbv beta iota delta [keyOf trafficKey analyticsKey] in Hk |- *;
    simpl in *;
    (apply post_bind, post_call_getFromCache;
     rewrite (getFromCache_expired _ _ _ c Hk Hage); lazy beta iota; simpl;
     wp; rewrite ?Hnone in *; unfold run_tasks in *; simpl in *;
     repeat match goal with
            | Hc : chrome _ = _ |- _ => rewrite Hc in Hrej; clear Hc
            end;
     try congruence;
     try (rewrite getFromCache_missing in * by (simpl; apply lookup_delete_eq));
     simpl in *; try done).
  all: split; [done|]; apply lookup_delete_eq.
Qed.

End Coordinator.

(** ** The cache of the background worker *)

Section Worker.
Import TrafficAnalyzerBackground.
Context `{Builtins}.

(** The worker keeps the entry it read before the [await]: when that
    entry is no longer fresh and the fetch rejects, the call resolves with
    the data of the entry, whatever ran in between. *)
Lemma worker_serves_stale E p w c e :
  dataCache w !! ("traffic_" +:+ JSON_stringify (or_empty p)) = Some c →
  300000 ≤ clock w - timestamp c →
  fetched E = Rejected e →
  (getTrafficData E p w).1 = Resolved (data c).
Proof.
  intros Hk Hage Hrej.
  unfold getTrafficData, mbind, M_bind, get_state, try_catch, fetchTrafficData.
  simpl. rewrite Hk.
  destruct (Z.ltb_spec (clock w - timestamp c) 300000); [lia|].
  simpl. by rewrite Hrej.
Qed.

End Worker.

(** ** Sample runs of the coordinator *)

Section Scenarios.
Import DataManager CoordinatorSamples.

(** The example scenario of the specification. At t = 40000 the
    manager holds [P1], written at t = 0, under a timeout of 30000, and
    the Transport fails: the manager resolves with the fallback payload,
    which is not [P1]. The background worker, in the same situation with
    its own window of 300000, resolves with the stale [P1]. *)
Lemma C1_manager_drops_stale_entry_witness :
  accepts Traffic (VObj []) = true
  ∧ cache (this scenario_t40000) !! keyOf (H := sampleBuiltins) Traffic (VObj [])
    = Some {| data := P1; timestamp := 0 |}
  ∧ cacheTimeout (this scenario_t40000) < clock scenario_t40000 - 0
  ∧ transport unreachable Traffic (VObj [])
    = Rejected (Error "Could not establish connection. Receiving end does not exist.")
  ∧ meanwhile unreachable = []
  ∧ ((fetch (H := sampleBuiltins) unreachable Traffic (VObj []) scenario_t40000).1
     = Resolved (fallback Traffic (clock scenario_t40000))
     ∧ cache (this (fetch (H := sampleBuiltins) unreachable Traffic (VObj [])
                      scenario_t40000).2)
       !! keyOf (H := sampleBuiltins) Traffic (VObj []) = None)
  ∧ fallback Traffic (clock scenario_t40000) ≠ P1
  ∧ (TrafficAnalyzerBackground.getTrafficData (H := sampleBuiltins)
       WorkerSamples.failing (VObj []) WorkerSamples.stale_worker).1
    = Resolved P1.
Proof.
  split; [reflexivity|].
  split; [vm_compute; reflexivity|]. split; [vm_compute; reflexivity|].
  split; [reflexivity|]. split; [reflexivity|].
  split.
  - apply (C1_manager_drops_stale_entry (H := sampleBuiltins) unreachable
             Traffic (VObj []) scenario_t40000 {| data := P1; timestamp := 0 |}
             (Error "Could not establish connection. Receiving end does not exist."));
      vm_compute; reflexivity.
  - split; [vm_compute; discriminate|vm_compute; reflexivity].
Defined.



Lemma C4_fresh_truthy_hit_witness :
  accepts Traffic (VObj []) = true
  ∧ cache (this scenario_cached) !! keyOf (H := sampleBuiltins) Traffic (VObj [])
    = Some {| data := P1; timestamp := 0 |}
  ∧ clock scenario_cached - 0 < cacheTimeout (this scenario_cached)
  ∧ truthy P1 = true
  ∧ fetch (H := sampleBuiltins) unreachable Traffic (VObj []) scenario_cached
    = (Resolved P1, scenario_cached)
  ∧ ∀ E0 w0,
      (fetch (H := sampleBuiltins) E0 Traffic (VObj []) w0).2 = scenario_cached →
      (length (transport_calls
                 (fetch (H := sampleBuiltins) unreachable Traffic (VObj [])
                    scenario_cached).2)
       ≤ length (transport_calls w0) + 1)%nat.
Proof.
  split; [reflexivity|].
  split; [vm_compute; reflexivity|]. split; [vm_compute; reflexivity|].
  split; [reflexivity|].
  apply (C4_fresh_truthy_hit (H := sampleBuiltins) unreachable Traffic (VObj [])
           scenario_cached {| data := P1; timestamp := 0 |});
    vm_compute; reflexivity.
Defined.

(** C4 as stated fails for an entry whose data is falsy. The first call
    is answered [{ success: true, data: null }] and caches [null] at
    t = 0; the second call, at the same instant, finds that fresh entry,
    fails the [if (cachedData)] test and sends the message again. *)
Lemma C4_falsy_entry_refetched :
  cache (this after_null_answer) !! keyOf (H := sampleBuiltins) Traffic (VObj [])
  = Some {| data := VNull; timestamp := 0 |}
  ∧ clock after_null_answer - 0 < cacheTimeout (this after_null_answer)
  ∧ transport_calls after_null_answer
    = [Message {| type := "GET_TRAFFIC_DATA"; params := VObj [] |}]
  ∧ transport_calls
      (fetch (H := sampleBuiltins) null_answer Traffic (VObj [])
         after_null_answer).2
    = [Message {| type := "GET_TRAFFIC_DATA"; params := VObj [] |};
       Message {| type := "GET_TRAFFIC_DATA"; params := VObj [] |}].
Proof. vm_compute. done. Qed.

End Scenarios.

(** ** The messenger *)

Section Messenger.
Import DataManager CoordinatorSamples MessengerSamples.
Context `{Builtins}.

(** C8 (amended). The promise resolves, with [response.data], exactly
    when no channel error is reported and the response and its [success]
    are truthy: for a [success] that is a boolean, exactly when it is
    [true]. Otherwise it rejects with an Error whose message is: the
    channel's message when the runtime reports an error; else the text of
    [response.error] when that is truthy and can be converted to a text;
    else ['Unknown error'] (the response is absent, or carries neither a
    truthy [success] nor a truthy [error]). For a [response.error] that
    cannot be converted to a text the promise is never settled. *)
Theorem C8_sendMessage_settles lastError response :
  (∀ d, sendMessageToBackground lastError response = Some (Resolved d)
        ↔ lastError = None
          ∧ truthy response && truthy (get_prop response "success") = true
          ∧ d = get_prop response "data")
  ∧ (∀ b, get_prop response "success" = VBool b →
          (∃ d, sendMessageToBackground lastError response = Some (Resolved d))
          ↔ lastError = None ∧ b = true)
  ∧ (∀ m, lastError = Some m →
          sendMessageToBackground lastError response
          = Some (Rejected (Error m)))
  ∧ (lastError = None →
     truthy response && truthy (get_prop response "success") = false →
     (truthy (opt_chain response "error") = false →
      sendMessageToBackground lastError response
      = Some (Rejected (Error "Unknown error")))
     ∧ (truthy (opt_chain response "error") = true →
        sendMessageToBackground lastError response
        = if convertible (get_prop response "error")
          then Some (Rejected (Error (ToString (get_prop response "error"))))
          else None)).
Proof.
  unfold sendMessageToBackground.
  split; [intros d; split|split; [intros b Hb; split|split]].
  - destruct lastError as [m|]; [done|].
    destruct (truthy response && truthy (get_prop response "success")).
    + by intros [= <-].
    + by destruct (convertible _).
  - by intros (-> & -> & ->).
  - intros [d Hd]. destruct lastError as [m|]; [done|]. split; [done|].
    rewrite Hb in Hd. simpl in Hd. destruct b; [done|].
    rewrite andb_false_r in Hd. by destruct (convertible _).
  - intros [-> ->]. rewrite Hb. simpl.
    assert (truthy response = true) as -> by (by destruct response).
    by eexists.
  - by intros m ->.
  - intros -> ->. split; intros Herr; unfold or_else; rewrite Herr.
    + cbn [convertible]. by rewrite ToString_text.
    + by destruct response.
Qed.

End Messenger.

Section MessengerRuns.
Import DataManager CoordinatorSamples MessengerSamples.

Lemma C8_sendMessage_settles_witness :
  sendMessageToBackground (H := sampleBuiltins) None refused
  = Some (Rejected (Error "Unknown message type")).
Proof.
  apply (C8_sendMessage_settles (H := sampleBuiltins) None refused);
    reflexivity.
Defined.

(** C8 as stated fails for a [success] that is truthy without being
    [true]: the response [{ success: 1, data: "P1" }] resolves the
    promise. It fails as well for an [error] that is an object with a
    [toString] of its own: the promise is neither resolved nor
    rejected. *)
Lemma C8_truthy_success_resolves :
  get_prop counted "success" ≠ VBool true
  ∧ sendMessageToBackground (H := sampleBuiltins) None counted
    = Some (Resolved (VStr "P1"))
  ∧ sendMessageToBackground (H := sampleBuiltins) None opaque = None.
Proof. split; [discriminate|]. split; reflexivity. Qed.

End MessengerRuns.

(** ** The persisted visit lists *)

Section VisitLists.
Import Storage.

(** C9. After the storage callback of a page visit, the new entry is
    first in [visitedSites] and the list has at most 10 entries; after
    the one of a tab update, the new entry is first in [recentTabs] and
    the list has at most 20 entries; whatever was stored before. *)
Theorem C9_visit_lists_capped page tab store :
  (∃ sites, visitedSites (storePageData page store) = Some sites
            ∧ sites !! 0%nat = Some page
            ∧ (length sites ≤ 10)%nat)
  ∧ (∃ tabs, recentTabs (storeTabData tab store) = Some tabs
             ∧ tabs !! 0%nat = Some tab
             ∧ (length tabs ≤ 20)%nat).
Proof.
  split.
  - unfold storePageData. eexists. split; [reflexivity|].
    destruct (Nat.ltb_spec 10 (length (page :: default [] (visitedSites store)))).
    + split; [done|]. rewrite length_take. lia.
    + split; [done|]. lia.
  - unfold storeTabData. eexists. split; [reflexivity|].
    destruct (Nat.ltb_spec 20 (length (tab :: default [] (recentTabs store)))).
    + split; [done|]. rewrite length_take. lia.
    + split; [done|]. lia.
Qed.

End VisitLists.

(** ** Route lists come out in ascending order of duration *)

Lemma M_ret_bind {St A B} (a : A) (f : A → M St B) : mret a ≫= f = f a.
Proof. reflexivity. Qed.

(** The reads and the conversions of [polylinePoint], for two places
    whose coordinates can be converted. *)
Ltac charted_point Hfrom Hto Hch :=
  let Hc1 := fresh "Hc" in let Hc2 := fresh "Hc" in
  let Hc3 := fresh "Hc" in let Hc4 := fresh "Hc" in
  unfold charted in Hch;
  apply andb_prop in Hch as [Hch Hc4]; apply andb_prop in Hch as [Hch Hc3];
  apply andb_prop in Hch as [Hc1 Hc2];
  unfold TrafficAnalyzerBackground.polylinePoint,
    TrafficAnalyzerBackground.coordinate,
    TrafficAnalyzerBackground.minus, TrafficAnalyzerBackground.plus;
  rewrite Hfrom, Hto;
  repeat (rewrite ?M_ret_bind, ?Hc1, ?Hc2, ?Hc3, ?Hc4; cbn beta iota delta [andb]).

Section RouteOrder.
Context `{Builtins}.

Lemma resolves_ret {St A} (a : A) : resolves (St := St) (mret a).
Proof. intros w. by exists a. Qed.

Lemma resolves_bind {St A B} (m : M St A) (f : A → M St B) :
  resolves m → (∀ a, resolves (f a)) → resolves (m ≫= f).
Proof.
  intros Hm Hf w. unfold mbind, M_bind.
  destruct (Hm w) as [a Ha]. destruct (m w) as [r w']. simpl in Ha. subst r.
  apply Hf.
Qed.

Lemma resolves_Math_random : resolves Math_random.
Proof. intros r. by eexists. Qed.

Lemma for_push_resolves {St A} (body : nat → M St A) :
  (∀ i, resolves (body i)) →
  ∀ n i w, ∃ items, (for_push body i n w).1 = Resolved items ∧ length items = n.
Proof.
  intros Hbody. induction n as [|n IH]; intros i w; simpl.
  - by exists [].
  - unfold mbind, M_bind.
    destruct (Hbody i w) as [x Hx]. destruct (body i w) as [r w1].
    simpl in Hx. subst r.
    destruct (IH (S i) w1) as (rest & Hrest & Hlen).
    destruct (for_push body (S i) n w1) as [r w2]. simpl in Hrest. subst r.
    exists (x :: rest). simpl. by rewrite Hlen.
Qed.

Lemma for_push_resolves' {St A} (body : nat → M St A) i n :
  (∀ i, resolves (body i)) → resolves (for_push body i n).
Proof.
  intros Hbody w. destruct (for_push_resolves body Hbody n i w) as (l & Hl & _).
  by exists l.
Qed.

(** [sort] with the duration comparator. *)
Lemma sort_insert_HdRel x a (l : list route) :
  duration a ≤ duration x → HdRel (λ a b, duration a ≤ duration b) a l →
  HdRel (λ a b, duration a ≤ duration b) a (sort_insert byDuration x l).
Proof.
  intros Hax Hhd. destruct l as [|y l]; simpl.
  - by constructor.
  - destruct (byDuration x y <=? 0); constructor; [done|].
    by inversion Hhd.
Qed.

Lemma sort_insert_ascending x (l : list route) :
  ascending l → ascending (sort_insert byDuration x l).
Proof.
  unfold ascending. induction l as [|y l IH]; intros Hl; simpl.
  - repeat constructor.
  - inversion Hl as [|? ? Hl' Hhd]; subst.
    destruct (Z.leb_spec (byDuration x y) 0) as [Hle|Hgt];
      unfold byDuration in *.
    + constructor; [done|]. constructor. lia.
    + constructor; [by apply IH|]. apply sort_insert_HdRel; [lia|done].
Qed.

Lemma sort_ascending (l : list route) : ascending (sort byDuration l).
Proof.
  unfold sort. induction l as [|x l IH]; simpl.
  - constructor.
  - by apply sort_insert_ascending.
Qed.

Lemma sort_insert_length {A} cmp (x : A) l :
  length (sort_insert cmp x l) = S (length l).
Proof.
  induction l as [|y l IH]; simpl; [done|].
  destruct (cmp x y <=? 0); simpl; by rewrite ?IH.
Qed.

Lemma sort_length {A} cmp (l : list A) : length (sort cmp l) = length l.
Proof.
  unfold sort. induction l as [|x l IH]; simpl; [done|].
  by rewrite sort_insert_length, IH.
Qed.

Lemma throws_throw {St A} e : throws (St := St) (A := A) e (throw e).
Proof. by intros w. Qed.

Lemma throws_bind_l {St A B} e (m : M St A) (f : A → M St B) :
  throws e m → throws e (m ≫= f).
Proof.
  intros Hm w. unfold mbind, M_bind. specialize (Hm w).
  destruct (m w) as [r w']. simpl in Hm. by subst r.
Qed.

Lemma throws_bind_r {St A B} e (m : M St A) (f : A → M St B) :
  resolves m → (∀ a, throws e (f a)) → throws e (m ≫= f).
Proof.
  intros Hm Hf w. unfold mbind, M_bind. destruct (Hm w) as [a Ha].
  destruct (m w) as [r w']. simpl in Ha. subst r. apply Hf.
Qed.

Lemma throws_for_push {St A} e (body : nat → M St A) i n :
  throws e (body i) → throws e (for_push body i (S n)).
Proof. intros Hb. simpl. by apply throws_bind_l. Qed.

Ltac resolves_step :=
  lazymatch goal with
  | |- resolves (mret _) => apply resolves_ret
  | |- resolves Math_random => apply resolves_Math_random
  | |- resolves (for_push _ _ _) => apply for_push_resolves'; intros ?
  | |- resolves (_ ≫= _) => apply resolves_bind; [|intros ?]
  | |- resolves (if ?b then _ else _) => destruct b
  end.

Lemma mockRoute_resolves now i : resolves (DataManager.mockRoute now i).
Proof.
  unfold DataManager.mockRoute, DataManager.generateMockPolyline,
    DataManager.polylinePoint.
  repeat resolves_step.
Qed.

Lemma coordinate_resolves v prop :
  nullish v = false → resolves (TrafficAnalyzerBackground.coordinate v prop).
Proof. intros Hv. destruct v; try done; apply resolves_ret. Qed.

Lemma coordinate_throws v prop :
  nullish v = true →
  throws (TypeError prop) (TrafficAnalyzerBackground.coordinate v prop).
Proof. intros Hv. destruct v; try done; apply throws_throw. Qed.

Lemma suggestedRoute_resolves now from to i :
  nullish from = false → nullish to = false → charted from to = true →
  resolves (TrafficAnalyzerBackground.suggestedRoute now from to i).
Proof.
  intros Hfrom Hto Hch.
  unfold TrafficAnalyzerBackground.suggestedRoute,
    TrafficAnalyzerBackground.generateMockPolyline.
  do 3 (apply resolves_bind; [apply resolves_Math_random|intros ?]).
  apply resolves_bind.
  - apply for_push_resolves'. intros k. charted_point Hfrom Hto Hch.
    repeat resolves_step.
  - intros line. repeat resolves_step.
Qed.

Lemma suggestedRoute_throws now from to i :
  nullish from || nullish to = true →
  throws (TypeError "lat")
    (TrafficAnalyzerBackground.suggestedRoute now from to i).
Proof.
  intros Hnull.
  unfold TrafficAnalyzerBackground.suggestedRoute.
  do 3 (apply throws_bind_r; [apply resolves_Math_random|intros ?]).
  apply throws_bind_l.
  unfold TrafficAnalyzerBackground.generateMockPolyline.
  apply throws_for_push. unfold TrafficAnalyzerBackground.polylinePoint.
  destruct (nullish from) eqn:Hfrom.
  - by apply throws_bind_l, coordinate_throws.
  - apply throws_bind_r; [by apply coordinate_resolves|intros ?].
    by apply throws_bind_l, coordinate_throws.
Qed.

Lemma suggestedRoute_uncharted now from to i :
  nullish from = false → nullish to = false → charted from to = false →
  throws (TypeError "primitive")
    (TrafficAnalyzerBackground.suggestedRoute now from to i).
Proof.
  intros Hfrom Hto Hch.
  unfold TrafficAnalyzerBackground.suggestedRoute.
  do 3 (apply throws_bind_r; [apply resolves_Math_random|intros ?]).
  apply throws_bind_l.
  unfold TrafficAnalyzerBackground.generateMockPolyline.
  apply throws_for_push. intros r.
  unfold TrafficAnalyzerBackground.polylinePoint,
    TrafficAnalyzerBackground.coordinate,
    TrafficAnalyzerBackground.minus, TrafficAnalyzerBackground.plus.
  rewrite Hfrom, Hto. unfold charted in Hch.
  unfold mbind, M_bind, mret, M_ret, throw. cbn [fst snd].
  destruct (convertible (get_prop from "lat")); cbn [andb] in Hch |- *;
    [|by rewrite ?andb_false_r].
  destruct (convertible (get_prop to "lat")); cbn [andb] in Hch |- *; [|done].
  destruct (convertible (get_prop from "lng")); cbn [andb] in Hch |- *;
    [|by rewrite ?andb_false_r].
  by rewrite Hch.
Qed.

(** A loop of three resolving bodies followed by the sort. *)
Lemma sorted_routes_resolve (body : nat → M rng route) r :
  (∀ i, resolves (body i)) →
  ∃ routes,
    ((routes ← for_push body 0 3; mret (sort byDuration routes)) r).1
    = Resolved routes
    ∧ ascending routes ∧ length routes = 3%nat.
Proof.
  intros Hbody.
  destruct (for_push_resolves body Hbody 3 0 r) as (routes & Hr & Hlen).
  exists (sort byDuration routes).
  unfold mbind at 1, M_bind at 1.
  destruct (for_push body 0 3 r) as [res r']. simpl in Hr. subst res.
  split; [done|]. split; [apply sort_ascending|by rewrite sort_length].
Qed.

(** C10. Both generators return their three routes in ascending order
    of duration, whatever [Math.random()] draws. The manager's generator
    always returns; the worker's returns unless the parameters are missing
    (it then throws while destructuring them), [from] or [to] is missing
    from them (it then throws while reading [lat]), or a [lat] or a [lng]
    cannot be converted to a number (it then throws in the arithmetic of
    the first polyline point). *)
Theorem C10_routes_ascending now now' p (r : rng) :
  (∃ routes, (DataManager.generateMockRoutes now r).1 = Resolved routes
             ∧ ascending routes ∧ length routes = 3%nat)
  ∧ (if nullish p
     then (TrafficAnalyzerBackground.getRouteSuggestions now' p r).1
          = Rejected (TypeError "from")
     else if nullish (get_prop p "from") || nullish (get_prop p "to")
     then (TrafficAnalyzerBackground.getRouteSuggestions now' p r).1
          = Rejected (TypeError "lat")
     else if negb (charted (get_prop p "from") (get_prop p "to"))
     then (TrafficAnalyzerBackground.getRouteSuggestions now' p r).1
          = Rejected (TypeError "primitive")
     else ∃ routes,
            (TrafficAnalyzerBackground.getRouteSuggestions now' p r).1
            = Resolved routes
            ∧ ascending routes ∧ length routes = 3%nat).
Proof.
  split.
  - apply sorted_routes_resolve, mockRoute_resolves.
  - unfold TrafficAnalyzerBackground.getRouteSuggestions.
    destruct (nullish p) eqn:Hp; [done|].
    destruct (nullish (get_prop p "from") || nullish (get_prop p "to"))
      eqn:Hnull.
    + apply throws_bind_l, throws_for_push. by apply suggestedRoute_throws.
    + apply orb_false_iff in Hnull as [Hfrom Hto].
      destruct (charted (get_prop p "from") (get_prop p "to")) eqn:Hch;
        cbn [negb].
      * apply sorted_routes_resolve. intros i.
        by apply suggestedRoute_resolves.
      * apply throws_bind_l, throws_for_push.
        by apply suggestedRoute_uncharted.
Qed.

End RouteOrder.

(** * Further properties of the code *)

(** ** The cache of the manager: sweeps, reads, clearing *)

Section CacheMore.
Import DataManager.

(** X1. What [setCache(key, d)] leaves in the cache: the new entry,
    unless the sweep already finds it older than twice the timeout, and
    of the other keys exactly the entries that are not older than twice
    the timeout at the time of the sweep. *)
Theorem setCache_contents now now' key d this key' c :
  cache (setCache now now' key d this) !! key' = Some c
  ↔ (key' = key ∧ c = {| data := d; timestamp := now |}
     ∧ now' - now ≤ cacheTimeout this * 2)
    ∨ (key' ≠ key ∧ cache this !! key' = Some c
       ∧ now' - timestamp c ≤ cacheTimeout this * 2).
Proof.
  unfold setCache, cleanupCache. simpl. rewrite map_lookup_filter_Some. simpl.
  destruct (decide (key' = key)) as [->|Hne].
  - rewrite lookup_insert_eq. split.
    + intros [[= <-] Hage]. left. simpl in Hage. split; [done|]. split; [done|lia].
    + intros [(_ & -> & Hage)|(Hne & _)]; [|done]. simpl. split; [done|lia].
  - rewrite lookup_insert_ne by done. split.
    + intros [Hk Hage]. right. split; [done|]. split; [done|lia].
    + intros [(Heq & _)|(_ & Hk & Hage)]; [done|]. split; [done|lia].
Qed.

(** X2. A plain read either serves an entry that is not older than the
    timeout and changes nothing, or returns [null] and leaves no entry
    under the key; in both cases the other keys and the timeout are as
    before. *)
Theorem getFromCache_plain_read now key this :
  ((∃ c, cache this !! key = Some c
         ∧ now - timestamp c ≤ cacheTimeout this
         ∧ getFromCache now key false this = (data c, this))
   ∨ ((getFromCache now key false this).1 = VNull
      ∧ cache (getFromCache now key false this).2 !! key = None))
  ∧ (∀ key', key' ≠ key →
       cache (getFromCache now key false this).2 !! key' = cache this !! key')
  ∧ cacheTimeout (getFromCache now key false this).2 = cacheTimeout this.
Proof.
  unfold getFromCache. destruct (cache this !! key) as [c|] eqn:Hk; simpl.
  - destruct (Z.ltb_spec (cacheTimeout this) (now - timestamp c)); simpl.
    + split; [right; split; [done|apply lookup_delete_eq]|].
      split; [|done]. intros key' Hne. by apply lookup_delete_ne.
    + split; [left; exists c; by repeat split|]. done.
  - split; [by right|done].
Qed.

(** X3. After [clearCache()] every read returns [null], with or without
    [ignoreTimeout] and even when a listener of [cacheCleared] throws; the
    timeout is kept. *)
Theorem clearCache_then_read w now key ignoreTimeout :
  (getFromCache now key ignoreTimeout (this (clearCache w).2)).1 = VNull
  ∧ cacheTimeout (this (clearCache w).2) = cacheTimeout (this w).
Proof.
  unfold clearCache.
  destruct (Utils.events.emit _ _ _) as [[l calls] [|e]]; simpl;
    (split; [|done]); by rewrite getFromCache_missing.
Qed.

End CacheMore.

(** ** The coordinator: what a successful call leaves behind, and keys *)

Ltac run_step :=
  lazymatch goal with
  | |- post (mret _) _ _ => apply post_ret
  | |- post (_ ≫= _) _ _ => apply post_bind
  | |- post (try_catch _ _) _ _ => apply post_try_catch
  | |- post (DataManager.call_getFromCache _ _) _ _ => apply post_call_getFromCache
  | |- post (DataManager.call_setCache _ _) _ _ => apply post_call_setCache
  | |- post (DataManager.call_emit _ _) _ _ => apply post_call_emit; intros ? ?
  | |- post DataManager.Date_now _ _ => apply post_Date_now
  | |- post (DataManager.issue _) _ _ => apply post_issue
  | |- post (DataManager.await _ _) _ _ => apply post_await
  | |- post (throw _) _ _ => apply post_throw
  | |- post (DataManager.send _ _) _ _ => unfold DataManager.send
  | |- post (DataManager.fetchDirect _ _ _) _ _ => unfold DataManager.fetchDirect
  | |- post (DataManager.chrome_runtime _) _ _ => unfold DataManager.chrome_runtime
  | |- post (if ?b then _ else _) _ _ => destruct b eqn:?
  | |- post (match ?x with _ => _ end) _ _ => destruct x eqn:?
  | |- match ?r with Resolved _ => _ | Rejected _ => _ end => destruct r eqn:?
  end; lazy beta iota.

Section CoordinatorMore.
Import Utils.events DataManager CoordinatorSamples.
Context `{Builtins}.

Lemma setCache_now_lookup t key d this :
  0 ≤ cacheTimeout this →
  cache (setCache t t key d this) !! key = Some {| data := d; timestamp := t |}.
Proof.
  intros Hok. unfold setCache, cleanupCache. cbn [cache cacheTimeout].
  apply map_lookup_filter_Some. split; [by rewrite lookup_insert_eq|].
  cbn [snd timestamp]. lia.
Qed.

(** The end of the [try] block and the [catch] block, from the state
    [w] in which the Transport has answered [d]. *)
Lemma clearCache_keeps_timeout w :
  cacheTimeout (this (clearCache w).2) = cacheTimeout (this w).
Proof. unfold clearCache. by destruct (emit _ _ _) as [[l calls] [|e]]. Qed.

Lemma run_tasks_nonneg ts : ∀ w,
  0 ≤ cacheTimeout (this w) → 0 ≤ cacheTimeout (this (run_tasks ts w)).
Proof.
  unfold run_tasks. induction ts as [|t ts IH]; intros w Hok; simpl; [done|].
  apply IH. destruct t; simpl; try done.
  - by rewrite getFromCache_timeout.
  - by rewrite clearCache_keeps_timeout.
  - unfold handleSettingsChange. destruct (refreshInterval s); simpl; lia.
Qed.

Lemma store_announce_return k p d event fb w (Q : promise value → world → Prop) :
  0 ≤ cacheTimeout (this w) → truthy d = true →
  (∀ l, Q (Resolved d)
          (with_listeners l
             (with_this (setCache (clock w) (clock w) (keyOf k p) d (this w)) w))) →
  post (try_catch
          (call_setCache (keyOf k p) d;; call_emit "dataUpdated" event;; mret d)
          (λ _, stale ← call_getFromCache (keyOf k p) true;
                if truthy stale then mret stale else fb)) w Q.
Proof.
  intros Hok Hd HQ.
  assert (Hk : ∀ l, cache (this (with_listeners l
                 (with_this (setCache (clock w) (clock w) (keyOf k p) d (this w)) w)))
               !! keyOf k p = Some {| data := d; timestamp := clock w |}).
  { intros l. simpl. by apply setCache_now_lookup. }
  apply post_try_catch, post_bind, post_call_setCache. lazy beta iota.
  apply post_bind, post_call_emit. intros l [[]|e]; lazy beta iota.
  - apply post_ret, HQ.
  - apply post_bind, post_call_getFromCache.
    rewrite (getFromCache_ignoring _ _ _ _ (Hk l)). cbn [fst snd data].
    rewrite Hd. apply post_ret. rewrite with_this_same. apply HQ.
Qed.

Lemma post_try_bind {St A B} (m : M St A) (f : A → M St B) h (w : St) Q :
  post m w (λ r w', match r with
                    | Resolved a => post (try_catch (f a) h) w' Q
                    | Rejected e => post (h e) w' Q
                    end) →
  post (try_catch (m ≫= f) h) w Q.
Proof.
  unfold post, try_catch, mbind, M_bind. by destruct (m w) as [[a|e] w'].
Qed.

Ltac run_to_store :=
  repeat lazymatch goal with
         | |- post (try_catch (call_setCache _ _ ≫= _) _) _ _ => fail
         | _ => run_step
         end.

(** X4. With a timeout that is not negative, a call that gets past the
    reading of its parameters and the making of its key, misses the cache
    and whose Transport resolves with a truthy payload [d] resolves with
    [d], has issued one Transport call, and leaves [d] in the cache under
    the key of the request, stamped with the time at which the answer
    arrived. This holds whatever tasks ran while the call was suspended,
    and for listeners of [dataUpdated] that subscribe, unsubscribe or
    throw; a listener that calls back into the manager or the Transport is
    not covered. *)
Theorem fetch_success_is_cached E k p w d :
  accepts k p = true →
  0 ≤ cacheTimeout (this w) →
  hit (keyOf k p) w = false →
  transport E k p = Resolved d →
  truthy d = true →
  (fetch E k p w).1 = Resolved d
  ∧ cache (this (fetch E k p w).2) !! keyOf k p
    = Some {| data := d; timestamp := clock (fetch E k p w).2 |}
  ∧ length (transport_calls (fetch E k p w).2) = S (length (transport_calls w)).
Proof.
  intros Hacc Hok Hmiss Htr Hd.
  change (post (fetch E k p) w (λ r w',
            r = Resolved d
            ∧ cache (this w') !! keyOf k p = Some {| data := d; timestamp := clock w' |}
            ∧ length (transport_calls w') = S (length (transport_calls w)))).
  unfold hit in Hmiss. unfold transport, via_runtime in Htr.
  assert (Hgo : ∀ w1 c,
            cacheTimeout (this w1) = cacheTimeout (this w) →
            transport_calls w1 = transport_calls w ++ [c] →
            0 ≤ cacheTimeout (this (run_tasks (meanwhile E) w1))
            ∧ length (transport_calls (run_tasks (meanwhile E) w1))
              = S (length (transport_calls w))).
  { intros w1 c Ht Hc. split.
    - apply run_tasks_nonneg. by rewrite Ht.
    - rewrite run_tasks_calls, Hc, length_app. simpl. lia. }
  destruct k; simpl in Hacc;
    unfold fetch, getTrafficData, getRouteSuggestions, getAnalyticsData;
    [ | accepted Hacc | ];
    cbv beta iota delta [keyOf trafficKey analyticsKey] in Hmiss |- *;
    simpl in *;
    (apply post_bind, post_call_getFromCache; lazy beta iota; rewrite Hmiss;
     apply post_try_bind; run_to_store;
     repeat match goal with
            | Hc : chrome _ = _ |- _ => rewrite Hc in Htr; clear Hc
            end;
     try congruence).
  all: match goal with
       | Hp : _ = Resolved ?a |- _ =>
           assert (a = d) as -> by congruence
       end.
  all: match goal with
       | |- post _ (run_tasks _ ?w1) _ =>
           match goal with
           | Hg : ∀ w1' c', _ → _ → _ |- _ =>
               edestruct (Hg w1) as [Hok1 Hcalls];
               [simpl; apply getFromCache_timeout|simpl; reflexivity|]
           end
       end.
  all: match goal with
       | |- post _ ?W _ => revert Hok1 Hcalls; generalize W; intros wa Hok1 Hcalls
       end.
  all: first [ apply (store_announce_return Traffic p)
             | apply (store_announce_return Routes p)
             | apply (store_announce_return Analytics p) ];
       [done|done|]; intros l; simpl;
       (split; [done|]); (split; [|exact Hcalls]);
       by apply setCache_now_lookup.
Qed.

(** X5. The cache keys of two requests of different kinds are
    different: a payload cached for one kind is never served for
    another. *)
Theorem keys_of_different_kinds k p k' p' : keyOf k p = keyOf k' p' → k = k'.
Proof.
  destruct k, k'; try done;
    unfold keyOf, trafficKey, routesKey, analyticsKey; simpl; discriminate.
Qed.

Lemma string_app_assoc (a b c : string) : (a +:+ b) +:+ c = a +:+ b +:+ c.
Proof.
  induction a as [|x a IH]; [done|].
  change (String x ((a +:+ b) +:+ c) = String x (a +:+ b +:+ c)).
  by rewrite IH.
Qed.

(** A fresh entry with truthy data is served without a Transport call. *)
Lemma fetch_fresh_entry E k p w c :
  accepts k p = true →
  cache (this w) !! keyOf k p = Some c →
  clock w - timestamp c ≤ cacheTimeout (this w) →
  truthy (data c) = true →
  fetch E k p w = (Resolved (data c), w).
Proof.
  intros Hacc Hk Hage Htruthy.
  destruct k; simpl in Hacc;
    unfold fetch, getTrafficData, getRouteSuggestions, getAnalyticsData;
    [ | accepted Hacc | ];
    unfold mbind, M_bind, call_getFromCache; simpl in *;
    rewrite (getFromCache_fresh _ _ _ c Hk) by lia; simpl;
    rewrite Htruthy; by rewrite with_this_same.
Qed.

(** X6. The key of a route request joins [from], [to] and
    [departureTime] with underscores, so two requests whose locations
    differ but read the same once joined share a key: the routes cached
    for [from = a_b, to = c] are served, without a Transport call, to
    the request [from = a, to = b_c] (with a [departureTime] that can be
    converted to a text). *)
Theorem routes_key_collision E a b c t w e :
  (∀ s, ToString (VStr s) = s) →
  convertible t = true →
  cache (this w)
    !! routesKey (VObj [("from", VStr (a +:+ "_" +:+ b)); ("to", VStr c);
                        ("departureTime", t)]) = Some e →
  clock w - timestamp e ≤ cacheTimeout (this w) →
  truthy (data e) = true →
  routesKey (VObj [("from", VStr (a +:+ "_" +:+ b)); ("to", VStr c);
                   ("departureTime", t)])
  = routesKey (VObj [("from", VStr a); ("to", VStr (b +:+ "_" +:+ c));
                     ("departureTime", t)])
  ∧ getRouteSuggestions E
      (VObj [("from", VStr a); ("to", VStr (b +:+ "_" +:+ c));
             ("departureTime", t)]) w
    = (Resolved (data e), w).
Proof.
  intros Hstr Ht Hk Hage Htruthy.
  assert (Hkey : routesKey (VObj [("from", VStr (a +:+ "_" +:+ b)); ("to", VStr c);
                                  ("departureTime", t)])
                 = routesKey (VObj [("from", VStr a); ("to", VStr (b +:+ "_" +:+ c));
                                    ("departureTime", t)])).
  { unfold routesKey. simpl. rewrite !Hstr.
    by rewrite !string_app_assoc. }
  split; [done|]. rewrite Hkey in Hk.
  apply (fetch_fresh_entry E Routes _ w e); [|done..].
  unfold accepts, keyed. simpl. by rewrite Ht.
Qed.

End CoordinatorMore.

Section CoordinatorMoreSamples.
Import DataManager CoordinatorSamples MoreSamples.

Lemma fetch_success_is_cached_witness :
  accepts Traffic (VObj []) = true
  ∧ 0 ≤ cacheTimeout (this (initial 5))
  ∧ hit (keyOf (H := sampleBuiltins) Traffic (VObj [])) (initial 5) = false
  ∧ transport
      (answering (VObj [("success", VBool true); ("data", P1)]))
      Traffic (VObj [])
    = Resolved P1
  ∧ truthy P1 = true
  ∧ (fetch (H := sampleBuiltins)
       (answering (VObj [("success", VBool true); ("data", P1)]))
       Traffic (VObj []) (initial 5)).1 = Resolved P1.
Proof.
  split; [reflexivity|].
  split; [simpl; lia|]. split; [reflexivity|].
  split; [reflexivity|]. split; [reflexivity|].
  apply (fetch_success_is_cached (H := sampleBuiltins)
           (answering (VObj [("success", VBool true); ("data", P1)]))
           Traffic (VObj []) (initial 5) P1);
    [reflexivity|simpl; lia|reflexivity|reflexivity|reflexivity].
Defined.

Lemma keys_of_different_kinds_witness :
  keyOf (H := sampleBuiltins) Routes via_north
  = keyOf (H := sampleBuiltins) Routes via_south
  ∧ Routes = Routes.
Proof.
  split; [reflexivity|].
  apply (keys_of_different_kinds (H := sampleBuiltins) Routes via_north
           Routes via_south).
  reflexivity.
Defined.

Lemma routes_key_collision_witness :
  (∀ s, ToString (Builtins := sampleBuiltins) (VStr s) = s)
  ∧ convertible (VStr "now") = true
  ∧ cache (this north_cached) !! routesKey (H := sampleBuiltins) via_north
    = Some {| data := some_routes; timestamp := 0 |}
  ∧ clock north_cached - 0 ≤ cacheTimeout (this north_cached)
  ∧ truthy some_routes = true
  ∧ routesKey (H := sampleBuiltins) via_north
    = routesKey (H := sampleBuiltins) via_south
  ∧ getRouteSuggestions (H := sampleBuiltins) unreachable via_south north_cached
    = (Resolved some_routes, north_cached).
Proof.
  split; [reflexivity|]. split; [reflexivity|].
  split; [vm_compute; reflexivity|].
  split; [vm_compute; discriminate|]. split; [reflexivity|].
  apply (routes_key_collision (H := sampleBuiltins) unreachable
           "Oak" "Park" "Elm" (VStr "now") north_cached
           {| data := some_routes; timestamp := 0 |});
    [reflexivity|reflexivity|vm_compute; reflexivity|vm_compute; discriminate
    |reflexivity].
Defined.

End CoordinatorMoreSamples.

(** ** The event emitter: unsubscribing, throwing listeners *)

Section EmitterMore.
Import Utils.events EmitterSamples EmitterMoreSamples.

Lemma indexOf_fresh id (arr : list handler) :
  id ∉ hid <$> arr → indexOf id arr = None.
Proof.
  unfold indexOf. induction arr as [|h arr IH]; intros Hid; simpl; [done|].
  rewrite fmap_cons, not_elem_of_cons in Hid. destruct Hid as [Hne Hid].
  rewrite decide_False by done.
  specialize (IH Hid). destruct (list_find _ arr) as [[i x]|]; by simplify_eq/=.
Qed.

Lemma indexOf_first (pre : list handler) cb post :
  hid cb ∉ hid <$> pre → indexOf (hid cb) (pre ++ cb :: post) = Some (length pre).
Proof.
  unfold indexOf. induction pre as [|h pre IH]; intros Hid; simpl.
  - by rewrite decide_True.
  - rewrite fmap_cons, not_elem_of_cons in Hid. destruct Hid as [Hne Hid].
    rewrite decide_False by done.
    specialize (IH Hid). destruct (list_find _ (pre ++ cb :: post)) as [[i x]|];
      by simplify_eq/=.
Qed.

Lemma delete_middle {A} (pre : list A) x post :
  delete (length pre) (pre ++ x :: post) = pre ++ post.
Proof. induction pre as [|y pre IH]; simpl; [done|by rewrite IH]. Qed.

(** An [off] for a callback that is not subscribed changes nothing. *)
Lemma off_unknown event id (l : registry) :
  id ∉ hid <$> default [] (l !! event) → (off event id l).1 = l.
Proof.
  intros Hid. unfold off, read. destruct (l !! event) as [arr|].
  - simpl in Hid. by rewrite indexOf_fresh.
  - by destruct (inherited event).
Qed.

(** X7. [off] removes one subscription, the earliest one of the
    callback: the callbacks before it and after it, later subscriptions of
    the same callback included, stay in their order, and the other events
    are untouched. *)
Theorem off_removes_earliest event cb pre post (l : registry) :
  l !! event = Some (pre ++ cb :: post) →
  hid cb ∉ hid <$> pre →
  off event (hid cb) l = (<[event := pre ++ post]> l, Normal).
Proof.
  intros Hl Hid. unfold off. rewrite (read_own _ _ _ Hl).
  rewrite indexOf_first by done. by rewrite delete_middle.
Qed.


Lemma run_actions_throws event good e rest : ∀ (l : registry) arr,
  forallb (keeps event) good = true →
  l !! event = Some arr →
  ∃ l', run_actions (good ++ Throw e :: rest) l = (l', Thrown e).
Proof.
  induction good as [|a good IH]; intros l arr Hall Hl; simpl.
  - by exists l.
  - simpl in Hall. apply andb_prop in Hall as [Ha Hall].
    destruct (run_actions_keeps event [a] l arr) as (l1 & extra & Hrun & Hl1);
      [by simpl; rewrite Ha|done|].
    destruct a as [event' id b|event' id|e']; simpl in Ha; [| |done];
      simpl in Hrun.
    + destruct (on event' _ l) as [l2 [|e2]]; [|done].
      injection Hrun as <-. by eapply IH.
    + destruct (off event' id l) as [l2 [|e2]]; [|done].
      injection Hrun as <-. by eapply IH.
Qed.

Lemma forEach_until_throw event d pre cb post e good rest :
  forallb (well_behaved event d) pre = true →
  body cb d = good ++ Throw e :: rest →
  forallb (keeps event) good = true →
  ∀ m j n (l : registry) extra calls,
    (m + j = length pre)%nat → (m < n)%nat →
    l !! event = Some ((pre ++ cb :: post) ++ extra) →
    ∃ l', forEach n j event d l calls
          = (l', calls ++ (hid <$> drop j pre) ++ [hid cb], Thrown e).
Proof.
  intros Hpre Hbody Hgood.
  induction m as [|m IH]; intros j n l extra calls Hj Hn Hl;
    (destruct n as [|n]; [lia|]); simpl; rewrite Hl; simpl.
  - assert (j = length pre) as -> by lia.
    rewrite <- app_assoc, <- app_comm_cons, list_lookup_middle by done.
    rewrite Hbody.
    destruct (run_actions_throws event good e rest l _ Hgood Hl) as [l' ->].
    exists l'. by rewrite drop_all.
  - destruct (lookup_lt_is_Some_2 pre j) as [h Hh]; [lia|].
    rewrite <- app_assoc, lookup_app_l, Hh by lia.
    assert (Hwb : forallb (keeps event) (body h d) = true).
    { rewrite forallb_forall in Hpre. apply (Hpre h).
      apply list_elem_of_In. by eapply list_elem_of_lookup_2. }
    destruct (run_actions_keeps event _ l _ Hwb Hl) as (l1 & extra1 & Hrun & Hl1).
    rewrite Hrun. rewrite <- app_assoc in Hl1.
    destruct (IH (S j) n l1 (extra ++ extra1) (calls ++ [hid h])) as [l' Hloop];
      [lia|lia|done|].
    exists l'. rewrite Hloop, <- app_assoc. do 2 f_equal.
    by rewrite (drop_S _ _ _ Hh).
Qed.

(** X9. A listener that throws ends the emission: the callbacks
    subscribed before it have been called, it has been called, the ones
    subscribed after it are not called, and [emit] throws what the
    listener threw. (The callbacks before it are taken not to throw nor to
    unsubscribe from this event; the thrower may subscribe or unsubscribe
    elsewhere before it throws; none of them uses an event name inherited
    from [Object.prototype], for which [on] and [off] throw.) *)
Theorem emit_stops_at_throw event d pre cb post e good rest (l : registry) :
  l !! event = Some (pre ++ cb :: post) →
  forallb (well_behaved event d) pre = true →
  body cb d = good ++ Throw e :: rest →
  forallb (keeps event) good = true →
  ∃ l', emit event d l = (l', hid <$> (pre ++ [cb]), Thrown e).
Proof.
  intros Hl Hpre Hbody Hgood. unfold emit. rewrite (read_own _ _ _ Hl).
  destruct (forEach_until_throw event d pre cb post e good rest Hpre Hbody Hgood
              (length pre) 0%nat (length (pre ++ cb :: post)) l [] [])
    as [l' Hrun].
  - lia.
  - rewrite length_app. simpl. lia.
  - by rewrite app_nil_r.
  - exists l'. rewrite Hrun. simpl. by rewrite drop_0, fmap_app.
Qed.

Lemma off_removes_earliest_witness :
  twice !! "dataUpdated" = Some ([] ++ plain :: [plain])
  ∧ (hid plain ∉ hid <$> ([] : list handler))
  ∧ hid <$> default [] ((off "dataUpdated" (hid plain) twice).1 !! "dataUpdated")
    = [2%nat]
  ∧ (off "dataUpdated" (hid plain) twice).2 = Normal.
Proof.
  split; [vm_compute; reflexivity|]. split; [apply not_elem_of_nil|].
  rewrite (off_removes_earliest "dataUpdated" plain [] [plain] twice);
    [split; reflexivity|vm_compute; reflexivity|apply not_elem_of_nil].
Defined.


Lemma emit_stops_at_throw_witness :
  with_faulty !! "dataUpdated" = Some ([plain] ++ faulty :: [recruiter])
  ∧ forallb (well_behaved "dataUpdated" VNull) [plain] = true
  ∧ body faulty VNull = [] ++ Throw (Error "listener failed") :: []
  ∧ forallb (keeps "dataUpdated") [] = true
  ∧ ∃ l', emit "dataUpdated" VNull with_faulty
          = (l', hid <$> ([plain] ++ [faulty]), Thrown (Error "listener failed")).
Proof.
  split; [vm_compute; reflexivity|]. split; [reflexivity|].
  split; [reflexivity|]. split; [reflexivity|].
  apply (emit_stops_at_throw "dataUpdated" VNull [plain] faulty [recruiter]
           (Error "listener failed") [] [] with_faulty);
    [vm_compute; reflexivity|reflexivity|reflexivity|reflexivity].
Defined.

End EmitterMore.

(** ** Utils: departure time, durations, local storage *)

Section UtilsProperties.
Import UtilsMore UtilsSamples.

Lemma optimalHour_best h :
  0 ≤ h < 24 →
  0 ≤ optimalHour h < 24
  ∧ (∃ i, 0 ≤ i ≤ 4 ∧ optimalHour h = (h + i) `mod` 24)
  ∧ ∀ i, 0 ≤ i ≤ 4 →
      num_lt (pattern ((h + i) `mod` 24)) (pattern (optimalHour h)) = false.
Proof.
  intros Hh.
  assert (Hcase : h ∈ Z.of_nat <$> seq 0 24).
  { apply list_elem_of_fmap. exists (Z.to_nat h). split; [lia|].
    apply list_elem_of_In, in_seq. lia. }
  assert (Hall : Forall (λ h,
             (0 ≤ optimalHour h < 24)
             ∧ Exists (λ i, optimalHour h = (h + i) `mod` 24) [0; 1; 2; 3; 4]
             ∧ Forall (λ i, num_lt (pattern ((h + i) `mod` 24))
                                   (pattern (optimalHour h)) = false)
                      [0; 1; 2; 3; 4])
           (Z.of_nat <$> seq 0 24)).
  { apply Forall_forall. intros x Hx.
    let l := eval vm_compute in (Z.of_nat <$> seq 0 24) in change (x ∈ l) in Hx.
    repeat (apply elem_of_cons in Hx as [->|Hx]);
      [..|by apply elem_of_nil in Hx];
      (split; [by vm_compute|]); (split; [|by repeat constructor]);
      vm_compute; repeat first [ by apply Exists_cons_hd | apply Exists_cons_tl ]. }
  rewrite Forall_forall in Hall. destruct (Hall h Hcase) as (Hr & Hex & Hmin).
  split; [done|]. split.
  - apply Exists_exists in Hex as (i & Hi & Heq). exists i. split; [|done].
    repeat (apply elem_of_cons in Hi as [->|Hi]); try lia.
    by apply elem_of_nil in Hi.
  - intros i Hi. rewrite Forall_forall in Hmin. apply Hmin.
    assert (i = 0 ∨ i = 1 ∨ i = 2 ∨ i = 3 ∨ i = 4) as Hc by lia.
    rewrite !elem_of_cons. tauto.
Qed.

(** X10. [getOptimalDepartureTime] returns the start of an hour that
    lies strictly after the call and at most 24 hours after it; that
    hour is the current one or one of the next four, and none of those five
    has a lower value in the traffic table. (When the current hour is
    the best one, the time returned is the start of that hour on the next
    day.) *)
Theorem getOptimalDepartureTime_range now later :
  now ≤ later →
  now < getOptimalDepartureTime now later ≤ later + 86400000
  ∧ getOptimalDepartureTime now later `mod` 3600000 = 0
  ∧ (∃ i, 0 ≤ i ≤ 4
          ∧ getHours (getOptimalDepartureTime now later)
            = (getHours now + i) `mod` 24)
  ∧ ∀ i, 0 ≤ i ≤ 4 →
      num_lt (pattern ((getHours now + i) `mod` 24))
             (pattern (getHours (getOptimalDepartureTime now later))) = false.
Proof.
  intros Hlater.
  assert (Hh : 0 ≤ getHours now < 24) by (apply Z.mod_pos_bound; lia).
  destruct (optimalHour_best _ Hh) as (Hr & Hex & Hmin).
  assert (Hhour : getHours (getOptimalDepartureTime now later)
                  = optimalHour (getHours now)).
  { unfold getOptimalDepartureTime, setHours, nextDay.
    generalize dependent (optimalHour (getHours now)). intros o Hr _ _.
    destruct (Z.leb_spec (later `div` 86400000 * 86400000 + o * 3600000) now);
      unfold getHours; Z.div_mod_to_equations; lia. }
  rewrite Hhour. split; [|split; [|done]].
  - unfold getOptimalDepartureTime, setHours, nextDay.
    generalize dependent (optimalHour (getHours now)). intros o Hr _ _ _.
    destruct (Z.leb_spec (later `div` 86400000 * 86400000 + o * 3600000) now);
      Z.div_mod_to_equations; lia.
  - unfold getOptimalDepartureTime, setHours, nextDay.
    generalize dependent (optimalHour (getHours now)). intros o Hr _ _ _.
    destruct (Z.leb_spec (later `div` 86400000 * 86400000 + o * 3600000) now);
      Z.div_mod_to_equations; lia.
Qed.

Lemma getOptimalDepartureTime_range_witness :
  1700000000000 < getOptimalDepartureTime 1700000000000 1700000000003
    ≤ 1700000000003 + 86400000.
Proof.
  apply (getOptimalDepartureTime_range 1700000000000 1700000000003). lia.
Defined.

Lemma Qfloor_unique z x :
  (inject_Z z <= x)%Q → (x < inject_Z (z + 1))%Q → Qfloor x = z.
Proof.
  intros Hlo Hhi.
  pose proof (Qfloor_le x) as Hle. pose proof (Qlt_floor x) as Hlt.
  assert (Qfloor x < z + 1) by (rewrite Zlt_Qlt; lra).
  assert (z < Qfloor x + 1) by (rewrite Zlt_Qlt; lra).
  lia.
Qed.

Lemma Math_round_bounds x lo hi :
  (inject_Z lo - 0.5 <= x)%Q → (x < inject_Z hi + 0.5)%Q →
  lo ≤ Math_round x ≤ hi.
Proof.
  intros Hlo Hhi. unfold Math_round.
  pose proof (Qfloor_le (x + 0.5)) as Hle. pose proof (Qlt_floor (x + 0.5)) as Hlt.
  rewrite inject_Z_plus in Hlt. change (inject_Z 1) with 1%Q in Hlt.
  split.
  - assert (lo < Qfloor (x + 0.5) + 1); [|lia].
    rewrite Zlt_Qlt, inject_Z_plus. change (inject_Z 1) with 1%Q. lra.
  - assert (Qfloor (x + 0.5) < hi + 1); [|lia].
    rewrite Zlt_Qlt, inject_Z_plus. change (inject_Z 1) with 1%Q. lra.
Qed.

Lemma Math_round_near x :
  (x - 0.5 < inject_Z (Math_round x))%Q ∧ (inject_Z (Math_round x) <= x + 0.5)%Q.
Proof.
  unfold Math_round.
  pose proof (Qfloor_le (x + 0.5)) as Hle. pose proof (Qlt_floor (x + 0.5)) as Hlt.
  rewrite inject_Z_plus in Hlt. change (inject_Z 1) with 1%Q in Hlt. split; lra.
Qed.

Lemma truncate_nonneg x : (0 <= x)%Q → truncate x = Qfloor x.
Proof.
  intros Hx. unfold truncate. destruct x as [n d]. simpl.
  apply Z.quot_div_nonneg; [|lia].
  unfold Qle in Hx. simpl in Hx. lia.
Qed.

(** X11. For a duration from 0 minutes up to 2^53 minutes,
    [formatDuration] shows whole minutes below one hour and full hours
    with the remaining minutes from one hour on; what is shown differs
    from the duration by at most half a minute, and the minutes shown lie
    between 0 and 60, both included. *)
Theorem formatDuration_fields minutes :
  (0 <= minutes)%Q → (minutes <= 9007199254740992)%Q →
  ((minutes < 60)%Q →
     ∃ m, formatDuration minutes = pretty m +:+ " min"
          ∧ 0 ≤ m ≤ 60
          ∧ (minutes - 0.5 < inject_Z m <= minutes + 0.5)%Q)
  ∧ ((60 <= minutes)%Q →
     ∃ h m, formatDuration minutes = pretty h +:+ "h " +:+ pretty m +:+ "min"
            ∧ 1 ≤ h ∧ 0 ≤ m ≤ 60
            ∧ (minutes - 0.5 < 60 * inject_Z h + inject_Z m <= minutes + 0.5)%Q).
Proof.
  intros Hpos _. split; intros Hcmp.
  - exists (Math_round minutes). unfold formatDuration.
    destruct (Qle_bool 60 minutes) eqn:Hb.
    { apply Qle_bool_iff in Hb. lra. }
    split; [done|]. split; [|apply Math_round_near].
    apply Math_round_bounds;
      change (inject_Z 0) with 0%Q; change (inject_Z 60) with 60%Q; lra.
  - unfold formatDuration.
    destruct (Qle_bool 60 minutes) eqn:Hb.
    2:{ apply Qle_bool_iff in Hcmp. congruence. }
    simpl. unfold remainder.
    rewrite truncate_nonneg by (apply Qle_shift_div_l; lra).
    set (h := Qfloor (minutes / 60)).
    pose proof (Qfloor_le (minutes / 60)) as Hle.
    pose proof (Qlt_floor (minutes / 60)) as Hlt.
    fold h in Hle, Hlt. rewrite inject_Z_plus in Hlt.
    change (inject_Z 1) with 1%Q in Hlt.
    assert (Hdiv : (minutes == 60 * (minutes / 60))%Q) by (field).
    set (q := (minutes / 60)%Q) in *.
    exists h, (Math_round (minutes - 60 * inject_Z h)).
    split; [done|].
    pose proof (Math_round_near (minutes - 60 * inject_Z h)) as [Hn1 Hn2].
    split; [|split].
    + assert (1 < h + 1); [|lia]. rewrite Zlt_Qlt, !inject_Z_plus.
      change (inject_Z 1) with 1%Q. lra.
    + apply Math_round_bounds;
      change (inject_Z 0) with 0%Q; change (inject_Z 60) with 60%Q; lra.
    + lra.
Qed.

Lemma formatDuration_fields_witness :
  ∃ h m, formatDuration 119.5 = pretty h +:+ "h " +:+ pretty m +:+ "min"
         ∧ 1 ≤ h ∧ 0 ≤ m ≤ 60
         ∧ (119.5 - 0.5 < 60 * inject_Z h + inject_Z m <= 119.5 + 0.5)%Q.
Proof.
  apply (formatDuration_fields 119.5); by vm_compute.
Defined.

(** X12. The minutes shown by [formatDuration] do reach 60: from
    half a minute before a full hour on, the text is [60 min] below one
    hour and [<h>h 60min] above, not the next hour. *)
Theorem formatDuration_sixty (h : Z) (f : Q) :
  0 ≤ h → (59.5 <= f)%Q → (f < 60)%Q →
  formatDuration (60 * inject_Z h + f)
  = if h =? 0 then "60 min" else pretty h +:+ "h 60min".
Proof.
  intros Hh Hlo Hhi. unfold formatDuration.
  assert (Hh' : (0 <= inject_Z h)%Q) by (change 0%Q with (inject_Z 0); rewrite <- Zle_Qle; done).
  destruct (Z.eqb_spec h 0) as [->|Hne].
  - destruct (Qle_bool 60 _) eqn:Hb.
    { apply Qle_bool_iff in Hb. change (inject_Z 0) with 0%Q in Hb. lra. }
    simpl negb. cbv iota.
    replace (Math_round (60 * inject_Z 0 + f)) with 60; [done|].
    symmetry. unfold Math_round. apply Qfloor_unique;
      change (inject_Z 60) with 60%Q; change (inject_Z (60 + 1)) with 61%Q;
      change (inject_Z 0) with 0%Q in *; lra.
  - assert (Hh1 : (1 <= inject_Z h)%Q) by (change 1%Q with (inject_Z 1); rewrite <- Zle_Qle; lia).
    destruct (Qle_bool 60 _) eqn:Hb.
    2:{ assert (Qle_bool 60 (60 * inject_Z h + f) = true); [|congruence].
        apply Qle_bool_iff. lra. }
    simpl negb. cbv iota. cbv zeta. unfold remainder.
    assert (Hq : Qfloor ((60 * inject_Z h + f) / 60) = h).
    { apply Qfloor_unique.
      - apply Qle_shift_div_l; lra.
      - apply Qlt_shift_div_r; [lra|]. rewrite inject_Z_plus.
        change (inject_Z 1) with 1%Q. lra. }
    rewrite truncate_nonneg by (apply Qle_shift_div_l; lra).
    rewrite Hq.
    replace (Math_round (60 * inject_Z h + f - 60 * inject_Z h)) with 60; [done|].
    symmetry. unfold Math_round. apply Qfloor_unique;
      change (inject_Z 60) with 60%Q; change (inject_Z (60 + 1)) with 61%Q;
      change (inject_Z 0) with 0%Q in *; lra.
Qed.

Lemma formatDuration_sixty_witness :
  formatDuration (60 * inject_Z 1 + 59.5) = "1h 60min".
Proof.
  apply (formatDuration_sixty 1 59.5); [lia|by vm_compute..].
Defined.

(** X13. [Utils.storage]: a value written with [set], the storage
    taking it, is what [get] returns for that key afterwards when
    its JSON text is not empty and parses back to it; the other keys read
    as before, and after [remove] the key reads as the default. *)
Theorem storage_round_trip `{JSON} key v d ls :
  JSON_text v ≠ "" → JSON_parse (JSON_text v) = Some v →
  (set false key v ls).1 = true
  ∧ get key d (set false key v ls).2 = v
  ∧ (∀ key', key' ≠ key → get key' d (set false key v ls).2 = get key' d ls)
  ∧ get key d (remove key (set false key v ls).2).2 = d.
Proof.
  intros Hne Hparse. unfold set, get, remove. simpl.
  split; [done|]. split; [|split].
  - rewrite lookup_insert_eq.
    destruct (String.eqb_spec (JSON_text v) ""); [done|]. by rewrite Hparse.
  - intros key' Hk. by rewrite lookup_insert_ne.
  - by rewrite lookup_delete_eq.
Qed.

End UtilsProperties.

Lemma storage_round_trip_witness :
  UtilsMore.get (H := UtilsSamples.sampleJSON) "seen" VNull
    (UtilsMore.set (H := UtilsSamples.sampleJSON) false "seen" (VBool true) ∅).2
  = VBool true.
Proof.
  apply (storage_round_trip (H := UtilsSamples.sampleJSON) "seen" (VBool true) VNull ∅);
    by vm_compute.
Defined.

(** ** The visit lists over many visits, the content script, pinned routes *)

Section VisitsMore.
Import Storage ContentScript.

Lemma cap_take {A} n (l : list A) :
  (if (n <? length l)%nat then take n l else l) = take n l.
Proof.
  destruct (Nat.ltb_spec n (length l)); [done|]. by rewrite take_ge by lia.
Qed.

Lemma take_cons_take {A} n (x : A) l : take n (x :: take n l) = take n (x :: l).
Proof.
  destruct n; [done|]. simpl. f_equal. rewrite take_take. f_equal. lia.
Qed.

Lemma storePageData_take page s :
  storePageData page s
  = {| visitedSites := Some (take 10 (page :: default [] (visitedSites s)));
       recentTabs := recentTabs s |}.
Proof. unfold storePageData. by rewrite cap_take. Qed.

Lemma storeTabData_take tab s :
  storeTabData tab s
  = {| visitedSites := visitedSites s;
       recentTabs := Some (take 20 (tab :: default [] (recentTabs s))) |}.
Proof. unfold storeTabData. by rewrite cap_take. Qed.

(** X14. After any number of visits stored one after the other, the
    stored history is exactly the ten most recent entries of the visits
    followed by what was stored before, the newest first; the list of tabs
    is not touched. *)
Theorem visits_history pages s :
  pages ≠ [] →
  foldl (λ s page, storePageData page s) s pages
  = {| visitedSites :=
         Some (take 10 (reverse pages ++ default [] (visitedSites s)));
       recentTabs := recentTabs s |}.
Proof.
  induction pages as [|page pages IH] using rev_ind; [done|]. intros _.
  rewrite foldl_app, reverse_app, reverse_singleton. cbn [foldl].
  rewrite storePageData_take.
  destruct pages as [|p0 pages']; [done|].
  rewrite IH by done. cbn -[take reverse]. by rewrite take_cons_take.
Qed.

Lemma visits_history_witness :
  visitedSites
    (foldl (λ s page, storePageData page s)
       {| visitedSites := None; recentTabs := None |}
       [ {| url := "a"; domain := "d"; title := "A"; timestamp := 1 |};
         {| url := "b"; domain := "d"; title := "B"; timestamp := 2 |} ])
  = Some [ {| url := "b"; domain := "d"; title := "B"; timestamp := 2 |};
           {| url := "a"; domain := "d"; title := "A"; timestamp := 1 |} ].
Proof.
  rewrite (visits_history
             [ {| url := "a"; domain := "d"; title := "A"; timestamp := 1 |};
               {| url := "b"; domain := "d"; title := "B"; timestamp := 2 |} ]);
    done.
Defined.

(** X15. [chrome.tabs.onUpdated]: an update whose status is not
    [complete], or whose tab has no url or an empty one, leaves the storage
    as it is; after completed updates of tabs with a url, handled one after
    the other, the stored list is exactly the twenty most recent of them
    followed by what was stored before, the newest first. *)
Theorem tabs_history tabs s :
  (∀ status u title now,
     status ≠ Some "complete" ∨ u = None ∨ u = Some "" →
     onUpdated status u title now s = s)
  ∧ (tabs ≠ [] → Forall (λ t, tab_url t ≠ "") tabs →
     foldl (λ s t, onUpdated (Some "complete") (Some (tab_url t)) (tab_title t)
                     (tab_timestamp t) s) s tabs
     = {| visitedSites := visitedSites s;
          recentTabs := Some (take 20 (reverse tabs ++ default [] (recentTabs s))) |}).
Proof.
  split.
  - intros status u title now Hskip. unfold onUpdated.
    destruct u as [u|]; [|done].
    destruct Hskip as [Hs|[Hu|Hu]].
    + by rewrite bool_decide_false.
    + done.
    + injection Hu as ->. by rewrite andb_false_r.
  - induction tabs as [|t tabs IH] using rev_ind; [done|]. intros _ Hall.
    apply Forall_app in Hall as [Hall Ht]. rewrite Forall_singleton in Ht.
    rewrite foldl_app, reverse_app, reverse_singleton. cbn [foldl].
    unfold onUpdated at 1. rewrite bool_decide_true by done.
    destruct (String.eqb_spec (tab_url t) ""); [done|]. cbn [negb andb].
    rewrite storeTabData_take. destruct t as [u ti ts]. cbn [tab_url tab_title tab_timestamp].
    destruct tabs as [|t0 tabs']; [done|].
    rewrite IH by done. cbn -[take reverse]. by rewrite take_cons_take.
Qed.

Lemma tabs_history_witness :
  recentTabs
    (foldl (λ s t, onUpdated (Some "complete") (Some (tab_url t)) (tab_title t)
                     (tab_timestamp t) s)
       {| visitedSites := None; recentTabs := None |}
       [ {| tab_url := "a"; tab_title := "A"; tab_timestamp := 1 |} ])
  = Some [ {| tab_url := "a"; tab_title := "A"; tab_timestamp := 1 |} ].
Proof.
  rewrite (proj2 (tabs_history
                    [ {| tab_url := "a"; tab_title := "A"; tab_timestamp := 1 |} ]
                    {| visitedSites := None; recentTabs := None |}));
    [done|done|].
  by repeat constructor.
Defined.

(** X16. A navigation through the history to another url is stored
    twice: once by the [popstate] listener, which leaves [currentUrl] as it
    was, and once more by the next run of [checkUrlChange]. *)
Theorem popstate_recorded_twice page1 page2 st :
  currentUrl st ≠ url page1 → url page2 = url page1 →
  let st' := checkUrlChange page2 (popstate page1 st) in
  currentUrl st' = url page1
  ∧ visitedSites (store st')
    = Some (take 10 (page2 :: page1 :: default [] (visitedSites (store st)))).
Proof.
  intros Hne Heq st'. subst st'. unfold checkUrlChange, popstate.
  cbn [currentUrl store]. rewrite Heq.
  destruct (String.eqb_spec (currentUrl st) (url page1)); [done|].
  cbn [currentUrl store]. split; [done|]. rewrite !storePageData_take. cbn -[take].
  f_equal. apply (take_cons_take 10).
Qed.

Lemma popstate_recorded_twice_witness :
  let page1 := {| url := "b"; domain := "d"; title := "B"; timestamp := 5 |} in
  let page2 := {| url := "b"; domain := "d"; title := "B"; timestamp := 900 |} in
  visitedSites
    (store (checkUrlChange page2
              (popstate page1
                 {| currentUrl := "a";
                    store := {| visitedSites := None; recentTabs := None |} |})))
  = Some [page2; page1].
Proof.
  intros page1 page2.
  apply (popstate_recorded_twice page1 page2
           {| currentUrl := "a";
              store := {| visitedSites := None; recentTabs := None |} |});
    done.
Defined.

(** X17. [storePageData] reads the list and writes it back in a
    callback. A visit whose callback is given the storage as it is at that
    time is stored ([callback page s s] is [storePageData page s]); of two
    visits that were both answered from the same storage, the first is lost
    when the second writes, where it would have been kept had the second
    started after the first was stored. *)
Theorem interleaved_visits_lose_one page1 page2 s :
  page1 ≠ page2 → page1 ∉ default [] (visitedSites s) →
  callback page1 s s = storePageData page1 s
  ∧ (page1 ∉ default [] (visitedSites (callback page2 s (callback page1 s s))))
  ∧ (page1 ∈ default [] (visitedSites (storePageData page2 (storePageData page1 s)))).
Proof.
  intros Hne Hold. split; [done|]. split.
  - unfold callback at 1. rewrite cap_take. cbn -[take].
    intros Hin. apply (subseteq_take 10) in Hin.
    apply elem_of_cons in Hin as [?|?]; done.
  - rewrite !storePageData_take. cbn -[take]. rewrite <- take_cons_take.
    cbn. set_solver.
Qed.

Lemma interleaved_visits_lose_one_witness :
  let page1 := {| url := "a"; domain := "d"; title := "A"; timestamp := 1 |} in
  let page2 := {| url := "b"; domain := "d"; title := "B"; timestamp := 2 |} in
  let s := {| visitedSites := None; recentTabs := None |} in
  callback page1 s s = storePageData page1 s
  ∧ (page1 ∉ default [] (visitedSites (callback page2 s (callback page1 s s))))
  ∧ (page1 ∈ default [] (visitedSites (storePageData page2 (storePageData page1 s)))).
Proof.
  intros page1 page2 s.
  apply (interleaved_visits_lose_one page1 page2 s); [done|].
  apply not_elem_of_nil.
Defined.

(** X18. After the script is loaded and [checkUrlChange] has run any
    number of times, the newest stored visit is the one of [currentUrl],
    and a run that finds the location unchanged changes nothing. *)
Theorem polling_tracks_location page0 s pages :
  let st := foldl (λ st page, checkUrlChange page st) (load page0 s) pages in
  (∃ newest older,
     visitedSites (store st) = Some (newest :: older)
     ∧ url newest = currentUrl st)
  ∧ ∀ page, url page = currentUrl st → checkUrlChange page st = st.
Proof.
  intros st. subst st. split.
  - induction pages as [|page pages IH] using rev_ind.
    + cbn [foldl load store currentUrl]. rewrite storePageData_take.
      cbn -[take]. eauto.
    + rewrite foldl_app. cbn [foldl]. unfold checkUrlChange at 1 3.
      destruct (String.eqb_spec
                  (currentUrl (foldl (λ st page, checkUrlChange page st)
                                 (load page0 s) pages)) (url page)); [done|].
      cbn [store currentUrl]. rewrite storePageData_take. cbn -[take]. eauto.
  - intros page Hsame. unfold checkUrlChange at 1.
    rewrite <- Hsame. by rewrite String.eqb_refl.
Qed.

Lemma polling_tracks_location_witness :
  let page := {| url := "a"; domain := "d"; title := "A"; timestamp := 1 |} in
  let st := load page {| visitedSites := None; recentTabs := None |} in
  checkUrlChange {| url := "a"; domain := "d"; title := "A"; timestamp := 1001 |} st
  = st.
Proof.
  intros page st.
  apply (polling_tracks_location page
           {| visitedSites := None; recentTabs := None |} []).
  reflexivity.
Defined.

End VisitsMore.

Section PinnedMore.
Import PinnedRoutes.

(** X19. Removing a pinned route by the id it was given when pinned
    gives back the list as it was stored before, provided no stored route
    has that id; two routes pinned at the same reading of the clock have
    the same id and are removed together; and an id that is not a string
    removes nothing. *)
Theorem pinned_add_then_remove now later later' route route' stored :
  Forall (λ r, id r ≠ pretty now) (default [] stored) →
  removePinnedRoute (VStr (pretty now))
    (Some (addPinnedRoute now later route stored)) = default [] stored
  ∧ removePinnedRoute (VStr (pretty now))
      (Some (addPinnedRoute now later' route'
               (Some (addPinnedRoute now later route stored)))) = default [] stored
  ∧ ∀ q, removePinnedRoute (VNum q) stored = default [] stored.
Proof.
  unfold removePinnedRoute, addPinnedRoute. cbn [from_option].
  generalize (default [] stored). intros l Hfresh. unfold Datatypes.id.
  assert (Hkeep : filter (λ r, differs (id r) (VStr (pretty now)) = true) l = l).
  { induction l as [|r l IH]; [done|].
    apply Forall_cons in Hfresh as [Hr Hl].
    rewrite filter_cons_True; [by rewrite IH|].
    simpl. by destruct (String.eqb_spec (id r) (pretty now)). }
  rewrite !filter_app, Hkeep.
  rewrite !filter_cons_False, !filter_nil, ?app_nil_r;
    try (simpl; rewrite String.eqb_refl; done).
  split; [done|]. split; [done|].
  intros q. clear. induction l as [|r l IH]; [done|].
  rewrite filter_cons_True by done. by rewrite IH.
Qed.

Lemma pinned_add_then_remove_witness :
  removePinnedRoute (VStr (pretty 7))
    (Some (addPinnedRoute 7 8 [("name", VStr "Home")] None)) = [].
Proof.
  apply (pinned_add_then_remove 7 8 8 [("name", VStr "Home")] [] None).
  constructor.
Defined.

End PinnedMore.

(** ** The mock payloads *)

Section Generators.
Import MockData.

Lemma yields_ret {St A} (I : St → Prop) (a : A) (P : A → Prop) :
  P a → yields I (mret a) P.
Proof. intros Ha w Hw. by exists a. Qed.

Lemma yields_bind {St A B} (I : St → Prop) (m : M St A) (f : A → M St B)
    (P : A → Prop) (R : B → Prop) :
  yields I m P → (∀ a, P a → yields I (f a) R) → yields I (m ≫= f) R.
Proof.
  intros Hm Hf w Hw. unfold mbind, M_bind.
  destruct (Hm w Hw) as (a & Ha & HP & HI).
  destruct (m w) as [r w']. simpl in *. subst r. by apply Hf.
Qed.

Lemma yields_mono {St A} (I : St → Prop) (m : M St A) (P R : A → Prop) :
  yields I m P → (∀ a, P a → R a) → yields I m R.
Proof.
  intros Hm HPR w Hw. destruct (Hm w Hw) as (a & Ha & HP & HI). eauto.
Qed.

Lemma yields_random_any (I : rng → Prop) :
  (∀ r, I r → I {| draws := draws r; taken := S (taken r) |}) →
  yields I Math_random (λ _, True).
Proof. intros HI r Hr. eexists. split; [done|]. split; [done|]. by apply HI. Qed.

Lemma yields_random_unit :
  yields unit_draws Math_random (λ x, (0 <= x)%Q ∧ (x < 1)%Q).
Proof. intros r Hr. eexists. split; [done|]. split; [apply Hr|]. apply Hr. Qed.

Lemma yields_for_push {St A} (I : St → Prop) (body : nat → M St A)
    (P : nat → A → Prop) :
  (∀ i, yields I (body i) (P i)) →
  ∀ n i, yields I (for_push body i n)
           (λ items, length items = n
                     ∧ ∀ k x, items !! k = Some x → P (i + k)%nat x).
Proof.
  intros Hbody. induction n as [|n IH]; intros i; simpl.
  - apply yields_ret. split; [done|]. intros k x Hk. done.
  - eapply yields_bind; [apply Hbody|]. intros x Hx.
    eapply yields_bind; [apply (IH (S i))|]. intros rest [Hlen Hrest].
    apply yields_ret. split; [simpl; by rewrite Hlen|].
    intros [|k] y Hk; simpl in Hk.
    + injection Hk as <-. by rewrite Nat.add_0_r.
    + replace (i + S k)%nat with (S i + k)%nat by lia. by apply Hrest.
Qed.

Lemma yields_random_of r0 :
  yields (draws_of r0) Math_random (λ x, ∃ n, x = draws r0 n).
Proof.
  intros r Hr. eexists. split; [done|]. split; [|done].
  exists (taken r). simpl. by rewrite Hr.
Qed.

Lemma clamp01_bounds x : (0 <= clamp01 x)%Q ∧ (clamp01 x <= 1)%Q.
Proof.
  unfold clamp01, max2, min2.
  destruct (Qle_bool 1 x) eqn:H1.
  - simpl. split; lra.
  - destruct (Qle_bool 0 x) eqn:H0.
    + apply Qle_bool_iff in H0.
      assert (¬ (1 <= x)%Q) by (rewrite <- Qle_bool_iff; congruence).
      split; lra.
    + split; lra.
Qed.

Lemma speed_bounds c :
  (0 <= c)%Q → (c <= 1)%Q → 20 ≤ Math_round ((1 - c) * 80 + 20) ≤ 100.
Proof.
  intros H0 H1. apply Math_round_bounds;
    change (inject_Z 20) with 20%Q; change (inject_Z 100) with 100%Q; lra.
Qed.

Lemma pickRoadType_unit x :
  (0 <= x)%Q → (x < 1)%Q → ∃ kind, pickRoadType x = Some kind ∧ kind ∈ roadTypes.
Proof.
  intros H0 H1. unfold pickRoadType.
  pose proof (Qfloor_le (x * 3)) as Hle. pose proof (Qlt_floor (x * 3)) as Hlt.
  rewrite inject_Z_plus in Hlt. change (inject_Z 1) with 1%Q in Hlt.
  assert (Hlo : -1 < Qfloor (x * 3)).
  { rewrite Zlt_Qlt. change (inject_Z (-1)) with (-1)%Q. lra. }
  assert (Hhi : Qfloor (x * 3) < 3).
  { rewrite Zlt_Qlt. change (inject_Z 3) with 3%Q. lra. }
  assert (Hc : Qfloor (x * 3) = 0 ∨ Qfloor (x * 3) = 1 ∨ Qfloor (x * 3) = 2) by lia.
  unfold roadTypes.
  destruct Hc as [->|[->| ->]]; simpl; eexists; (split; [done|]); set_solver.
Qed.

(** What both generators give for a point. *)
Lemma managerPoint_spec base now i r0 :
  yields (draws_of r0) (managerPoint base now i)
    (λ p, id p = "point_" +:+ pretty i
          ∧ ((0 <= congestion p)%Q ∧ (congestion p <= 1)%Q)
          ∧ 20 ≤ speed p ≤ 100
          ∧ timestamp p = now i
          ∧ (unit_draws r0 →
             between 40.6128 40.8128 (lat p)
             ∧ between (-74.1060) (-73.9060) (lng p)
             ∧ ∃ kind, roadType p = Some kind ∧ kind ∈ roadTypes)).
Proof.
  unfold managerPoint, between, rounding.
  eapply yields_bind; [apply yields_random_of|]. intros r1 [n1 ->].
  eapply yields_bind; [apply yields_random_of|]. intros r2 [n2 ->].
  eapply yields_bind; [apply yields_random_of|]. intros r3 [n3 ->].
  eapply yields_bind; [apply yields_random_of|]. intros r4 [n4 ->].
  apply yields_ret. cbn [id congestion speed timestamp lat lng roadType].
  pose proof (clamp01_bounds (base + (draws r0 n1 - 0.5) * 0.4)) as [Hc0 Hc1].
  split; [done|]. split; [done|]. split; [by apply speed_bounds|].
  split; [done|]. intros Hunit.
  destruct (Hunit n2) as [? ?]. destruct (Hunit n3) as [? ?].
  destruct (Hunit n4) as [? ?].
  split; [split; lra|]. split; [split; lra|]. by apply pickRoadType_unit.
Qed.

Lemma workerPoint_spec base now i r0 :
  yields (draws_of r0) (workerPoint base now i)
    (λ p, id p = "point_" +:+ pretty i
          ∧ ((0 <= congestion p)%Q ∧ (congestion p <= 1)%Q)
          ∧ 20 ≤ speed p ≤ 100
          ∧ timestamp p = now i
          ∧ roadType p = None
          ∧ (unit_draws r0 →
             ((40.6628 <= lat p)%Q ∧ (lat p < 40.7628)%Q)
             ∧ ((-74.0560 <= lng p)%Q ∧ (lng p < -73.9560)%Q))).
Proof.
  unfold workerPoint.
  eapply yields_bind; [apply yields_random_of|]. intros r1 [n1 ->].
  eapply yields_bind; [apply yields_random_of|]. intros r2 [n2 ->].
  eapply yields_bind; [apply yields_random_of|]. intros r3 [n3 ->].
  apply yields_ret. cbn [id congestion speed timestamp lat lng roadType].
  pose proof (clamp01_bounds (base + (draws r0 n1 - 0.5) * 0.4)) as [Hc0 Hc1].
  split; [done|]. split; [done|]. split; [by apply speed_bounds|].
  split; [done|]. split; [done|]. intros Hunit.
  destruct (Hunit n2) as [? ?]. destruct (Hunit n3) as [? ?].
  split; split; lra.
Qed.

(** X20. [DataManager.generateMockTrafficData] always returns 50
    points, whatever [Math.random()] gives: the point of index [k] has the
    id [point_k], a congestion between 0 and 1 and a speed between 20 and
    100, and [totalPoints] is 50; when the draws lie in [0, 1), every point
    lies within 0.1 degree of the centre (40.7128, -74.0060), both ends
    included and rounding apart, and has one of the three road types. *)
Theorem manager_traffic_points currentHour now r :
  ∃ d, (managerTrafficData currentHour now r).1 = Resolved d
       ∧ length (points d) = 50%nat
       ∧ totalPoints (summary d) = 50%nat
       ∧ ∀ k p, points d !! k = Some p →
           id p = "point_" +:+ pretty k
           ∧ ((0 <= congestion p)%Q ∧ (congestion p <= 1)%Q)
           ∧ 20 ≤ speed p ≤ 100
           ∧ (unit_draws r →
              between 40.6128 40.8128 (lat p)
              ∧ between (-74.1060) (-73.9060) (lng p)
              ∧ ∃ kind, roadType p = Some kind ∧ kind ∈ roadTypes).
Proof.
  pose proof (yields_for_push (draws_of r) _ _
                (λ i, managerPoint_spec (baseCongestion currentHour) now i r)
                50%nat 0%nat r eq_refl) as (pts & Hpts & [Hlen Hall] & _).
  unfold managerTrafficData, mbind, M_bind.
  destruct (for_push _ 0 50 r) as [res r']. simpl in Hpts. subst res.
  eexists. split; [done|]. cbn [points summary totalPoints fst].
  split; [done|]. split; [done|].
  intros k p Hk. destruct (Hall k p Hk) as (? & ? & ? & ? & ?). done.
Qed.

(** X21. [TrafficAnalyzerBackground.generateMockTrafficData] always
    returns 50 points, whatever [Math.random()] gives: the point of index
    [k] has the id [point_k], a congestion between 0 and 1, a speed between
    20 and 100 and no road type; when the draws lie in [0, 1), every point
    lies within 0.05 degree of the centre. *)
Theorem worker_traffic_points hour now r :
  ∃ d, (workerTrafficData hour now r).1 = Resolved d
       ∧ length (points d) = 50%nat
       ∧ totalPoints (summary d) = 50%nat
       ∧ ∀ k p, points d !! k = Some p →
           id p = "point_" +:+ pretty k
           ∧ ((0 <= congestion p)%Q ∧ (congestion p <= 1)%Q)
           ∧ 20 ≤ speed p ≤ 100
           ∧ roadType p = None
           ∧ (unit_draws r →
              ((40.6628 <= lat p)%Q ∧ (lat p < 40.7628)%Q)
              ∧ ((-74.0560 <= lng p)%Q ∧ (lng p < -73.9560)%Q)).
Proof.
  pose proof (yields_for_push (draws_of r) _ _
                (λ i, workerPoint_spec (baseCongestion hour) now i r)
                50%nat 0%nat r eq_refl) as (pts & Hpts & [Hlen Hall] & _).
  unfold workerTrafficData, mbind, M_bind.
  destruct (for_push _ 0 50 r) as [res r']. simpl in Hpts. subst res.
  eexists. split; [done|]. cbn [points summary totalPoints fst].
  split; [done|]. split; [done|].
  intros k p Hk. destruct (Hall k p Hk) as (? & ? & ? & ? & ? & ?). done.
Qed.

Lemma constant_draws_unit : unit_draws (constant_draws 0.5).
Proof. intros n. split; by vm_compute. Qed.

Lemma manager_traffic_points_witness :
  ∃ d, (managerTrafficData 8 (λ _, 0) (constant_draws 0.5)).1 = Resolved d
       ∧ ∀ k p, points d !! k = Some p →
           ∃ kind, roadType p = Some kind ∧ kind ∈ roadTypes.
Proof.
  destruct (manager_traffic_points 8 (λ _, 0) (constant_draws 0.5))
    as (d & Hd & _ & _ & Hall).
  exists d. split; [exact Hd|]. intros k p Hk.
  apply (Hall k p Hk). apply constant_draws_unit.
Defined.

Lemma worker_traffic_points_witness :
  ∃ d, (workerTrafficData 8 (λ _, 0) (constant_draws 0.5)).1 = Resolved d
       ∧ ∀ k p, points d !! k = Some p →
           (40.6628 <= lat p)%Q ∧ (lat p < 40.7628)%Q.
Proof.
  destruct (worker_traffic_points 8 (λ _, 0) (constant_draws 0.5))
    as (d & Hd & _ & _ & Hall).
  exists d. split; [exact Hd|]. intros k p Hk.
  apply (Hall k p Hk). apply constant_draws_unit.
Defined.

End Generators.

(** ** The generated routes *)

Section Routes.

Lemma sort_insert_Permutation {A} cmp (x : A) l : sort_insert cmp x l ≡ₚ x :: l.
Proof.
  induction l as [|y l IH]; simpl; [done|].
  destruct (cmp x y <=? 0); [done|]. rewrite IH. apply Permutation_swap.
Qed.

Lemma sort_Permutation {A} cmp (l : list A) : sort cmp l ≡ₚ l.
Proof.
  unfold sort. induction l as [|x l IH]; simpl; [done|].
  by rewrite sort_insert_Permutation, IH.
Qed.

Lemma duration_bounds base factor lo hi :
  (inject_Z lo <= base * (1 + factor * 0.5))%Q →
  (base * (1 + factor * 0.5) < inject_Z hi + 0.5)%Q →
  lo ≤ Math_round (base * (1 + factor * 0.5)) ≤ hi.
Proof. intros. apply Math_round_bounds; lra. Qed.

Lemma TimeClip_floor x :
  (0 <= x)%Q → (x <= 8640000000000000)%Q → TimeClip x = Some (Qfloor x).
Proof.
  intros H0 H1. unfold TimeClip.
  assert (Qle_bool (-8640000000000000) x = true) as -> by (apply Qle_bool_iff; lra).
  assert (Qle_bool x 8640000000000000 = true) as -> by (by apply Qle_bool_iff).
  simpl. f_equal. unfold truncate. destruct x as [n d]. simpl.
  apply Z.quot_div_nonneg; [|lia].
  unfold Qle in H0. simpl in H0. lia.
Qed.

(** The time value of a Date made from a reading of the clock plus a
    delay of at most two hours. *)
Lemma TimeClip_after now delay lo hi :
  0 ≤ now ≤ 4503599627370496 →
  (inject_Z lo <= delay)%Q → (delay < inject_Z hi)%Q →
  0 ≤ lo → hi ≤ 7200000 →
  ∃ t, TimeClip (inject_Z now + delay) = Some t ∧ now + lo ≤ t < now + hi.
Proof.
  intros [Hn0 Hn1] Hlo Hhi Hl0 Hh1.
  assert (Hn0' : (0 <= inject_Z now)%Q)
    by (change 0%Q with (inject_Z 0); by rewrite <- Zle_Qle).
  assert (Hn1' : (inject_Z now <= 4503599627370496)%Q)
    by (change 4503599627370496%Q with (inject_Z 4503599627370496);
        by rewrite <- Zle_Qle).
  assert (Hl0' : (0 <= inject_Z lo)%Q)
    by (change 0%Q with (inject_Z 0); by rewrite <- Zle_Qle).
  assert (Hh1' : (inject_Z hi <= 7200000)%Q)
    by (change 7200000%Q with (inject_Z 7200000); by rewrite <- Zle_Qle).
  exists (Qfloor (inject_Z now + delay)). split.
  - apply TimeClip_floor; lra.
  - pose proof (Qfloor_le (inject_Z now + delay)) as Hle.
    pose proof (Qlt_floor (inject_Z now + delay)) as Hlt.
    rewrite inject_Z_plus in Hlt. change (inject_Z 1) with 1%Q in Hlt.
    split.
    + assert (now + lo < Qfloor (inject_Z now + delay) + 1); [|lia].
      rewrite Zlt_Qlt, !inject_Z_plus. change (inject_Z 1) with 1%Q. lra.
    + rewrite Zlt_Qlt, inject_Z_plus. lra.
Qed.

Lemma banded_spec t1 t2 n1 n2 n3 x :
  (t1 <= t2)%Q →
  banded t1 t2 n1 n2 n3 x
    (if Qle_bool x t1 then n1 else if Qle_bool x t2 then n2 else n3).
Proof.
  intros Ht. unfold banded, between, rounding.
  destruct (Qle_bool x t1) eqn:H1.
  { apply Qle_bool_iff in H1. left. split; [done|lra]. }
  assert (¬ (x <= t1)%Q) by (rewrite <- Qle_bool_iff; congruence).
  destruct (Qle_bool x t2) eqn:H2.
  { apply Qle_bool_iff in H2. right. left. split; [done|]. split; lra. }
  assert (¬ (x <= t2)%Q) by (rewrite <- Qle_bool_iff; congruence).
  right. right. split; [done|lra].
Qed.

Lemma manager_polylinePoint_spec :
  yields unit_draws DataManager.polylinePoint
    (λ pt, near 40.7128 0.05 (lat pt) ∧ near (-74.0060) 0.05 (lng pt)).
Proof.
  unfold DataManager.polylinePoint.
  eapply yields_bind; [apply yields_random_unit|]. intros a [? ?].
  eapply yields_bind; [apply yields_random_unit|]. intros b [? ?].
  apply yields_ret. cbn [lat lng]. unfold near, between, rounding.
  split; eexists; (split; [done|]); split; lra.
Qed.

Lemma mockRoute_spec now i :
  clock_readings now →
  yields unit_draws (DataManager.mockRoute now i)
    (λ rt, (id rt, name rt) = ("route_" +:+ pretty i,
                               default "" (DataManager.routeNames !! i))
           ∧ 15000 ≤ distance rt ≤ 25000
           ∧ 22 ≤ duration rt ≤ 60
           ∧ between 0.2 1 (congestion rt)
           ∧ banded 0.3 0.7 "smooth" "moderate" "heavy"
               (congestion rt) (status rt)
           ∧ (∃ t, eta rt = Some t
                   ∧ now i + 780000 ≤ t ≤ now i + 4500001)
           ∧ length (polyline rt) = 21%nat
           ∧ Forall (λ pt, near 40.7128 0.05 (lat pt)
                           ∧ near (-74.0060) 0.05 (lng pt)) (polyline rt)
           ∧ (tollCost rt = VNull ∨ ∃ s, tollCost rt = VStr s)).
Proof.
  intros Hnow. unfold DataManager.mockRoute.
  eapply yields_bind; [apply yields_random_unit|]. intros r1 [? ?].
  eapply yields_bind; [apply yields_random_unit|]. intros r2 [? ?].
  eapply yields_bind; [apply yields_random_unit|]. intros r3 [? ?].
  eapply yields_bind.
  { apply (yields_for_push unit_draws _ (λ _, _)
             (λ _, manager_polylinePoint_spec) 21 0). }
  intros line [Hlen Hline].
  eapply yields_bind; [apply yields_random_unit|]. intros r4 [? ?].
  eapply yields_bind; [apply yields_random_unit|]. intros r5 [? ?].
  eapply yields_bind
    with (P := λ toll, toll = VNull ∨ ∃ s, toll = VStr s).
  { destruct (Qlt_le_dec r5 0.4).
    - eapply yields_bind; [apply yields_random_unit|]. intros r6 _.
      apply yields_ret. right. by eexists.
    - apply yields_ret. by left. }
  intros toll Htoll. apply yields_ret.
  cbn [id name distance duration congestion status eta polyline tollCost].
  split; [done|].
  split. { apply Math_round_bounds;
           change (inject_Z 15000) with 15000%Q;
           change (inject_Z 25000) with 25000%Q; lra. }
  split. { apply duration_bounds;
           change (inject_Z 22) with 22%Q; change (inject_Z 60) with 60%Q; nra. }
  split; [unfold between, rounding; split; lra|].
  split; [apply banded_spec; lra|].
  split.
  { unfold Utils.calculateETA.
    set (sp := ((1 - (0.2 + r3 * 0.8)) * 60 + 20)%Q).
    assert (Hsp : (20 < sp)%Q ∧ (sp <= 68)%Q) by (unfold sp; split; lra).
    destruct (Qeq_bool sp 0) eqn:Hz.
    { apply Qeq_bool_iff in Hz. lra. }
    set (q := ((15000 + r1 * 10000) / 1000 / sp)%Q).
    clearbody sp. destruct Hsp as [Hsp1 Hsp2].
    assert (Hq1 : (0.22 < q)%Q).
    { unfold q. apply Qlt_shift_div_l; [lra|].
      apply Qlt_shift_div_l; lra. }
    assert (Hq2 : (q < 1.25)%Q).
    { unfold q. apply Qlt_shift_div_r; [lra|].
      apply Qlt_shift_div_r; lra. }
    clearbody q.
    destruct (TimeClip_after (now i) (q * 60 * 60 * 1000) 780000 4500000
                (Hnow i)) as (t & Ht & Hrange).
    - change (inject_Z 780000) with 780000%Q. lra.
    - change (inject_Z 4500000) with 4500000%Q. lra.
    - lia.
    - lia.
    - exists t. split; [done|lia]. }
  split; [done|]. split; [|done].
  apply Forall_lookup. intros k pt Hk. by apply (Hline k pt).
Qed.

(** X22. With draws of [Math.random()] in [0, 1) and readings of the
    clock in the range of [clock_readings], [DataManager.generateMockRoutes]
    returns the three routes [route_0] [Via Highway], [route_1]
    [Scenic Route] and [route_2] [Fastest Route] in some order; each has a
    distance from 15000 to 25000, a duration from 22 to 60, a congestion
    from 0.2 to 1 (both included, rounding apart) with the status of its
    band (up to 0.3, up to 0.7, above), an arrival time from 13 to 75
    minutes after its reading of the clock, a polyline of 21 points within
    0.05 degree of the centre, and a toll that is [null] or a text. *)
Theorem manager_mock_routes now r :
  clock_readings now →
  unit_draws r →
  ∃ routes,
    (DataManager.generateMockRoutes now r).1 = Resolved routes
    ∧ (λ rt, (id rt, name rt)) <$> routes
      ≡ₚ [("route_0", "Via Highway"); ("route_1", "Scenic Route");
          ("route_2", "Fastest Route")]
    ∧ Forall (λ rt,
        15000 ≤ distance rt ≤ 25000
        ∧ 22 ≤ duration rt ≤ 60
        ∧ between 0.2 1 (congestion rt)
        ∧ banded 0.3 0.7 "smooth" "moderate" "heavy"
            (congestion rt) (status rt)
        ∧ (∃ i t, (i < 3)%nat ∧ id rt = "route_" +:+ pretty i
                  ∧ eta rt = Some t
                  ∧ now i + 780000 ≤ t ≤ now i + 4500001)
        ∧ length (polyline rt) = 21%nat
        ∧ Forall (λ pt, near 40.7128 0.05 (lat pt)
                        ∧ near (-74.0060) 0.05 (lng pt)) (polyline rt)
        ∧ (tollCost rt = VNull ∨ ∃ s, tollCost rt = VStr s)) routes.
Proof.
  intros Hnow Hunit.
  destruct (yields_for_push unit_draws _ _ (λ i, mockRoute_spec now i Hnow)
              3 0 r Hunit)
    as (routes & Hr & [Hlen Hall] & _).
  unfold DataManager.generateMockRoutes, mbind, M_bind.
  destruct (for_push _ 0 3 r) as [res r']. simpl in Hr. subst res.
  exists (sort byDuration routes). split; [done|].
  rewrite !(sort_Permutation byDuration routes).
  destruct routes as [|r0 [|r1 [|r2 [|]]]]; try done.
  destruct (Hall 0%nat r0 eq_refl) as (Hn0 & ? & ? & ? & ? & (t0 & ? & ?) & ?).
  destruct (Hall 1%nat r1 eq_refl) as (Hn1 & ? & ? & ? & ? & (t1 & ? & ?) & ?).
  destruct (Hall 2%nat r2 eq_refl) as (Hn2 & ? & ? & ? & ? & (t2 & ? & ?) & ?).
  split.
  - change ([(id r0, name r0); (id r1, name r1); (id r2, name r2)]
            ≡ₚ [("route_0", "Via Highway"); ("route_1", "Scenic Route");
                ("route_2", "Fastest Route")]).
    rewrite Hn0, Hn1, Hn2. by vm_compute.
  - injection Hn0 as Hid0 _. injection Hn1 as Hid1 _. injection Hn2 as Hid2 _.
    cbn [Nat.add] in *.
    apply Forall_cons; split.
    { do 4 (split; [done|]). split; [|done]. exists 0%nat, t0. by repeat split; try lia. }
    apply Forall_cons; split.
    { do 4 (split; [done|]). split; [|done]. exists 1%nat, t1. by repeat split; try lia. }
    apply Forall_cons; split; [|by apply Forall_nil].
    do 4 (split; [done|]). split; [|done]. exists 2%nat, t2. by repeat split; try lia.
Qed.

Lemma manager_mock_routes_witness :
  ∃ routes,
    (DataManager.generateMockRoutes (λ _, 0) (constant_draws 0.5)).1
    = Resolved routes
    ∧ Forall (λ rt, 22 ≤ duration rt ≤ 60) routes.
Proof.
  destruct (manager_mock_routes (λ _, 0) (constant_draws 0.5))
    as (routes & Hr & _ & Hall).
  - intros i. lia.
  - apply constant_draws_unit.
  - exists routes. split; [exact Hr|].
    eapply Forall_impl; [exact Hall|]. intros rt (_ & Hd & _). exact Hd.
Defined.

Section WorkerRoutes.
Context `{Builtins}.

Lemma yields_ret_bind {St A B} (I : St → Prop) (a : A) (f : A → M St B) R :
  yields I (f a) R → yields I (mret a ≫= f) R.
Proof. intros Hf w Hw. exact (Hf w Hw). Qed.

Lemma coordinate_located v prop q :
  get_prop v prop = VNum q →
  TrafficAnalyzerBackground.coordinate v prop = mret (VNum q).
Proof.
  intros Hq. destruct v; simpl in Hq; try discriminate.
  unfold TrafficAnalyzerBackground.coordinate. simpl. by rewrite Hq.
Qed.

Lemma coordinate_present v prop :
  nullish v = false →
  TrafficAnalyzerBackground.coordinate v prop = mret (get_prop v prop).
Proof. intros Hv. unfold TrafficAnalyzerBackground.coordinate. by rewrite Hv. Qed.

Lemma worker_polylinePoint_spec from to a b c d i :
  located from a b → located to c d →
  yields unit_draws (TrafficAnalyzerBackground.polylinePoint from to i)
    (λ pt, near (a + (c - a) * (inject_Z (Z.of_nat i) / 20)) 0.005 (lat pt)
           ∧ near (b + (d - b) * (inject_Z (Z.of_nat i) / 20)) 0.005 (lng pt)).
Proof.
  intros [Ha Hb] [Hc Hd]. unfold TrafficAnalyzerBackground.polylinePoint.
  rewrite !(coordinate_located from "lat" a Ha),
          !(coordinate_located from "lng" b Hb),
          (coordinate_located to "lat" c Hc),
          (coordinate_located to "lng" d Hd).
  unfold TrafficAnalyzerBackground.minus, TrafficAnalyzerBackground.plus.
  repeat (rewrite ?M_ret_bind; cbn beta iota delta [convertible andb]).
  eapply yields_bind; [apply yields_random_unit|]. intros x [? ?].
  eapply yields_bind; [apply yields_random_unit|]. intros y [? ?].
  apply yields_ret.
  cbn [lat lng TrafficAnalyzerBackground.plus_offset ToNumber
       num_add num_mul num_sub].
  unfold near, between, rounding.
  split; eexists; (split; [done|]); split; lra.
Qed.

Lemma suggestedRoute_spec now from to a b c d i :
  clock_readings now →
  located from a b → located to c d →
  yields unit_draws (TrafficAnalyzerBackground.suggestedRoute now from to i)
    (λ rt, (id rt, name rt)
           = ("route_" +:+ pretty i, "Route " +:+ pretty (i + 1)%nat)
           ∧ 15000 ≤ distance rt ≤ 25000
           ∧ 23 ≤ duration rt ≤ 60
           ∧ between 0.3 1 (congestion rt)
           ∧ banded 0.4 0.7 "optimal" "moderate" "congested"
               (congestion rt) (status rt)
           ∧ (∃ t, eta rt = Some t
                   ∧ now i + duration rt * 60000 - 30002 ≤ t
                     ≤ now i + duration rt * 60000 + 30002)
           ∧ length (polyline rt) = 21%nat
           ∧ (∀ k pt, polyline rt !! k = Some pt →
                near (a + (c - a) * (inject_Z (Z.of_nat k) / 20)) 0.005 (lat pt)
                ∧ near (b + (d - b) * (inject_Z (Z.of_nat k) / 20)) 0.005 (lng pt))
           ∧ tollCost rt = VUndefined).
Proof.
  intros Hnow Hfrom Hto. unfold TrafficAnalyzerBackground.suggestedRoute.
  eapply yields_bind; [apply yields_random_unit|]. intros r1 [? ?].
  eapply yields_bind; [apply yields_random_unit|]. intros r2 [? ?].
  eapply yields_bind; [apply yields_random_unit|]. intros r3 [? ?].
  eapply yields_bind.
  { apply (yields_for_push unit_draws _ _
             (λ i, worker_polylinePoint_spec from to a b c d i Hfrom Hto) 21 0). }
  intros line [Hlen Hline].
  eapply yields_bind; [apply yields_random_unit|]. intros r4 [? ?].
  apply yields_ret.
  cbn [id name distance duration congestion status eta polyline tollCost].
  split; [done|].
  split. { apply Math_round_bounds;
           change (inject_Z 15000) with 15000%Q;
           change (inject_Z 25000) with 25000%Q; lra. }
  assert (Hdur : 23 ≤ Math_round ((20 + r2 * 20) * (1 + (0.3 + r3 * 0.7) * 0.5)) ≤ 60).
  { apply duration_bounds;
      change (inject_Z 23) with 23%Q; change (inject_Z 60) with 60%Q; nra. }
  split; [done|].
  split; [unfold between, rounding; split; lra|].
  split; [apply banded_spec; lra|].
  split.
  { pose proof (Math_round_near ((20 + r2 * 20) * (1 + (0.3 + r3 * 0.7) * 0.5)))
      as [Hn1 Hn2].
    set (x := ((20 + r2 * 20) * (1 + (0.3 + r3 * 0.7) * 0.5))%Q) in *.
    clearbody x. set (m := Math_round x) in *. clearbody m.
    destruct (TimeClip_after (now i) (x * 60000) (m * 60000 - 30000)
                (m * 60000 + 30001) (Hnow i)) as (t & Ht & Hrange).
    - unfold Z.sub. rewrite inject_Z_plus, inject_Z_opp, inject_Z_mult.
      change (inject_Z 60000) with 60000%Q.
      change (inject_Z 30000) with 30000%Q. lra.
    - rewrite inject_Z_plus, inject_Z_mult.
      change (inject_Z 60000) with 60000%Q.
      change (inject_Z 30001) with 30001%Q. lra.
    - lia.
    - lia.
    - exists t. split; [done|lia]. }
  split; [done|]. split; [|done].
  intros k pt Hk. by apply (Hline k pt).
Qed.

(** X23. The worker's [getRouteSuggestions], for places given as
    objects with numbers [lat] and [lng] in the ranges of valid
    coordinates, draws of [Math.random()] in [0, 1) and readings of the
    clock in the range of [clock_readings], returns the three routes
    [route_0] [Route 1], [route_1] [Route 2] and [route_2] [Route 3] in some
    order; each has a distance from 15000 to 25000, a duration from 23 to
    60, a congestion from 0.3 to 1 (both included, rounding apart) with
    the status of its band (up to 0.4, up to 0.7, above), an arrival time
    within half a minute (and 2 ms) of its reading of the clock plus the
    duration, and a polyline of 21 points whose point of index [k] lies
    within 0.005 degree, rounding apart, of the point at [k / 20] of the
    straight line between the two places. *)
Theorem worker_route_suggestions now p r a b c d :
  located (get_prop p "from") a b → located (get_prop p "to") c d →
  valid_place a b → valid_place c d →
  clock_readings now →
  unit_draws r →
  ∃ routes,
    (TrafficAnalyzerBackground.getRouteSuggestions now p r).1 = Resolved routes
    ∧ (λ rt, (id rt, name rt)) <$> routes
      ≡ₚ [("route_0", "Route 1"); ("route_1", "Route 2"); ("route_2", "Route 3")]
    ∧ Forall (λ rt,
        15000 ≤ distance rt ≤ 25000
        ∧ 23 ≤ duration rt ≤ 60
        ∧ between 0.3 1 (congestion rt)
        ∧ banded 0.4 0.7 "optimal" "moderate" "congested"
            (congestion rt) (status rt)
        ∧ (∃ i t, (i < 3)%nat ∧ id rt = "route_" +:+ pretty i
                  ∧ eta rt = Some t
                  ∧ now i + duration rt * 60000 - 30002 ≤ t
                    ≤ now i + duration rt * 60000 + 30002)
        ∧ length (polyline rt) = 21%nat
        ∧ (∀ k pt, polyline rt !! k = Some pt →
             near (a + (c - a) * (inject_Z (Z.of_nat k) / 20)) 0.005 (lat pt)
             ∧ near (b + (d - b) * (inject_Z (Z.of_nat k) / 20)) 0.005 (lng pt))
        ∧ tollCost rt = VUndefined) routes.
Proof.
  intros Hfrom Hto _ _ Hnow Hunit.
  assert (Hp : nullish p = false).
  { destruct Hfrom as [Hlat _]. by destruct p. }
  destruct (yields_for_push unit_draws _ _
              (λ i, suggestedRoute_spec now _ _ a b c d i Hnow Hfrom Hto)
              3 0 r Hunit)
    as (routes & Hr & [Hlen Hall] & _).
  unfold TrafficAnalyzerBackground.getRouteSuggestions. rewrite Hp.
  unfold mbind, M_bind.
  destruct (for_push _ 0 3 r) as [res r']. simpl in Hr. subst res.
  exists (sort byDuration routes). split; [done|].
  rewrite !(sort_Permutation byDuration routes).
  destruct routes as [|r0 [|r1 [|r2 [|]]]]; try done.
  destruct (Hall 0%nat r0 eq_refl) as (Hn0 & ? & ? & ? & ? & (t0 & ? & ?) & ?).
  destruct (Hall 1%nat r1 eq_refl) as (Hn1 & ? & ? & ? & ? & (t1 & ? & ?) & ?).
  destruct (Hall 2%nat r2 eq_refl) as (Hn2 & ? & ? & ? & ? & (t2 & ? & ?) & ?).
  split.
  - change ([(id r0, name r0); (id r1, name r1); (id r2, name r2)]
            ≡ₚ [("route_0", "Route 1"); ("route_1", "Route 2");
                ("route_2", "Route 3")]).
    rewrite Hn0, Hn1, Hn2. by vm_compute.
  - injection Hn0 as Hid0 _. injection Hn1 as Hid1 _. injection Hn2 as Hid2 _.
    cbn [Nat.add] in *.
    apply Forall_cons; split.
    { do 4 (split; [done|]). split; [|done]. exists 0%nat, t0. by repeat split; try lia. }
    apply Forall_cons; split.
    { do 4 (split; [done|]). split; [|done]. exists 1%nat, t1. by repeat split; try lia. }
    apply Forall_cons; split; [|by apply Forall_nil].
    do 4 (split; [done|]). split; [|done]. exists 2%nat, t2. by repeat split; try lia.
Qed.

Lemma text_polylinePoint_spec from to i :
  is_text from → nullish to = false →
  convertible (get_prop to "lat") && convertible (get_prop to "lng") = true →
  yields (λ _, True) (TrafficAnalyzerBackground.polylinePoint from to i)
    (λ pt, lat pt = Number None ∧ lng pt = Number None).
Proof.
  intros [s ->] Hto Hconv. apply andb_prop in Hconv as [Hlat Hlng].
  unfold TrafficAnalyzerBackground.polylinePoint.
  rewrite !(coordinate_present to _ Hto).
  rewrite !(coordinate_present (VStr s)) by done.
  unfold TrafficAnalyzerBackground.minus, TrafficAnalyzerBackground.plus.
  cbn [get_prop].
  repeat (rewrite ?M_ret_bind, ?Hlat, ?Hlng;
          cbn beta iota delta [convertible andb]).
  eapply yields_bind; [by apply yields_random_any|]. intros x _.
  eapply yields_bind; [by apply yields_random_any|]. intros y _.
  by apply yields_ret.
Qed.

(** X24. The popup sends the two places as the texts typed by the
    user. For a text as starting place, and a destination that is neither
    [null] nor [undefined] (and whose [lat] and [lng], if it has any, can
    be converted to numbers), the worker's [getRouteSuggestions] still
    returns three routes of 21 polyline points each, and every coordinate
    of every point is NaN. *)
Theorem text_places_give_NaN_polylines now p r :
  is_text (get_prop p "from") → nullish (get_prop p "to") = false →
  convertible (get_prop (get_prop p "to") "lat")
  && convertible (get_prop (get_prop p "to") "lng") = true →
  ∃ routes,
    (TrafficAnalyzerBackground.getRouteSuggestions now p r).1 = Resolved routes
    ∧ length routes = 3%nat
    ∧ Forall (λ rt, length (polyline rt) = 21%nat
                    ∧ Forall (λ pt, lat pt = Number None ∧ lng pt = Number None)
                        (polyline rt))
        routes.
Proof.
  intros Hfrom Hto Hconv.
  assert (Hp : nullish p = false).
  { destruct Hfrom as [s Hs]. by destruct p. }
  assert (Hroute : ∀ i, yields (λ _, True)
            (TrafficAnalyzerBackground.suggestedRoute now
               (get_prop p "from") (get_prop p "to") i)
            (λ rt, length (polyline rt) = 21%nat
                   ∧ Forall (λ pt, lat pt = Number None ∧ lng pt = Number None)
                       (polyline rt))).
  { intros i. unfold TrafficAnalyzerBackground.suggestedRoute.
    eapply yields_bind; [by apply yields_random_any|]. intros r1 _.
    eapply yields_bind; [by apply yields_random_any|]. intros r2 _.
    eapply yields_bind; [by apply yields_random_any|]. intros r3 _.
    eapply yields_bind.
    { apply (yields_for_push (λ _, True) _ _
               (λ i, text_polylinePoint_spec _ _ i Hfrom Hto Hconv) 21 0). }
    intros line [Hlen Hline].
    eapply yields_bind; [by apply yields_random_any|]. intros r4 _.
    apply yields_ret. cbn [polyline]. split; [done|].
    apply Forall_lookup. intros k pt Hk. by apply (Hline k pt). }
  destruct (yields_for_push (λ _, True) _ _ Hroute 3 0 r I)
    as (routes & Hr & [Hlen Hall] & _).
  unfold TrafficAnalyzerBackground.getRouteSuggestions. rewrite Hp.
  unfold mbind, M_bind.
  destruct (for_push _ 0 3 r) as [res r']. simpl in Hr. subst res.
  exists (sort byDuration routes). split; [done|].
  split; [by rewrite sort_length|].
  rewrite (sort_Permutation byDuration routes).
  apply Forall_lookup. intros k rt Hk. by apply (Hall k rt).
Qed.

End WorkerRoutes.

Lemma worker_route_suggestions_witness :
  ∃ routes,
    (TrafficAnalyzerBackground.getRouteSuggestions
       (H := CoordinatorSamples.sampleBuiltins) (λ _, 0)
       (VObj [("from", VObj [("lat", VNum 40); ("lng", VNum (-74))]);
              ("to", VObj [("lat", VNum 41); ("lng", VNum (-73))])])
       (constant_draws 0.5)).1 = Resolved routes
    ∧ Forall (λ rt, 23 ≤ duration rt ≤ 60) routes.
Proof.
  destruct (worker_route_suggestions (H := CoordinatorSamples.sampleBuiltins)
              (λ _, 0)
              (VObj [("from", VObj [("lat", VNum 40); ("lng", VNum (-74))]);
                     ("to", VObj [("lat", VNum 41); ("lng", VNum (-73))])])
              (constant_draws 0.5) 40%Q (-74)%Q 41%Q (-73)%Q)
    as (routes & Hr & _ & Hall).
  - by split.
  - by split.
  - unfold valid_place. by vm_compute.
  - unfold valid_place. by vm_compute.
  - intros i. lia.
  - apply constant_draws_unit.
  - exists routes. split; [exact Hr|].
    eapply Forall_impl; [exact Hall|]. intros rt (_ & Hd & _). exact Hd.
Defined.

Lemma text_places_give_NaN_polylines_witness :
  ∃ routes,
    (TrafficAnalyzerBackground.getRouteSuggestions
       (H := CoordinatorSamples.sampleBuiltins) (λ _, 0)
       (VObj [("from", VStr "Home"); ("to", VStr "Work")])
       (constant_draws 0.5)).1
    = Resolved routes
    ∧ length routes = 3%nat.
Proof.
  destruct (text_places_give_NaN_polylines
              (H := CoordinatorSamples.sampleBuiltins) (λ _, 0)
              (VObj [("from", VStr "Home"); ("to", VStr "Work")])
              (constant_draws 0.5))
    as (routes & Hr & Hlen & _).
  - by exists "Home".
  - reflexivity.
  - reflexivity.
  - exists routes. by split.
Defined.

End Routes.

(** ** The mock analytics *)

Section Analytics.
Import MockData MockAnalytics.

Lemma analyticsBase_bounds t : (0.3 <= analyticsBase t)%Q ∧ (analyticsBase t <= 0.9)%Q.
Proof.
  unfold analyticsBase.
  destruct (Qle_bool 17 t && Qle_bool t 19), (Qle_bool 7 t && Qle_bool t 9);
    split; lra.
Qed.

Lemma clamp01_id x : (0 <= x)%Q → (x <= 1)%Q → (clamp01 x == x)%Q.
Proof.
  intros H0 H1. unfold clamp01, max2, min2.
  destruct (Qle_bool 1 x) eqn:Hb1.
  - apply Qle_bool_iff in Hb1. simpl. lra.
  - destruct (Qle_bool 0 x) eqn:Hb0; [reflexivity|].
    assert (Qle_bool 0 x = true) by (by apply Qle_bool_iff). congruence.
Qed.

Lemma Zmax_round_bounds lo x :
  (inject_Z lo <= inject_Z (Z.max lo (Math_round x)))%Q.
Proof. rewrite <- Zle_Qle. lia. Qed.

Lemma analyticsStep_spec now n i r0 :
  yields (draws_of r0) (analyticsStep now n i)
    (λ row,
       (timestamp row.1.1 = now (4 * i + 1)%nat - (Z.of_nat n - Z.of_nat i) * 60000
        ∧ timestamp row.1.2 = now (4 * i + 2)%nat - (Z.of_nat n - Z.of_nat i) * 60000
        ∧ timestamp row.2 = now (4 * i + 3)%nat - (Z.of_nat n - Z.of_nat i) * 60000)
       ∧ (10 <= sample_value row.1.1)%Q
       ∧ (0 <= sample_value row.1.2)%Q
       ∧ ((0 <= sample_value row.2)%Q ∧ (sample_value row.2 <= 1)%Q)
       ∧ (unit_draws r0 →
          ((15 <= sample_value row.1.1)%Q ∧ (sample_value row.1.1 <= 73)%Q)
          ∧ ((1 <= sample_value row.1.2)%Q ∧ (sample_value row.1.2 <= 35)%Q)
          ∧ (0.2 <= sample_value row.2)%Q)).
Proof.
  unfold analyticsStep.
  set (base := analyticsBase _).
  pose proof (analyticsBase_bounds
                (UtilsMore.remainder
                   (inject_Z (now (4 * i + 0)%nat
                              - (Z.of_nat n - Z.of_nat i) * 60000) / 1000 / 3600) 24))
    as [Hb0 Hb1].
  fold base in Hb0, Hb1. clearbody base.
  eapply yields_bind; [apply yields_random_of|]. intros r1 [n1 ->].
  eapply yields_bind; [apply yields_random_of|]. intros r2 [n2 ->].
  eapply yields_bind; [apply yields_random_of|]. intros r3 [n3 ->].
  apply yields_ret. cbn [fst snd timestamp sample_value].
  split; [done|].
  split; [apply (Zmax_round_bounds 10)|].
  split; [apply (Zmax_round_bounds 0)|].
  split; [apply clamp01_bounds|].
  intros Hunit.
  destruct (Hunit n1) as [? ?]. destruct (Hunit n2) as [? ?].
  destruct (Hunit n3) as [? ?].
  set (c := (base + (draws r0 n1 - 0.5) * 0.2)%Q).
  assert (Hc : (0.2 <= c)%Q ∧ (c < 1)%Q) by (unfold c; split; lra).
  destruct Hc as [Hc0 Hc1].
  split; [|split].
  - assert (Hs : 15 ≤ Math_round ((1 - c) * 60 + 20 + (draws r0 n2 - 0.5) * 10) ≤ 73).
    { apply Math_round_bounds;
        change (inject_Z 15) with 15%Q; change (inject_Z 73) with 73%Q; lra. }
    rewrite Z.max_r by lia.
    change 15%Q with (inject_Z 15). change 73%Q with (inject_Z 73).
    rewrite <- !Zle_Qle. lia.
  - assert (Hd : 1 ≤ Math_round (c * 30 + (draws r0 n3 - 0.5) * 10) ≤ 35).
    { apply Math_round_bounds;
        change (inject_Z 1) with 1%Q; change (inject_Z 35) with 35%Q; lra. }
    rewrite Z.max_r by lia.
    change 1%Q with (inject_Z 1). change 35%Q with (inject_Z 35).
    rewrite <- !Zle_Qle. lia.
  - rewrite clamp01_id; lra.
Qed.

Lemma sum_at_least lo (l : list sample) acc :
  Forall (λ s, (lo <= sample_value s)%Q) l →
  (acc + lo * inject_Z (Z.of_nat (length l))
   <= foldl (λ sum d, sum + sample_value d) acc l)%Q.
Proof.
  revert acc. induction l as [|s l IH]; intros acc Hall; simpl foldl.
  - change (inject_Z (Z.of_nat (length (@nil sample)))) with 0%Q. lra.
  - apply Forall_cons in Hall as [Hs Hl].
    specialize (IH (acc + sample_value s)%Q Hl).
    change (length (s :: l)) with (S (length l)).
    rewrite Nat2Z.inj_succ, <- Z.add_1_r, inject_Z_plus.
    change (inject_Z 1) with 1%Q. lra.
Qed.

Lemma average_at_least lo (l : list sample) :
  l ≠ [] → Forall (λ s, (lo <= sample_value s)%Q) l → (lo <= average l)%Q.
Proof.
  intros Hne Hall. unfold average.
  assert (Hlen : (0 < inject_Z (Z.of_nat (length l)))%Q).
  { change 0%Q with (inject_Z 0). rewrite <- Zlt_Qlt.
    destruct l; [done|]. simpl. lia. }
  apply Qle_shift_div_l; [done|].
  pose proof (sum_at_least lo l 0 Hall). lra.
Qed.

Lemma max2_ge a b : (a <= max2 a b)%Q ∧ (b <= max2 a b)%Q.
Proof.
  unfold max2. destruct (Qle_bool a b) eqn:Hb.
  - apply Qle_bool_iff in Hb. split; lra.
  - assert (¬ (a <= b)%Q) by (rewrite <- Qle_bool_iff; congruence). split; lra.
Qed.

Lemma Math_max_from (l : list Q) y lo hi :
  (lo <= y)%Q → (y <= hi)%Q →
  Forall (λ x, (lo <= x)%Q ∧ (x <= hi)%Q) l →
  ∃ m, foldl (λ m x, match m with None => Some x | Some y => Some (max2 y x) end)
         (Some y) l = Some m
       ∧ ((lo <= m)%Q ∧ (m <= hi)%Q) ∧ (y <= m)%Q ∧ Forall (λ x, (x <= m)%Q) l.
Proof.
  revert y. induction l as [|x l IH]; intros y Hy0 Hy1 Hall; simpl.
  - exists y. repeat split; try done; try lra. 
  - apply Forall_cons in Hall as [[Hx0 Hx1] Hl].
    pose proof (max2_ge y x) as [Hm1 Hm2].
    assert (Hmax : (lo <= max2 y x)%Q ∧ (max2 y x <= hi)%Q).
    { unfold max2. destruct (Qle_bool y x); split; lra. }
    destruct (IH (max2 y x) (proj1 Hmax) (proj2 Hmax) Hl)
      as (m & Hm & Hb & Hge & Hall').
    exists m. split; [done|]. split; [done|]. split; [lra|].
    apply Forall_cons. split; [lra|done].
Qed.

Lemma Math_max_spec (l : list Q) lo hi :
  l ≠ [] → Forall (λ x, (lo <= x)%Q ∧ (x <= hi)%Q) l →
  ∃ m, Math_max l = Some m
       ∧ ((lo <= m)%Q ∧ (m <= hi)%Q) ∧ Forall (λ x, (x <= m)%Q) l.
Proof.
  intros Hne Hall. destruct l as [|x l]; [done|].
  apply Forall_cons in Hall as [[Hx0 Hx1] Hl].
  destruct (Math_max_from l x lo hi Hx0 Hx1 Hl) as (m & Hm & Hb & Hge & Hall').
  exists m. split; [done|]. split; [done|]. by apply Forall_cons.
Qed.

Lemma dataPointsOf_cases p :
  (dataPointsOf p = 60 ∨ dataPointsOf p = 72 ∨ dataPointsOf p = 144)%nat.
Proof.
  unfold dataPointsOf.
  repeat (match goal with
          | |- context [match ?x with _ => _ end] => destruct x
          end; auto).
Qed.

(** X25. [DataManager.generateMockAnalytics] returns three series of
    the same length, 60 for the period [1h], 72 for [6h] and 144 for any
    other, whatever [Math.random()] gives: speeds of at least 10, delays of
    at least 0, congestion levels between 0 and 1; the averages of the
    summary are at least 10 and 0, its peak is a number between 0 and 1
    that no level exceeds, and its period is the one asked for, [24h] by
    default. When the clock does not go back, consecutive speed samples are
    dated at least a minute apart; with draws in [0, 1) the speeds lie
    between 15 and 73 and the delays between 1 and 35. *)
Theorem mock_analytics now params r :
  ∃ a, (generateMockAnalytics now params r).1 = Resolved a
    ∧ (length (speedTrends a) = dataPointsOf (periodOf params)
       ∧ length (delayPatterns a) = dataPointsOf (periodOf params)
       ∧ length (congestionLevels a) = dataPointsOf (periodOf params))
    ∧ (dataPointsOf (periodOf params) = 60
       ∨ dataPointsOf (periodOf params) = 72
       ∨ dataPointsOf (periodOf params) = 144)%nat
    ∧ Forall (λ s, (10 <= sample_value s)%Q) (speedTrends a)
    ∧ Forall (λ s, (0 <= sample_value s)%Q) (delayPatterns a)
    ∧ Forall (λ s, (0 <= sample_value s)%Q ∧ (sample_value s <= 1)%Q)
        (congestionLevels a)
    ∧ ((10 <= averageSpeed (summary a))%Q
       ∧ (0 <= averageDelay (summary a))%Q)
    ∧ (∃ m, peakCongestion (summary a) = Some m
            ∧ ((0 <= m)%Q ∧ (m <= 1)%Q)
            ∧ Forall (λ s, (sample_value s <= m)%Q) (congestionLevels a))
    ∧ period (summary a) = or_else (lookup_field "period" params) (VStr "24h")
    ∧ ((∀ i j, (i ≤ j)%nat → now i ≤ now j) →
       ∀ k s s', speedTrends a !! k = Some s → speedTrends a !! S k = Some s' →
                 timestamp s + 60000 ≤ timestamp s')
    ∧ (unit_draws r →
       Forall (λ s, (15 <= sample_value s)%Q ∧ (sample_value s <= 73)%Q)
         (speedTrends a)
       ∧ Forall (λ s, (1 <= sample_value s)%Q ∧ (sample_value s <= 35)%Q)
           (delayPatterns a)).
Proof.
  set (n := dataPointsOf (periodOf params)).
  pose proof (yields_for_push (draws_of r) _ _
                (λ i, analyticsStep_spec now n i r) n 0%nat r eq_refl)
    as (rows & Hrows & [Hlen Hall] & _).
  unfold generateMockAnalytics, mbind, M_bind. fold n.
  destruct (for_push _ 0 n r) as [res r']. simpl in Hrows. subst res.
  eexists. split; [done|].
  cbn [speedTrends delayPatterns congestionLevels summary
       averageSpeed averageDelay peakCongestion period fst].
  assert (Hn : (n = 60 ∨ n = 72 ∨ n = 144)%nat) by apply dataPointsOf_cases.
  assert (Hne : rows ≠ []) by (intros ->; simpl in Hlen; lia).
  assert (Hspeed : Forall (λ s, (10 <= sample_value s)%Q) ((λ r, r.1.1) <$> rows)).
  { apply Forall_fmap, Forall_lookup. intros k row Hk.
    by destruct (Hall k row Hk) as (_ & ? & _). }
  assert (Hdelay : Forall (λ s, (0 <= sample_value s)%Q) ((λ r, r.1.2) <$> rows)).
  { apply Forall_fmap, Forall_lookup. intros k row Hk.
    by destruct (Hall k row Hk) as (_ & _ & ? & _). }
  assert (Hcong : Forall (λ s, (0 <= sample_value s)%Q ∧ (sample_value s <= 1)%Q)
                    ((λ r, r.2) <$> rows)).
  { apply Forall_fmap, Forall_lookup. intros k row Hk.
    by destruct (Hall k row Hk) as (_ & _ & _ & ? & _). }
  split; [by rewrite !length_fmap|]. split; [done|].
  split; [done|]. split; [done|]. split; [done|].
  split.
  { split; apply average_at_least; try done; by destruct rows. }
  split.
  { destruct (Math_max_spec (sample_value <$> ((λ r, r.2) <$> rows)) 0 1)
      as (m & Hm & Hb & Hle).
    - by destruct rows.
    - by apply Forall_fmap.
    - exists m. split; [done|]. split; [done|].
      rewrite Forall_fmap in Hle. exact Hle. }
  split; [done|]. split.
  - intros Hclock k s s' Hk Hk'.
    rewrite list_lookup_fmap in Hk, Hk'.
    destruct (rows !! k) as [row|] eqn:Hrow; [|done].
    destruct (rows !! S k) as [row'|] eqn:Hrow'; [|done].
    simpl in Hk, Hk'. injection Hk as <-. injection Hk' as <-.
    destruct (Hall k row Hrow) as ((-> & _) & _).
    destruct (Hall (S k) row' Hrow') as ((-> & _) & _).
    pose proof (Hclock (4 * (0 + k) + 1)%nat (4 * (0 + S k) + 1)%nat ltac:(lia)).
    lia.
  - intros Hunit. split.
    + apply Forall_fmap, Forall_lookup. intros k row Hk.
      destruct (Hall k row Hk) as (_ & _ & _ & _ & Hu). by apply Hu.
    + apply Forall_fmap, Forall_lookup. intros k row Hk.
      destruct (Hall k row Hk) as (_ & _ & _ & _ & Hu). by apply Hu.
Qed.

Lemma mock_analytics_witness :
  ∃ a, (generateMockAnalytics (λ _, 0) [("period", VStr "1h")]
          (constant_draws 0.5)).1 = Resolved a
    ∧ length (speedTrends a) = 60%nat
    ∧ Forall (λ s, (15 <= sample_value s)%Q ∧ (sample_value s <= 73)%Q)
        (speedTrends a).
Proof.
  destruct (mock_analytics (λ _, 0) [("period", VStr "1h")] (constant_draws 0.5))
    as (a & Ha & (Hlen & _) & _ & _ & _ & _ & _ & _ & _ & _ & Hunit).
  exists a. split; [exact Ha|]. split; [exact Hlen|].
  apply Hunit, constant_draws_unit.
Defined.

End Analytics.

(** ** The worker: traffic data, alarms, settings, messages *)

Section WorkerMore.
Import TrafficAnalyzerBackground WorkerService.
Context `{Builtins}.

Lemma run_tasks_fetches ts w :
  fetches (foldl (λ w t, run_task t w) w ts) = fetches w.
Proof.
  revert w. induction ts as [|t ts IH]; intros w; simpl; [done|].
  rewrite IH. by destruct t.
Qed.

(** The three ways [getTrafficData] ends. *)
Lemma getTrafficData_fresh E p w c :
  dataCache w !! ("traffic_" +:+ JSON_stringify (or_empty p)) = Some c →
  clock w - timestamp c < 300000 →
  getTrafficData E p w = (Resolved (data c), w).
Proof.
  intros Hk Hage. unfold getTrafficData, mbind, M_bind, get_state.
  rewrite Hk. destruct (Z.ltb_spec (clock w - timestamp c) 300000); [done|lia].
Qed.

Lemma getTrafficData_refetch E p w :
  (∀ c, dataCache w !! ("traffic_" +:+ JSON_stringify (or_empty p)) = Some c →
        300000 ≤ clock w - timestamp c) →
  let cached := dataCache w !! ("traffic_" +:+ JSON_stringify (or_empty p)) in
  let w' := (fetchTrafficData E w).2 in
  getTrafficData E p w
  = match fetched E with
    | Resolved d =>
        (Resolved d,
         {| dataCache := <["traffic_" +:+ JSON_stringify (or_empty p) :=
                            {| data := d; timestamp := clock w' |}]> (dataCache w');
            clock := clock w'; fetches := fetches w' |})
    | Rejected _ =>
        (Resolved (match cached with Some c => data c | None => mock E end), w')
    end.
Proof.
  intros Hold. simpl.
  unfold getTrafficData, mbind, M_bind, get_state.
  destruct (dataCache w !! ("traffic_" +:+ JSON_stringify (or_empty p)))
    as [c|] eqn:Hk.
  - specialize (Hold c eq_refl).
    destruct (Z.ltb_spec (clock w - timestamp c) 300000); [lia|].
    unfold try_catch, mbind, M_bind, fetchTrafficData, modify. simpl.
    by destruct (fetched E).
  - unfold try_catch, mbind, M_bind, fetchTrafficData, modify. simpl.
    by destruct (fetched E).
Qed.

Lemma getTrafficData_resolves E p w : ∃ d, (getTrafficData E p w).1 = Resolved d.
Proof.
  destruct (dataCache w !! ("traffic_" +:+ JSON_stringify (or_empty p)))
    as [c|] eqn:Hk.
  - destruct (Z.lt_ge_cases (clock w - timestamp c) 300000) as [Hage|Hage].
    + rewrite (getTrafficData_fresh E p w c Hk Hage). by eexists.
    + rewrite getTrafficData_refetch.
      * destruct (fetched E); by eexists.
      * intros c' Hc'. rewrite Hk in Hc'. by injection Hc' as <-.
  - rewrite getTrafficData_refetch.
    + destruct (fetched E); by eexists.
    + intros c' Hc'. by rewrite Hk in Hc'.
Qed.


Lemma getRouteSuggestions_resolves now p r :
  nullish p = false →
  nullish (get_prop p "from") = false → nullish (get_prop p "to") = false →
  charted (get_prop p "from") (get_prop p "to") = true →
  ∃ routes, (getRouteSuggestions now p r).1 = Resolved routes
            ∧ ascending routes ∧ length routes = 3%nat.
Proof.
  intros Hp Hfrom Hto Hch. unfold getRouteSuggestions. rewrite Hp.
  apply sorted_routes_resolve. intros i. by apply suggestedRoute_resolves.
Qed.

Lemma getRouteSuggestions_uncharted now p r :
  nullish p = false →
  nullish (get_prop p "from") = false → nullish (get_prop p "to") = false →
  charted (get_prop p "from") (get_prop p "to") = false →
  (getRouteSuggestions now p r).1 = Rejected (TypeError "primitive").
Proof.
  intros Hp Hfrom Hto Hch. unfold getRouteSuggestions. rewrite Hp.
  apply (throws_bind_l (TypeError "primitive")).
  apply throws_for_push. by apply suggestedRoute_uncharted.
Qed.

Lemma getRouteSuggestions_throws now p r :
  nullish p = false →
  nullish (get_prop p "from") || nullish (get_prop p "to") = true →
  (getRouteSuggestions now p r).1 = Rejected (TypeError "lat").
Proof.
  intros Hp Hnull. unfold getRouteSuggestions. rewrite Hp.
  apply (throws_bind_l (TypeError "lat")).
  apply throws_for_push. by apply suggestedRoute_throws.
Qed.

Lemma scheduleDataRefresh_alarms s name :
  alarms (scheduleDataRefresh s) !! name
  = if String.eqb name "refresh-traffic-data"
    then (if 0 <? interval s
          then Some {| delayInMinutes := inject_Z (interval s) / 60000;
                       periodInMinutes := inject_Z (interval s) / 60000 |}
          else None)
    else alarms s !! name.
Proof.
  unfold scheduleDataRefresh. cbn [alarms].
  destruct (String.eqb_spec name "refresh-traffic-data") as [->|Hne].
  - destruct (0 <? interval s).
    + by rewrite lookup_insert_eq.
    + by rewrite lookup_delete_eq.
  - destruct (0 <? interval s).
    + by rewrite lookup_insert_ne, lookup_delete_ne.
    + by rewrite lookup_delete_ne.
Qed.

(** How [updateSettings] ends. *)
Lemma updateSettings_outcome o settings s :
  match settings, set_fails o, get_fails o with
  | Some _, None, None => (updateSettings o settings s).1 = Resolved tt
  | None, _, _ => updateSettings o settings s = (Rejected (TypeError "items"), s)
  | Some _, Some e, _ => updateSettings o settings s = (Rejected e, s)
  | Some _, None, Some e => (updateSettings o settings s).1 = Rejected e
  end.
Proof.
  unfold updateSettings, storage_sync_set, loadSettings, mbind, M_bind, modify,
    throw.
  destruct settings as [items|]; [|done].
  destruct (set_fails o) as [e|]; [done|].
  destruct (get_fails o) as [e|]; [done|].
  by destruct (refreshInterval items).
Qed.

Section Messages.
Variable message_of : error → string.

Lemma handleMessage_traffic E o m h :
  type m = "GET_TRAFFIC_DATA" →
  ∃ d, (handleMessage message_of E o m h).1 = Resolved (SuccessData d).
Proof.
  intros Ht. unfold handleMessage. rewrite Ht. cbn [String.eqb Ascii.eqb Bool.eqb].
  unfold try_catch, mbind, M_bind, lift_core.
  destruct (getTrafficData_resolves E (params m) (core (svc h))) as [d Hd].
  destruct (getTrafficData E (params m) (core (svc h))) as [res w'].
  simpl in Hd. subst res. by exists d.
Qed.

Lemma handleMessage_routes E o m h :
  type m = "GET_ROUTE_SUGGESTIONS" →
  if lacks_place m
  then ∃ what, (handleMessage message_of E o m h).1
               = Resolved (Failure (message_of (TypeError what)))
  else ∃ routes,
         (handleMessage message_of E o m h).1 = Resolved (SuccessRoutes routes)
         ∧ length routes = 3%nat ∧ ascending routes.
Proof.
  intros Ht. unfold handleMessage, lacks_place. rewrite Ht.
  cbn [String.eqb Ascii.eqb Bool.eqb].
  unfold try_catch, mbind, M_bind, get_state, lift_random.
  destruct (nullish (params m)) eqn:Hp.
  { cbn [orb]. exists "from". unfold getRouteSuggestions. by rewrite Hp. }
  cbn [orb].
  destruct (nullish (get_prop (params m) "from")
            || nullish (get_prop (params m) "to")) eqn:Hnull.
  - pose proof (getRouteSuggestions_throws (λ _, clock (core (svc h)))
                  (params m) (random h) Hp Hnull) as Hthrow.
    destruct (getRouteSuggestions _ (params m) (random h)) as [res r'].
    simpl in Hthrow. subst res. by exists "lat".
  - apply orb_false_iff in Hnull as [Hfrom Hto].
    destruct (charted (get_prop (params m) "from") (get_prop (params m) "to"))
      eqn:Hch; cbn [negb].
    + destruct (getRouteSuggestions_resolves (λ _, clock (core (svc h)))
                  (params m) (random h) Hp Hfrom Hto Hch)
        as (routes & Hr & Hasc & Hlen).
      destruct (getRouteSuggestions _ (params m) (random h)) as [res r'].
      simpl in Hr. subst res. by exists routes.
    + pose proof (getRouteSuggestions_uncharted (λ _, clock (core (svc h)))
                    (params m) (random h) Hp Hfrom Hto Hch) as Hthrow.
      destruct (getRouteSuggestions _ (params m) (random h)) as [res r'].
      simpl in Hthrow. subst res. by exists "primitive".
Qed.

Lemma handleMessage_settings E o m h :
  type m = "UPDATE_SETTINGS" →
  if settings_refused o m
  then ∃ e, (handleMessage message_of E o m h).1
            = Resolved (Failure (message_of e))
  else (handleMessage message_of E o m h).1 = Resolved Success.
Proof.
  intros Ht. unfold handleMessage, settings_refused. rewrite Ht.
  cbn [String.eqb Ascii.eqb Bool.eqb].
  unfold try_catch, mbind, M_bind, lift_service.
  pose proof (updateSettings_outcome o (settings m) (svc h)) as Hout.
  destruct (updateSettings o (settings m) (svc h)) as [res s'].
  destruct (settings m) as [items|];
    [destruct (set_fails o) as [e1|]; [|destruct (get_fails o) as [e2|]]|];
    simpl in Hout.
  - injection Hout as -> _. by exists e1.
  - subst res. by exists e2.
  - by subst res.
  - injection Hout as -> _. by eexists.
Qed.

(** X27. The worker answers every message. The answer is a failure
    exactly when the type of the message is none of the five it knows, or
    the message asks for routes and lacks [params] or one of the two
    places, or it asks for a settings update and has no [settings] object
    or a call of [chrome.storage.sync] rejects; for an unknown type the
    error is [Unknown message type] and nothing changes in the worker; a
    request for routes with both places is answered with three routes in
    ascending order of duration. *)
Theorem handleMessage_answers E o m h :
  ∃ resp, (handleMessage message_of E o m h).1 = Resolved resp
    ∧ ((∃ err, resp = Failure err)
       ↔ type m ∉ messageTypes
         ∨ (type m = "GET_ROUTE_SUGGESTIONS" ∧ lacks_place m = true)
         ∨ (type m = "UPDATE_SETTINGS" ∧ settings_refused o m = true))
    ∧ (type m ∉ messageTypes →
       resp = Failure "Unknown message type"
       ∧ (handleMessage message_of E o m h).2 = h)
    ∧ (type m = "GET_ROUTE_SUGGESTIONS" → lacks_place m = false →
       ∃ routes, resp = SuccessRoutes routes
                 ∧ length routes = 3%nat ∧ ascending routes).
Proof.
  unfold messageTypes.
  destruct (String.eqb_spec (type m) "GET_TRAFFIC_DATA") as [Ht|Hn1].
  { destruct (handleMessage_traffic E o m h Ht) as [d Hd].
    exists (SuccessData d). split; [done|]. rewrite Ht. split; [|split].
    - split; [by intros [err ?]|]. intros [Hno|[[? _]|[? _]]]; [|done..].
      exfalso. apply Hno. rewrite !elem_of_cons. auto 10.
    - intros Hno. exfalso. apply Hno. rewrite !elem_of_cons. auto 10.
    - done. }
  destruct (String.eqb_spec (type m) "GET_ROUTE_SUGGESTIONS") as [Ht|Hn2].
  { pose proof (handleMessage_routes E o m h Ht) as Hroutes.
    destruct (lacks_place m) eqn:Hlack.
    - destruct Hroutes as [what Hw]. eexists. split; [exact Hw|]. rewrite Ht.
      split; [|split].
      + split; [right; by left|]. intros _. by eexists.
      + intros Hno. exfalso. apply Hno. rewrite !elem_of_cons. auto 10.
      + done.
    - destruct Hroutes as (routes & Hr & Hlen & Hasc).
      exists (SuccessRoutes routes). split; [done|]. rewrite Ht.
      split; [|split].
      + split; [by intros [err ?]|]. intros [Hno|[[_ ?]|[? _]]]; [|done..].
        exfalso. apply Hno. rewrite !elem_of_cons. auto 10.
      + intros Hno. exfalso. apply Hno. rewrite !elem_of_cons. auto 10.
      + intros _ _. by exists routes. }
  destruct (String.eqb_spec (type m) "UPDATE_SETTINGS") as [Ht|Hn3].
  { pose proof (handleMessage_settings E o m h Ht) as Hset.
    destruct (settings_refused o m) eqn:Hrefused.
    - destruct Hset as [e He]. eexists. split; [exact He|]. rewrite Ht.
      split; [|split].
      + split; [right; by right|]. intros _. by eexists.
      + intros Hno. exfalso. apply Hno. rewrite !elem_of_cons. auto 10.
      + done.
    - exists Success. split; [done|]. rewrite Ht. split; [|split].
      + split; [by intros [err ?]|]. intros [Hno|[[? _]|[_ ?]]]; [|done..].
        exfalso. apply Hno. rewrite !elem_of_cons. auto 10.
      + intros Hno. exfalso. apply Hno. rewrite !elem_of_cons. auto 10.
      + done. }
  destruct (String.eqb_spec (type m) "REFRESH_DATA") as [Ht|Hn4].
  { exists Success. unfold handleMessage. rewrite Ht. split; [done|].
    split; [|split]; try done.
    - split; [by intros [err ?]|]. intros [Hno|[[? _]|[? _]]]; [|done..].
      exfalso. apply Hno. rewrite !elem_of_cons. auto 10.
    - intros Hno. exfalso. apply Hno. rewrite !elem_of_cons. auto 10. }
  destruct (String.eqb_spec (type m) "GET_CACHED_DATA") as [Ht|Hn5].
  { eexists (SuccessData _). unfold handleMessage. rewrite Ht. split; [done|].
    split; [|split]; try done.
    - split; [by intros [err ?]|]. intros [Hno|[[? _]|[? _]]]; [|done..].
      exfalso. apply Hno. rewrite !elem_of_cons. auto 10.
    - intros Hno. exfalso. apply Hno. rewrite !elem_of_cons. auto 10. }
  exists (Failure "Unknown message type").
  assert (Hrun : handleMessage message_of E o m h
                 = (Resolved (Failure "Unknown message type"), h)).
  { unfold handleMessage.
    destruct (String.eqb_spec (type m) "GET_TRAFFIC_DATA"); [done|].
    destruct (String.eqb_spec (type m) "GET_ROUTE_SUGGESTIONS"); [done|].
    destruct (String.eqb_spec (type m) "UPDATE_SETTINGS"); [done|].
    destruct (String.eqb_spec (type m) "REFRESH_DATA"); [done|].
    destruct (String.eqb_spec (type m) "GET_CACHED_DATA"); [done|].
    done. }
  rewrite Hrun. split; [done|]. split; [|split].
  - split; [|by eexists]. intros _. left. rewrite !elem_of_cons, elem_of_nil. tauto.
  - done.
  - done.
Qed.

End Messages.

(** X28. [updateSettings] with a refresh interval [n], the storage
    taking and giving the settings, stores it, makes it the worker's
    interval and replaces the refresh alarm: for a positive [n] by one
    with delay and period [n / 60000] minutes, otherwise by none; the
    other alarms and the cache stay. Without a refresh interval in the
    settings given, the worker's interval becomes the stored one (60000
    when none is stored) and the alarms stay as they are. When the
    storage refuses the new settings, the method rejects and the worker is
    as before. *)
Theorem refresh_alarm_follows_update items s :
  (updateSettings granted (Some items) s).1 = Resolved tt
  ∧ (∀ n, refreshInterval items = Some n →
     interval (updateSettings granted (Some items) s).2 = n
     ∧ refreshInterval (sync (updateSettings granted (Some items) s).2) = Some n
     ∧ alarms (updateSettings granted (Some items) s).2 !! "refresh-traffic-data"
       = (if 0 <? n
          then Some {| delayInMinutes := inject_Z n / 60000;
                       periodInMinutes := inject_Z n / 60000 |}
          else None)
     ∧ (∀ name, name ≠ "refresh-traffic-data" →
          alarms (updateSettings granted (Some items) s).2 !! name
          = alarms s !! name)
     ∧ core (updateSettings granted (Some items) s).2 = core s)
  ∧ (refreshInterval items = None →
     interval (updateSettings granted (Some items) s).2
     = default 60000 (refreshInterval (sync s))
     ∧ alarms (updateSettings granted (Some items) s).2 = alarms s)
  ∧ (∀ o e, set_fails o = Some e →
       updateSettings o (Some items) s = (Rejected e, s)).
Proof.
  split; [|split; [|split]].
  - apply (updateSettings_outcome granted (Some items) s).
  - intros n Hn.
    unfold updateSettings, storage_sync_set, loadSettings, mbind, M_bind, modify.
    cbn [granted set_fails get_fails]. rewrite Hn. cbn [fst snd].
    split; [|split; [|split; [|split]]].
    + unfold scheduleDataRefresh, sync_set. cbn. by rewrite Hn.
    + unfold scheduleDataRefresh, sync_set. cbn. by rewrite Hn.
    + rewrite scheduleDataRefresh_alarms. cbn [String.eqb Ascii.eqb Bool.eqb].
      unfold sync_set. cbn. by rewrite Hn.
    + intros name Hne. rewrite scheduleDataRefresh_alarms.
      by destruct (String.eqb_spec name "refresh-traffic-data").
    + done.
  - intros Hnone.
    unfold updateSettings, storage_sync_set, loadSettings, mbind, M_bind, modify.
    cbn [granted set_fails get_fails]. rewrite Hnone.
    unfold sync_set. cbn. by rewrite Hnone.
  - intros o e He.
    pose proof (updateSettings_outcome o (Some items) s) as Hout.
    by rewrite He in Hout.
Qed.

Lemma cleanupCache_lookup_worker now (c : gmap string entry) key :
  cleanupCache now c !! key
  = match c !! key with
    | Some e => if 1800000 <? now - timestamp e then None else Some e
    | None => None
    end.
Proof.
  unfold cleanupCache.
  destruct (c !! key) as [e|] eqn:Hk.
  - destruct (Z.ltb_spec 1800000 (now - timestamp e)) as [Hold|Hyoung].
    + apply map_lookup_filter_None. right. intros e' He'. simpl.
      rewrite Hk in He'. injection He' as <-. intros Hkeep. apply Hkeep.
      change (30 * 60 * 1000) with 1800000. lia.
    + apply map_lookup_filter_Some. split; [done|]. simpl.
      change (30 * 60 * 1000) with 1800000. lia.
  - apply map_lookup_filter_None. by left.
Qed.

(** X29. The alarms and the traffic data. An entry that
    [getTrafficData] would return as fresh is still returned, without a
    fetch, after any alarm but the refresh alarm: [cleanupCache] only
    removes entries older than 30 minutes. After the refresh alarm the next
    [getTrafficData] fetches. After the cleanup alarm, an entry older than
    30 minutes is no longer there to be returned when the fetch fails: the
    mock payload is returned in its place. *)
Theorem alarms_and_traffic_data E p s name c :
  dataCache (core s) !! ("traffic_" +:+ JSON_stringify (or_empty p)) = Some c →
  (name ≠ "refresh-traffic-data" → clock (core s) - timestamp c < 300000 →
     getTrafficData E p (core (handleAlarm name s))
     = (Resolved (data c), core (handleAlarm name s)))
  ∧ (name = "refresh-traffic-data" →
     fetches (getTrafficData E p (core (handleAlarm name s))).2
     = S (fetches (core s)))
  ∧ (name = "cleanup-cache" → 1800000 < clock (core s) - timestamp c →
     ∀ e, fetched E = Rejected e →
       (getTrafficData E p (core s)).1 = Resolved (data c)
       ∧ (getTrafficData E p (core (handleAlarm name s))).1 = Resolved (mock E)).
Proof.
  intros Hk. split; [|split].
  - intros Hne Hfresh. apply getTrafficData_fresh; [|].
    + unfold handleAlarm.
      destruct (String.eqb_spec name "refresh-traffic-data"); [done|].
      destruct (String.eqb_spec name "cleanup-cache"); [|done].
      cbn [with_core core run_task dataCache].
      rewrite cleanupCache_lookup_worker, Hk.
      destruct (Z.ltb_spec 1800000 (clock (core s) - timestamp c)); [lia|done].
    + unfold handleAlarm.
      destruct (String.eqb_spec name "refresh-traffic-data"); [done|].
      by destruct (String.eqb_spec name "cleanup-cache").
  - intros ->. unfold handleAlarm. cbn [String.eqb Ascii.eqb Bool.eqb].
    unfold refreshAllData. cbn [with_core core run_task].
    rewrite getTrafficData_refetch by (intros c'; cbn [dataCache]; by rewrite lookup_empty).
    unfold fetchTrafficData. cbn [snd].
    destruct (fetched E); cbn [snd fetches]; by rewrite run_tasks_fetches.
  - intros -> Hold e He. split.
    + rewrite getTrafficData_refetch.
      * by rewrite He, Hk.
      * intros c' Hc'. rewrite Hk in Hc'. injection Hc' as <-. lia.
    + unfold handleAlarm. cbn [String.eqb Ascii.eqb Bool.eqb].
      cbn [with_core core run_task].
      assert (Hgone : cleanupCache (clock (core s)) (dataCache (core s))
                      !! ("traffic_" +:+ JSON_stringify (or_empty p)) = None).
      { rewrite cleanupCache_lookup_worker, Hk.
        destruct (Z.ltb_spec 1800000 (clock (core s) - timestamp c)); [done|lia]. }
      rewrite getTrafficData_refetch
        by (intros c'; cbn [dataCache]; by rewrite Hgone).
      rewrite He. cbn [dataCache fst]. by rewrite Hgone.
Qed.

Lemma period_positive n : 0 < n → (0 < inject_Z n / 60000)%Q.
Proof.
  intros Hn. apply Qlt_shift_div_l; [done|].
  change (0 * 60000)%Q with (inject_Z 0). by rewrite <- Zlt_Qlt.
Qed.

Lemma scheduleDataRefresh_only s :
  only_refresh_alarm (alarms s) → only_refresh_alarm (alarms (scheduleDataRefresh s)).
Proof.
  intros Hs name a. rewrite scheduleDataRefresh_alarms.
  destruct (String.eqb_spec name "refresh-traffic-data") as [->|Hne]; [|apply Hs].
  destruct (Z.ltb_spec 0 (interval s)); [|done].
  intros [= <-]. cbn [delayInMinutes periodInMinutes].
  split; [done|]. split; [done|]. by apply period_positive.
Qed.

Lemma handle_only e s :
  only_refresh_alarm (alarms s) → only_refresh_alarm (alarms (handle e s)).
Proof.
  intros Hs. destruct e as [o|o reason|name|o items|]; cbn [handle].
  - unfold handleStartup, loadSettings, mbind, M_bind, modify, throw.
    destruct (get_fails o); [done|]. cbn [fst snd].
    by apply scheduleDataRefresh_only.
  - unfold handleInstalled, initializeDefaultSettings, storage_sync_set,
      modify, throw.
    destruct (String.eqb reason "install"); [by destruct (set_fails o)|].
    by destruct (String.eqb reason "update").
  - unfold handleAlarm.
    destruct (String.eqb name "refresh-traffic-data"); [done|].
    by destruct (String.eqb name "cleanup-cache").
  - unfold updateSettings, storage_sync_set, loadSettings, mbind, M_bind,
      modify, throw.
    destruct (set_fails o); [done|]. destruct (get_fails o); [done|].
    cbn [fst snd]. destruct (refreshInterval items); [|done].
    by apply scheduleDataRefresh_only.
  - done.
Qed.

(** X30. Whatever the worker goes through after it was started
    (browser start, installation or update, alarms, settings and refresh
    messages), the only alarm it has scheduled is [refresh-traffic-data],
    with a positive period equal to its delay, provided that held of the
    alarms found at the start: no [cleanup-cache] alarm is ever
    scheduled, so the worker's [cleanupCache] is not run by an alarm of its
    own. *)
Theorem only_refresh_alarm_scheduled now stored scheduled events :
  only_refresh_alarm scheduled →
  let s := foldl (λ s e, handle e s) (constructor now stored scheduled) events in
  only_refresh_alarm (alarms s)
  ∧ alarms s !! "cleanup-cache" = None.
Proof.
  intros Hinit s.
  assert (Hs : only_refresh_alarm (alarms s)).
  { subst s. induction events as [|e events IH] using rev_ind.
    - cbn [foldl]. unfold constructor. by apply scheduleDataRefresh_only.
    - rewrite foldl_app. cbn [foldl]. by apply handle_only. }
  split; [done|].
  destruct (alarms s !! "cleanup-cache") as [a|] eqn:Ha; [|done].
  by destruct (Hs _ _ Ha) as [? _].
Qed.

End WorkerMore.

Lemma handleMessage_answers_witness :
  ∃ resp,
    (WorkerService.handleMessage (H := CoordinatorSamples.sampleBuiltins)
       (λ _, "error") WorkerSamples.failing WorkerService.granted
       {| WorkerService.type := "PING"; WorkerService.params := VUndefined;
          WorkerService.settings := None;
          WorkerService.key := "" |}
       {| WorkerService.svc :=
            WorkerService.constructor 0
              {| WorkerService.refreshInterval := None;
                 WorkerService.notifications := None;
                 WorkerService.theme := None |} ∅;
          WorkerService.random := constant_draws 0.5 |}).1 = Resolved resp
    ∧ resp = WorkerService.Failure "Unknown message type".
Proof.
  destruct (handleMessage_answers (H := CoordinatorSamples.sampleBuiltins)
              (λ _, "error") WorkerSamples.failing WorkerService.granted
              {| WorkerService.type := "PING"; WorkerService.params := VUndefined;
                 WorkerService.settings := None;
                 WorkerService.key := "" |}
              {| WorkerService.svc :=
                   WorkerService.constructor 0
                     {| WorkerService.refreshInterval := None;
                        WorkerService.notifications := None;
                        WorkerService.theme := None |} ∅;
                 WorkerService.random := constant_draws 0.5 |})
    as (resp & Hr & _ & Hunknown & _).
  exists resp. split; [exact Hr|]. apply Hunknown.
  unfold messageTypes. cbn [WorkerService.type].
  rewrite !elem_of_cons, elem_of_nil. intros [?|[?|[?|[?|[?|[]]]]]]; discriminate.
Defined.

Lemma refresh_alarm_follows_update_witness :
  WorkerService.interval
    (WorkerService.updateSettings WorkerService.granted
       (Some {| WorkerService.refreshInterval := Some 120000;
                WorkerService.notifications := None;
                WorkerService.theme := None |})
       (WorkerService.constructor 0
          {| WorkerService.refreshInterval := None;
             WorkerService.notifications := None;
             WorkerService.theme := None |} ∅)).2
  = 120000.
Proof.
  apply (proj1 (proj2 (refresh_alarm_follows_update
                         {| WorkerService.refreshInterval := Some 120000;
                            WorkerService.notifications := None;
                            WorkerService.theme := None |}
                         (WorkerService.constructor 0
                            {| WorkerService.refreshInterval := None;
                               WorkerService.notifications := None;
                               WorkerService.theme := None |} ∅))) 120000).
  reflexivity.
Defined.

Lemma alarms_and_traffic_data_witness :
  (TrafficAnalyzerBackground.getTrafficData (H := CoordinatorSamples.sampleBuiltins)
     WorkerSamples.failing (VObj [])
     (WorkerService.core
        (WorkerService.handleAlarm "cleanup-cache"
           {| WorkerService.core :=
                {| TrafficAnalyzerBackground.dataCache :=
                     {[ "traffic_{}" := {| data := CoordinatorSamples.P1;
                                           timestamp := 0 |} ]};
                   TrafficAnalyzerBackground.clock := 2000000;
                   TrafficAnalyzerBackground.fetches := 0 |};
              WorkerService.interval := 60000;
              WorkerService.notificationsEnabled := None;
              WorkerService.sync :=
                {| WorkerService.refreshInterval := None;
                   WorkerService.notifications := None;
                   WorkerService.theme := None |};
              WorkerService.alarms := ∅ |}))).1
  = Resolved (TrafficAnalyzerBackground.mock WorkerSamples.failing).
Proof.
  eapply (alarms_and_traffic_data (H := CoordinatorSamples.sampleBuiltins)
            WorkerSamples.failing (VObj []) _ "cleanup-cache"
            {| data := CoordinatorSamples.P1; timestamp := 0 |});
    [by vm_compute|reflexivity|by vm_compute|reflexivity].
Defined.

Lemma only_refresh_alarm_scheduled_witness :
  WorkerService.alarms
    (foldl (λ s e, WorkerService.handle e s)
       (WorkerService.constructor 0
          {| WorkerService.refreshInterval := None;
             WorkerService.notifications := None;
             WorkerService.theme := None |} ∅)
       [WorkerService.OnInstalled WorkerService.granted "install";
        WorkerService.OnStartup WorkerService.granted])
  !! "cleanup-cache" = None.
Proof.
  apply (only_refresh_alarm_scheduled 0
           {| WorkerService.refreshInterval := None;
              WorkerService.notifications := None;
              WorkerService.theme := None |} ∅
           [WorkerService.OnInstalled WorkerService.granted "install";
            WorkerService.OnStartup WorkerService.granted]).
  intros name a Ha. by rewrite lookup_empty in Ha.
Defined.

